(** * expense-api-gateway: the request dispatch core

    A shallow embedding of the route matcher
    ([internal/service/proxy/route_parser.go]), the proxy forwarder
    ([internal/service/proxy], [ProxyService]), the in-memory service
    registry ([internal/service/discovery/discovery.go]), the sliding
    window rate limiter and its middlewares
    ([internal/middleware/ratelimit]), the defaults and the validation of
    the configuration ([internal/config/config.go]) and the handlers that
    use them ([internal/handler/handler.go]), followed by the properties
    of the specification stated over them and by further properties of the
    code.

    Conventions.
    - A Go [string] is a sequence of bytes; it is modelled by [string]
      (a sequence of [ascii], i.e. of bytes).
    - [time.Time] and [time.Duration] are integers ([Z]) on one time line;
      [time.Now()] is an explicit argument [now].
    - A Go [map] is a [gmap]; a slice is a [list].
    - A pointer to a [ServiceInstance] is a location [loc] of an explicit
      heap, so that the sharing between the registry and its callers is
      kept. *)

From Stdlib Require Import ZArith Ascii String List Bool Lia Sorted.
From stdpp Require Import base option list gmap strings pretty fin_maps.

Local Open Scope string_scope.
Local Open Scope Z_scope.

(* ===================================================================== *)
(** * Go's [strings] package, on byte strings *)
(* ===================================================================== *)

Module GoStrings.

(** [strings.HasPrefix(s, prefix)] *)
Fixpoint HasPrefix (s prefix : string) {struct prefix} : bool :=
  match prefix with
  | EmptyString => true
  | String p prefix' =>
      match s with
      | EmptyString => false
      | String c s' => Ascii.eqb c p && HasPrefix s' prefix'
      end
  end.

(** [strings.HasSuffix(s, suffix)]: [suffix] is [s] or a suffix of its tail. *)
Fixpoint HasSuffix (s suffix : string) : bool :=
  String.eqb s suffix ||
  match s with
  | EmptyString => false
  | String _ s' => HasSuffix s' suffix
  end.

(** [s[n:]] for [n <= len(s)] *)
Fixpoint drop (n : nat) (s : string) : string :=
  match n, s with
  | O, _ => s
  | S n', String _ s' => drop n' s'
  | S _, EmptyString => EmptyString
  end.

(** [strings.TrimPrefix(s, prefix)] *)
Definition TrimPrefix (s prefix : string) : string :=
  if HasPrefix s prefix then drop (String.length prefix) s else s.

(** [strings.ReplaceAll(s, old, new)] for a non-empty [old]: the
    non-overlapping occurrences of [old] are replaced from left to right.
    [skip] counts the bytes of an occurrence that are still to be
    dropped. *)
Fixpoint replaceFrom (skip : nat) (s old new : string) : string :=
  match s with
  | EmptyString => EmptyString
  | String c s' =>
      match skip with
      | S k => replaceFrom k s' old new
      | O =>
          if HasPrefix s old
          then new ++ replaceFrom (String.length old - 1) s' old new
          else String c (replaceFrom O s' old new)
      end
  end.

(** With an empty [old], Go inserts [new] before every byte and at the
    end (for ASCII text). *)
Fixpoint intersperse (s new : string) : string :=
  match s with
  | EmptyString => new
  | String c s' => new ++ String c (intersperse s' new)
  end.

Definition ReplaceAll (s old new : string) : string :=
  match old with
  | EmptyString => intersperse s new
  | _ => replaceFrom O s old new
  end.

(** ASCII lower-casing of one byte. *)
Definition toLower (c : ascii) : ascii :=
  let n := nat_of_ascii c in
  if (Nat.leb 65 n && Nat.leb n 90)%bool then ascii_of_nat (n + 32) else c.

(** [strings.EqualFold(s, t)], on ASCII text: equality up to the case of
    the letters. *)
Fixpoint EqualFold (s t : string) : bool :=
  match s, t with
  | EmptyString, EmptyString => true
  | String a s', String b t' => Ascii.eqb (toLower a) (toLower b) && EqualFold s' t'
  | _, _ => false
  end.

(** [s[:n]] for [n <= len(s)] *)
Fixpoint take (n : nat) (s : string) : string :=
  match n, s with
  | S n', String c s' => String c (take n' s')
  | _, _ => EmptyString
  end.

End GoStrings.

(* ===================================================================== *)
(** * Go's [regexp] package, for the expressions the route matcher builds *)
(* ===================================================================== *)

Module GoRegexp.

(** The bytes [regexp.QuoteMeta] escapes: [\.+*?()|[]{}^$]. *)
Definition specialBytes : list ascii :=
  list_ascii_of_string "\.+*?()|[]{}^$".

Definition special (c : ascii) : bool :=
  existsb (Ascii.eqb c) specialBytes.

(** [regexp.QuoteMeta(s)]: a backslash in front of every special byte. *)
Fixpoint QuoteMeta (s : string) : string :=
  match s with
  | EmptyString => EmptyString
  | String c s' =>
      if special c then String "\" (String c (QuoteMeta s'))
      else String c (QuoteMeta s')
  end.

(** One character position of an expression. *)
Inductive atom : Type :=
| Lit (c : ascii)                                (* a literal byte *)
| AnyCharNotNL                                   (* [.] *)
| CharClass (negated : bool) (members : list ascii). (* [[abc]], [[^abc]] *)

Inductive quant : Type := Once | Star | Plus | Quest.

Inductive inst : Type :=
| Piece (a : atom) (q : quant)
| BeginText                                      (* [^] *)
| EndText.                                       (* [$] *)

(** A compiled expression: a concatenation of pieces and assertions. *)
Definition regex : Type := list inst.

Definition isAlnum (c : ascii) : bool :=
  let n := nat_of_ascii c in
  ((Nat.leb 48 n && Nat.leb n 57) || (Nat.leb 65 n && Nat.leb n 90)
   || (Nat.leb 97 n && Nat.leb n 122))%bool.

(** The bytes that may follow a backslash as an escaped literal: the
    ASCII bytes that are neither a letter nor a digit. *)
Definition escapable (c : ascii) : bool :=
  (Nat.ltb (nat_of_ascii c) 128 && negb (isAlnum c))%bool.

Inductive pstate : Type :=
| PNormal
| PEscape                                        (* after a backslash *)
| PClassOpen                                     (* after [[] *)
| PClass (negated : bool) (members : list ascii). (* inside a class *)

Definition quantOf (c : ascii) : option quant :=
  if Ascii.eqb c "*" then Some Star
  else if Ascii.eqb c "+" then Some Plus
  else if Ascii.eqb c "?" then Some Quest
  else None.

(** Bytes that have no literal reading inside a class of this fragment. *)
Definition classMeta (c : ascii) : bool :=
  existsb (Ascii.eqb c) (list_ascii_of_string "\[]-^").

(** Bytes whose constructs (groups, alternation, counted repetition) are
    outside the fragment. *)
Definition unsupported (c : ascii) : bool :=
  existsb (Ascii.eqb c) (list_ascii_of_string "()|{").

(** The parser of [regexp.Compile], restricted to: literal bytes, escaped
    punctuation, [.], classes of plain bytes, one postfix [*], [+] or [?]
    on a character position, [^] and [$].  [acc] holds the parsed
    instructions, last one first.  Anything else is answered by [None];
    [patternToRegex] never produces it (see [patternToRegex_compiles]). *)
Fixpoint parseFrom (st : pstate) (acc : list inst) (s : string) : option regex :=
  match s with
  | EmptyString =>
      match st with
      | PNormal => Some (rev acc)
      | _ => None
      end
  | String c s' =>
      match st with
      | PEscape =>
          if escapable c then parseFrom PNormal (Piece (Lit c) Once :: acc) s'
          else None
      | PClassOpen =>
          if Ascii.eqb c "^" then parseFrom (PClass true []) acc s'
          else if classMeta c then None
          else parseFrom (PClass false [c]) acc s'
      | PClass neg ms =>
          if Ascii.eqb c "]" then
            match ms with
            | [] => None
            | _ => parseFrom PNormal (Piece (CharClass neg (rev ms)) Once :: acc) s'
            end
          else if classMeta c then None
          else parseFrom (PClass neg (c :: ms)) acc s'
      | PNormal =>
          if Ascii.eqb c "\" then parseFrom PEscape acc s'
          else if Ascii.eqb c "." then parseFrom PNormal (Piece AnyCharNotNL Once :: acc) s'
          else if Ascii.eqb c "[" then parseFrom PClassOpen acc s'
          else if Ascii.eqb c "$" then parseFrom PNormal (EndText :: acc) s'
          else if Ascii.eqb c "^" then parseFrom PNormal (BeginText :: acc) s'
          else if unsupported c then None
          else
            match quantOf c with
            | Some q =>
                match acc with
                | Piece a Once :: acc' => parseFrom PNormal (Piece a q :: acc') s'
                | _ => None
                end
            | None => parseFrom PNormal (Piece (Lit c) Once :: acc) s'
            end
      end
  end.

Definition parse (expr : string) : option regex := parseFrom PNormal [] expr.

(** Does the character position [a] accept the byte [c]? *)
Definition accepts (a : atom) (c : ascii) : bool :=
  match a with
  | Lit x => Ascii.eqb c x
  | AnyCharNotNL => negb (Ascii.eqb c "010")
  | CharClass neg ms => xorb neg (existsb (Ascii.eqb c) ms)
  end.

(** [a*] followed by the continuation [k]; [bot] tells whether the
    position is still the beginning of the text. *)
Fixpoint star (a : atom) (k : bool -> string -> bool) (bot : bool) (s : string) : bool :=
  k bot s ||
  match s with
  | EmptyString => false
  | String c s' => accepts a c && star a k false s'
  end.

(** Does [r] match a prefix of [s]?  (The end of a match is free unless
    [r] asserts it with [$].) *)
Fixpoint matchHere (r : regex) (bot : bool) (s : string) : bool :=
  match r with
  | [] => true
  | BeginText :: r' => bot && matchHere r' bot s
  | EndText :: r' =>
      match s with
      | EmptyString => matchHere r' bot s
      | String _ _ => false
      end
  | Piece a Once :: r' =>
      match s with
      | EmptyString => false
      | String c s' => accepts a c && matchHere r' false s'
      end
  | Piece a Star :: r' => star a (matchHere r') bot s
  | Piece a Plus :: r' =>
      match s with
      | EmptyString => false
      | String c s' => accepts a c && star a (matchHere r') false s'
      end
  | Piece a Quest :: r' =>
      matchHere r' bot s ||
      match s with
      | EmptyString => false
      | String c s' => accepts a c && matchHere r' false s'
      end
  end.

(** An unanchored search: a match may start at any position of the text,
    the end of the text included. *)
Fixpoint searchFrom (r : regex) (bot : bool) (s : string) : bool :=
  matchHere r bot s ||
  match s with
  | EmptyString => false
  | String _ s' => searchFrom r false s'
  end.

(** [regexp.MatchString(pattern, s)]: [None] is the compile error. *)
Definition MatchString (pattern s : string) : option bool :=
  match parse pattern with
  | Some r => Some (searchFrom r true s)
  | None => None
  end.

(** [regexp.MustCompile(`\\/:([^/]+)`).ReplaceAllString(s, "/[^/]+")].
    The expression reads: a backslash, [/], [:], then one or more bytes
    other than [/], as many as there are.  Its matches are replaced from
    left to right; [inName] is set while the bytes of a matched name are
    being dropped. *)
Definition notSlash (c : ascii) : bool := negb (Ascii.eqb c "/").

Fixpoint replaceParams (inName : bool) (s : string) : string :=
  match s with
  | EmptyString => EmptyString
  | String c s' =>
      if inName && notSlash c then replaceParams true s'
      else
        match s' with
        | String c1 (String c2 ((String c3 _) as name)) =>
            if Ascii.eqb c "\" && Ascii.eqb c1 "/" && Ascii.eqb c2 ":" && notSlash c3
            then "/[^/]+" ++ replaceParams true name
            else String c (replaceParams false s')
        | _ => String c (replaceParams false s')
        end
  end.

(** The texts [QuoteMeta] produces, also after [\*] has been replaced by
    [.*]: plain bytes, escaped special bytes, and [.*]. *)
Inductive quoted : string -> Prop :=
| quoted_nil : quoted EmptyString
| quoted_plain (c : ascii) (s : string) :
    special c = false -> quoted s -> quoted (String c s)
| quoted_escape (c : ascii) (s : string) :
    special c = true -> quoted s -> quoted (String "\" (String c s))
| quoted_any (s : string) :
    quoted s -> quoted (String "." (String "*" s)).

(** A text without special bytes, and the expression that matches it
    byte for byte. *)
Fixpoint literal (s : string) : bool :=
  match s with
  | EmptyString => true
  | String c s' => negb (special c) && literal s'
  end.


Fixpoint litSeq (s : string) : regex :=
  match s with
  | EmptyString => []
  | String c s' => Piece (Lit c) Once :: litSeq s'
  end.

End GoRegexp.

(* ===================================================================== *)
(** * Package [discovery]: the in-memory service registry *)
(* ===================================================================== *)

Module discovery.

(** [*ServiceInstance]: a location of the heap. *)
Definition loc : Type := positive.

(** [chan []*ServiceInstance], made with capacity 1. *)
Definition chanId : Type := positive.

(** [type HealthStatus string]: any string can be held, three are named. *)
Definition HealthStatus : Type := string.
Definition HealthStatusHealthy : HealthStatus := "healthy".
Definition HealthStatusUnhealthy : HealthStatus := "unhealthy".
Definition HealthStatusCritical : HealthStatus := "critical".

(** [ServiceInstance] *)
Record ServiceInstance : Type := mkServiceInstance {
  ID : string;
  Name : string;
  Address : string;
  Port : Z;
  Tags : list string;
  Meta : list (string * string);
  Health : HealthStatus;
  LastSeen : Z
}.

Definition setLastSeen (t : Z) (i : ServiceInstance) : ServiceInstance :=
  mkServiceInstance (ID i) (Name i) (Address i) (Port i) (Tags i) (Meta i) (Health i) t.

Definition setHealth (h : HealthStatus) (i : ServiceInstance) : ServiceInstance :=
  mkServiceInstance (ID i) (Name i) (Address i) (Port i) (Tags i) (Meta i) h (LastSeen i).

(** [sync.RWMutex] as one goroutine sees it: held by [readers] readers, or
    by the writer. *)
Inductive RWMutex : Type :=
| Free (readers : nat)
| Writer.

(** [InMemoryDiscovery], with the heap cells of the instances it points
    to and the buffers of the channels it sends on. *)
Record InMemoryDiscovery : Type := mkInMemoryDiscovery {
  heap : gmap loc ServiceInstance;
  services : gmap string (gmap string loc);
  watchers : gmap string (list chanId);
  chans : gmap chanId (list (list loc));
  mutex : RWMutex
}.

(** [New]: empty maps, an unlocked mutex. *)
Definition New : InMemoryDiscovery :=
  mkInMemoryDiscovery ∅ ∅ ∅ ∅ (Free 0).

Definition withHeap (h : gmap loc ServiceInstance) (d : InMemoryDiscovery) :=
  mkInMemoryDiscovery h (services d) (watchers d) (chans d) (mutex d).
Definition withServices (s : gmap string (gmap string loc)) (d : InMemoryDiscovery) :=
  mkInMemoryDiscovery (heap d) s (watchers d) (chans d) (mutex d).
Definition withWatchers (w : gmap string (list chanId)) (d : InMemoryDiscovery) :=
  mkInMemoryDiscovery (heap d) (services d) w (chans d) (mutex d).
Definition withChans (c : gmap chanId (list (list loc))) (d : InMemoryDiscovery) :=
  mkInMemoryDiscovery (heap d) (services d) (watchers d) c (mutex d).
Definition withMutex (m : RWMutex) (d : InMemoryDiscovery) :=
  mkInMemoryDiscovery (heap d) (services d) (watchers d) (chans d) m.

(** The outcome of running a method on the calling goroutine: it returns,
    it waits for ever on a lock nobody will release, or it panics on a
    nil pointer. *)
Inductive Exec (A : Type) : Type :=
| Returns (a : A) (d : InMemoryDiscovery)
| Blocks
| Panics.
Arguments Returns {A} a d.
Arguments Blocks {A}.
Arguments Panics {A}.

Definition M (A : Type) : Type := InMemoryDiscovery -> Exec A.

Definition ret {A} (a : A) : M A := fun d => Returns a d.

Definition bind {A B} (m : M A) (k : A -> M B) : M B :=
  fun d =>
    match m d with
    | Returns a d' => k a d'
    | Blocks => Blocks
    | Panics => Panics
    end.

(** The notations [x ← m; k] and [m;; k] are those of [MBind]. *)
Module monad.
#[export] Instance M_ret : MRet M := @ret.
#[export] Instance M_bind : MBind M := fun A B k m => bind m k.
End monad.
Import monad.

Definition get : M InMemoryDiscovery := fun d => Returns d d.
Definition modify (f : InMemoryDiscovery -> InMemoryDiscovery) : M unit :=
  fun d => Returns tt (f d).

(** [mutex.Lock()]: waits while a reader or the writer holds the lock. *)
Definition Lock : M unit := fun d =>
  match mutex d with
  | Free O => Returns tt (withMutex Writer d)
  | _ => Blocks
  end.

(** [mutex.Unlock()] *)
Definition Unlock : M unit := modify (withMutex (Free 0)).

(** [mutex.RLock()]: waits while the writer holds the lock. *)
Definition RLock : M unit := fun d =>
  match mutex d with
  | Free n => Returns tt (withMutex (Free (S n)) d)
  | Writer => Blocks
  end.

(** [mutex.RUnlock()] *)
Definition RUnlock : M unit := fun d =>
  match mutex d with
  | Free (S n) => Returns tt (withMutex (Free n) d)
  | _ => Returns tt d
  end.

(** Reading through an instance pointer; a nil pointer panics. *)
Definition deref (p : loc) : M ServiceInstance := fun d =>
  match heap d !! p with
  | Some i => Returns i d
  | None => Panics
  end.

(** A new instance object. *)
Definition alloc (i : ServiceInstance) : M loc := fun d =>
  let p := fresh (dom (heap d)) in
  Returns p (withHeap (<[p := i]> (heap d)) d).

(** [instance.Health == HealthStatusHealthy], through the pointer. *)
Definition isHealthy (h : gmap loc ServiceInstance) (p : loc) : bool :=
  match h !! p with
  | Some i => String.eqb (Health i) HealthStatusHealthy
  | None => false
  end.

(** The error of [Discover] and [Deregister]. *)
Inductive Error : Type :=
| ErrServiceNotFound (serviceName : string)   (* "service not found: %s" *)
| ErrInstanceNotFound (serviceID : string).   (* "service instance not found: %s" *)

(** [InMemoryDiscovery.Discover].  The loop ranges over a Go map, whose
    order is not fixed; the instances are taken in the order of
    [map_to_list]. *)
Definition Discover (serviceName : string) : M (list loc + Error) :=
  RLock;;
  d ← get;
  match services d !! serviceName with
  | None =>
      RUnlock;; ret (inr (ErrServiceNotFound serviceName))
  | Some instances =>
      let result := filter (fun p => isHealthy (heap d) p = true)
                           (snd <$> map_to_list instances) in
      RUnlock;; ret (inl result)
  end.

(** [select { case watcher <- instances: default: }] on a channel of
    capacity 1: the value is stored when the buffer is empty and dropped
    otherwise. *)
Definition trySend (w : chanId) (instances : list loc) : M unit :=
  modify (fun d =>
    match chans d !! w with
    | Some [] => withChans (<[w := [instances]]> (chans d)) d
    | _ => d
    end).

Fixpoint sendAll (ws : list chanId) (instances : list loc) : M unit :=
  match ws with
  | [] => ret tt
  | w :: ws' => trySend w instances;; sendAll ws' instances
  end.

(** [InMemoryDiscovery.notifyWatchers] *)
Definition notifyWatchers (serviceName : string) : M unit :=
  d ← get;
  match watchers d !! serviceName with
  | Some ws =>
      r ← Discover serviceName;
      match r with
      | inl instances => sendAll ws instances
      | inr _ => ret tt
      end
  | None => ret tt
  end.

(** [InMemoryDiscovery.Register], called at time [now]. *)
Definition Register (now : Z) (instance : loc) : M (option Error) :=
  Lock;;
  i ← deref instance;
  modify (fun d =>
    match services d !! Name i with
    | None => withServices (<[Name i := ∅]> (services d)) d
    | Some _ => d
    end);;
  modify (fun d => withHeap (<[instance := setLastSeen now i]> (heap d)) d);;
  modify (fun d =>
    withServices
      (<[Name i := <[ID i := instance]> (default ∅ (services d !! Name i))]> (services d))
      d);;
  notifyWatchers (Name i);;
  Unlock;;
  ret None.

(** The first service, in the order of the range loop, that holds the
    instance id.  Go does not fix the order of a range over a map; the
    order of [map_to_list] stands for it. *)
Definition findService (serviceID : string) (svcs : gmap string (gmap string loc))
  : option (string * gmap string loc) :=
  List.find (fun kv => bool_decide (is_Some (snd kv !! serviceID))) (map_to_list svcs).

(** [InMemoryDiscovery.Deregister] *)
Definition Deregister (serviceID : string) : M (option Error) :=
  Lock;;
  d ← get;
  match findService serviceID (services d) with
  | Some (serviceName, instances) =>
      modify (withServices (<[serviceName := delete serviceID instances]> (services d)));;
      notifyWatchers serviceName;;
      Unlock;;
      ret None
  | None =>
      Unlock;;
      ret (Some (ErrInstanceNotFound serviceID))
  end.

(** [InMemoryDiscovery.Watch].  The goroutine it starts to deliver the
    first snapshot is [watchFirst]; it runs after [Watch] has returned. *)
Definition Watch (serviceName : string) : M chanId :=
  Lock;;
  d ← get;
  let ch := fresh (dom (chans d)) in
  modify (withChans (<[ch := []]> (chans d)));;
  modify (fun d =>
    withWatchers (<[serviceName := (default [] (watchers d !! serviceName) ++ [ch])%list]> (watchers d)) d);;
  Unlock;;
  ret ch.

(** [ch <- instances]: waits while the buffer is full. *)
Definition send (ch : chanId) (instances : list loc) : M unit := fun d =>
  match chans d !! ch with
  | Some [] => Returns tt (withChans (<[ch := [instances]]> (chans d)) d)
  | _ => Blocks
  end.

(** The goroutine of [Watch]: a blocking send of the first snapshot when
    [Discover] succeeds. *)
Definition watchFirst (ch : chanId) (serviceName : string) : M unit :=
  r ← Discover serviceName;
  match r with
  | inl instances => send ch instances
  | inr _ => ret tt
  end.

(** [simulateHealthCheck]: every probe succeeds. *)
Definition simulateHealthCheck (url : string) : bool := true.

(** [InMemoryDiscovery.checkInstanceHealth], from the probe on (the
    health URL it builds plays no part in the outcome). *)
Definition checkInstanceHealth (now : Z) (serviceName : string) (instance : loc) : M unit :=
  let healthy := simulateHealthCheck "" in
  Lock;;
  i ← deref instance;
  let oldHealth := Health i in
  let i' := if healthy then setLastSeen now (setHealth HealthStatusHealthy i)
            else setHealth HealthStatusUnhealthy i in
  modify (fun d => withHeap (<[instance := i']> (heap d)) d);;
  (if negb (String.eqb oldHealth (Health i')) then notifyWatchers serviceName else ret tt);;
  Unlock.

(** The instance [Start] builds for a host of a configured service. *)
Definition bootstrapInstance (now : Z) (serviceName host : string) (port : Z) : ServiceInstance :=
  mkServiceInstance (serviceName ++ "-" ++ host) serviceName host port [] []
                    HealthStatusHealthy now.

(** [Handler.RegisterService]: the instance decoded from the request body
    ([None] when the body does not bind) is registered as it is.  The
    answer is the HTTP status. *)
Definition RegisterService (now : Z) (body : option ServiceInstance) : M Z :=
  match body with
  | None => ret 400
  | Some instance =>
      p ← alloc instance;
      err ← Register now p;
      match err with
      | Some _ => ret 500
      | None => ret 200
      end
  end.

(** The states the registry goes through.  [reachable d names] holds
    when [d] is reached from [New] by calls that have returned, [names]
    being the service names of the instances registered on the way. *)
Inductive reachable : InMemoryDiscovery -> list string -> Prop :=
| reach_New : reachable New []
| reach_alloc d names i p d' :
    reachable d names ->
    alloc i d = Returns p d' ->
    reachable d' names
| reach_Register d names now p i r d' :
    reachable d names ->
    heap d !! p = Some i ->
    Register now p d = Returns r d' ->
    reachable d' (Name i :: names)
| reach_Deregister d names serviceID r d' :
    reachable d names ->
    Deregister serviceID d = Returns r d' ->
    reachable d' names
| reach_Discover d names serviceName r d' :
    reachable d names ->
    Discover serviceName d = Returns r d' ->
    reachable d' names
| reach_Watch d names serviceName ch d' :
    reachable d names ->
    Watch serviceName d = Returns ch d' ->
    reachable d' names
| reach_watchFirst d names ch serviceName d' :
    reachable d names ->
    watchFirst ch serviceName d = Returns tt d' ->
    reachable d' names
| reach_checkInstanceHealth d names now serviceName p d' :
    reachable d names ->
    checkInstanceHealth now serviceName p d = Returns tt d' ->
    reachable d' names.

(** The pointer the registry holds for an instance id of a service. *)
Definition stored (d : InMemoryDiscovery) (serviceName serviceID : string) : option loc :=
  match services d !! serviceName with
  | Some instances => instances !! serviceID
  | None => None
  end.

(** The registry a [Register] that returns leaves behind. *)
Definition registered (now : Z) (p : loc) (i : ServiceInstance) (d : InMemoryDiscovery)
  : InMemoryDiscovery :=
  mkInMemoryDiscovery
    (<[p := setLastSeen now i]> (heap d))
    (<[Name i := <[ID i := p]> (default ∅ (services d !! Name i))]> (services d))
    (watchers d) (chans d) (Free 0).

(** Two registries that know the same service names. *)
Definition sameNames (d d' : InMemoryDiscovery) : Prop :=
  forall s, is_Some (services d' !! s) <-> is_Some (services d !! s).

End discovery.

(* ===================================================================== *)
(** * Package [proxy]: the route matcher and the proxy forwarder *)
(* ===================================================================== *)

Module proxy.
Import GoStrings GoRegexp discovery.monad.

(** [RouteConfig] *)
Record RouteConfig : Type := mkRouteConfig {
  ID : string;
  Pattern : string;
  Service : string;
  Methods : list string;
  AuthRequired : bool;
  Roles : list string;
  Timeout : Z;
  MaxBodySize : Z;
  Streaming : bool;
  Headers : list (string * string);
  StripPrefix : bool;
  RewritePath : string
}.

(** [ServiceConfig] *)
Record ServiceConfig : Type := mkServiceConfig {
  Hosts : list string;
  Port : Z;
  HealthCheck : string;
  ServiceTimeout : Z;
  ServiceMaxBodySize : Z;
  ServiceHeaders : list (string * string)
}.

(** [RouteGroup] *)
Record RouteGroup : Type := mkRouteGroup {
  Name : string;
  Prefix : string;
  Middleware : list string;
  Routes : list RouteConfig
}.

(** [RouteParser], without its logger, lock and file path. *)
Record RouteParser : Type := mkRouteParser {
  routes : list RouteConfig;
  services : gmap string ServiceConfig;
  groups : list RouteGroup
}.

(** The two errors [MatchRoute] builds with [fmt.Errorf]. *)
Inductive MatchError : Type :=
| ServiceNotFound (service : string)     (* "service not found: %s" *)
| NoRouteFound (method path : string).   (* "no route found for %s %s" *)

(** [patternToRegex] *)
Definition patternToRegex (pattern : string) : string :=
  let pattern := QuoteMeta pattern in
  let pattern := ReplaceAll pattern "\*" ".*" in
  let pattern := replaceParams false pattern in
  if negb (HasSuffix pattern "$") then pattern ++ "$" else pattern.

(** [matchRoutePattern] *)
Definition matchRoutePattern (pattern path : string) : bool :=
  let regexPattern := patternToRegex pattern in
  match MatchString regexPattern path with
  | None => false
  | Some matched => matched
  end.

(** [matchMethod] *)
Definition matchMethod (allowedMethods : list string) (requestMethod : string) : bool :=
  match allowedMethods with
  | [] => true
  | _ => existsb (fun m => EqualFold m requestMethod) allowedMethods
  end.

(** The test both loops of [MatchRoute] apply to a route. *)
Definition routeMatches (method path : string) (route : RouteConfig) : bool :=
  matchRoutePattern (Pattern route) path && matchMethod (Methods route) method.

(** The body shared by the two loops over routes: the first route that
    passes the test decides; [None] when the loop runs to its end. *)
Fixpoint scanRoutes (svcs : gmap string ServiceConfig) (method path : string)
         (rs : list RouteConfig)
  : option (RouteConfig * ServiceConfig + MatchError) :=
  match rs with
  | [] => None
  | route :: rs' =>
      if routeMatches method path route then
        match svcs !! Service route with
        | None => Some (inr (ServiceNotFound (Service route)))
        | Some service => Some (inl (route, service))
        end
      else scanRoutes svcs method path rs'
  end.

(** The loop over the groups. *)
Fixpoint scanGroups (svcs : gmap string ServiceConfig) (method path : string)
         (gs : list RouteGroup)
  : option (RouteConfig * ServiceConfig + MatchError) :=
  match gs with
  | [] => None
  | group :: gs' =>
      if HasPrefix path (Prefix group) then
        match scanRoutes svcs method path (Routes group) with
        | Some r => Some r
        | None => scanGroups svcs method path gs'
        end
      else scanGroups svcs method path gs'
  end.

(** [RouteParser.MatchRoute] *)
Definition MatchRoute (p : RouteParser) (method path : string)
  : RouteConfig * ServiceConfig + MatchError :=
  match scanGroups (services p) method path (groups p) with
  | Some r => r
  | None =>
      match scanRoutes (services p) method path (routes p) with
      | Some r => r
      | None => inr (NoRouteFound method path)
      end
  end.

(** ** The proxy forwarder ([ProxyService]) *)

(** [url.URL], as far as [buildTargetURL] fills it. *)
Record URL : Type := mkURL {
  Scheme : string;
  Host : string;
  Path : string
}.

(** [ProxyService]: the route table and the maintenance flag; the
    registry it points to is the state the methods run on. *)
Record ProxyService : Type := mkProxyService {
  routeParser : RouteParser;
  maintenanceMode : bool
}.

(** [NewProxyService] *)
Definition NewProxyService (rp : RouteParser) : ProxyService :=
  mkProxyService rp false.

(** [SetMaintenanceMode], [GetMaintenanceMode], [isMaintenanceMode] *)
Definition SetMaintenanceMode (enabled : bool) (p : ProxyService) : ProxyService :=
  mkProxyService (routeParser p) enabled.
Definition GetMaintenanceMode (p : ProxyService) : bool := maintenanceMode p.
Definition isMaintenanceMode (p : ProxyService) : bool := maintenanceMode p.

(** [fmt.Sprintf("%s:%d", address, port)] *)
Definition hostPort (address : string) (port : Z) : string :=
  address ++ ":" ++ pretty port.

(** [ProxyService.buildTargetURL]; it has no failing path. *)
Definition buildTargetURL (instance : discovery.ServiceInstance) (path : string)
           (route : RouteConfig) (service : ServiceConfig) : URL :=
  let path :=
    if StripPrefix route then TrimPrefix path (Pattern route)
    else if negb (String.eqb (RewritePath route) "") then RewritePath route
    else path in
  mkURL "http" (hostPort (discovery.Address instance) (discovery.Port instance)) path.

(** What the forwarder does that can be seen from outside, in order. *)
Inductive Event : Type :=
| EvMatchRoute (method path : string)
| EvDiscover (service : string)
| EvUpstream (method : string) (target : URL).

(** The backend, as the HTTP client sees it: a transport failure, or a
    status with a body ([None] when the body cannot be read). *)
Inductive UpstreamResult : Type :=
| TransportError
| UpstreamResponse (status : Z) (body : option string).

Definition Backend : Type := string -> URL -> UpstreamResult.

(** [ProxyResponse], without headers and duration; [Error] keeps the
    message. *)
Record ProxyResponse : Type := mkProxyResponse {
  StatusCode : Z;
  Body : string;
  Error : option string
}.

Definition matchErrorText (e : MatchError) : string :=
  match e with
  | ServiceNotFound s => "service not found: " ++ s
  | NoRouteFound m p => "no route found for " ++ m ++ " " ++ p
  end.

Definition StatusNotFound : Z := 404.
Definition StatusServiceUnavailable : Z := 503.
Definition StatusInternalServerError : Z := 500.
Definition StatusBadGateway : Z := 502.

(** [ProxyService.ProxyRequest].  The answer is the response, whether
    the returned [error] is non-nil, and the events.  Request headers,
    query parameters and deadlines are left out; the method is taken to be
    a valid HTTP token, so that building the request succeeds. *)
Definition ProxyRequest (backend : Backend) (p : ProxyService) (method path : string)
  : discovery.M (ProxyResponse * bool * list Event) :=
  let ev1 := [EvMatchRoute method path] in
  match MatchRoute (routeParser p) method path with
  | inr err =>
      mret (mkProxyResponse StatusNotFound ""
              (Some ("no route found: " ++ matchErrorText err)), true, ev1)
  | inl (route, service) =>
      let ev2 := (ev1 ++ [EvDiscover (Service route)])%list in
      let unavailable (failed : bool) : discovery.M (ProxyResponse * bool * list Event) :=
        mret (mkProxyResponse StatusServiceUnavailable ""
                (Some ("service not available: " ++ Service route)), failed, ev2) in
      r ← discovery.Discover (Service route);
      match r with
      | inr _ => unavailable true
      | inl [] => unavailable false
      | inl (first :: _) =>
          instance ← discovery.deref first;
          let targetURL := buildTargetURL instance path route service in
          let ev3 := (ev2 ++ [EvUpstream method targetURL])%list in
          match backend method targetURL with
          | TransportError =>
              mret (mkProxyResponse StatusBadGateway "" (Some "request failed"), true, ev3)
          | UpstreamResponse _ None =>
              mret (mkProxyResponse StatusInternalServerError ""
                      (Some "failed to read response body"), true, ev3)
          | UpstreamResponse status (Some body) =>
              mret (mkProxyResponse status body None, false, ev3)
          end
      end
  end.

(** [singleJoiningSlash] of [net/http/httputil]: the reverse proxy made by
    [NewSingleHostReverseProxy(target)] sends the request to the path of
    [target] joined with the path of the incoming request. *)
Definition singleJoiningSlash (a b : string) : string :=
  let aslash := HasSuffix a "/" in
  let bslash := HasPrefix b "/" in
  if aslash && bslash then a ++ drop 1 b
  else if negb aslash && negb bslash then a ++ "/" ++ b
  else a ++ b.

(** The URL the director of the reverse proxy gives the outbound request. *)
Definition directorURL (target : URL) (path : string) : URL :=
  mkURL (Scheme target) (Host target) (singleJoiningSlash (Path target) path).

(** What [ProxyGinRequest] writes to the caller. *)
Inductive GinResponse : Type :=
| GinJSON (status : Z) (message : string)  (* [{"status":"error","message":..}] *)
| GinRelay (status : Z) (body : option string).   (* the backend's answer *)

(** [ProxyService.ProxyGinRequest]: the response and the events. *)
Definition ProxyGinRequest (backend : Backend) (p : ProxyService) (method path : string)
  : discovery.M (GinResponse * list Event) :=
  if isMaintenanceMode p then
    mret (GinJSON StatusServiceUnavailable "Service is under maintenance", [])
  else
    let ev1 := [EvMatchRoute method path] in
    match MatchRoute (routeParser p) method path with
    | inr _ => mret (GinJSON StatusNotFound "Route not found", ev1)
    | inl (route, service) =>
        let ev2 := (ev1 ++ [EvDiscover (Service route)])%list in
        let unavailable : discovery.M (GinResponse * list Event) :=
          mret (GinJSON StatusServiceUnavailable "Service not available", ev2) in
        r ← discovery.Discover (Service route);
        match r with
        | inr _ => unavailable
        | inl [] => unavailable
        | inl (first :: _) =>
            instance ← discovery.deref first;
            let targetURL := buildTargetURL instance path route service in
            let out := directorURL targetURL path in
            let ev3 := (ev2 ++ [EvUpstream method out])%list in
            match backend method out with
            | TransportError => mret (GinJSON StatusBadGateway "Bad Gateway", ev3)
            | UpstreamResponse status body => mret (GinRelay status body, ev3)
            end
        end
    end.

(** What a scan answers for the route it stops at. *)
Definition resolve (svcs : gmap string ServiceConfig) (route : RouteConfig)
  : RouteConfig * ServiceConfig + MatchError :=
  match svcs !! Service route with
  | None => inr (ServiceNotFound (Service route))
  | Some service => inl (route, service)
  end.

(** The routes [MatchRoute] looks at for a path, in the order it looks
    at them: those of the groups whose prefix the path has, then the
    global ones. *)
Definition candidates (p : RouteParser) (path : string) : list RouteConfig :=
  (flat_map (fun g => if HasPrefix path (Prefix g) then Routes g else []) (groups p)
   ++ routes p)%list.

(** The first of them that passes the pattern and method test. *)
Definition firstMatch (p : RouteParser) (method path : string) : option RouteConfig :=
  List.find (routeMatches method path) (candidates p path).

(** The two errors of [GetServiceHealth]. *)
Inductive HealthError : Type :=
| DiscoverFailed (err : discovery.Error)
| NoInstancesFound (serviceName : string).  (* "no instances found for service: %s" *)

(** [ProxyService.GetServiceHealth] *)
Definition GetServiceHealth (serviceName : string)
  : discovery.M (bool * option HealthError) :=
  r ← discovery.Discover serviceName;
  match r with
  | inr err => mret (false, Some (DiscoverFailed err))
  | inl [] => mret (false, Some (NoInstancesFound serviceName))
  | inl (first :: _) =>
      instance ← discovery.deref first;
      mret (String.eqb (discovery.Health instance) discovery.HealthStatusHealthy, None)
  end.

(** The upstream requests among the events, and the URL of each. *)
Definition upstreams (ev : list Event) : list (string * URL) :=
  flat_map (fun e => match e with EvUpstream m u => [(m, u)] | _ => [] end) ev.

End proxy.

(* ===================================================================== *)
(** * Package [ratelimit]: the sliding-window limiter and its middleware *)
(* ===================================================================== *)

Module ratelimit.

(** [MemoryRateLimiter], without its lock: the methods hold it from
    their first to their last statement. *)
Record MemoryRateLimiter : Type := mkMemoryRateLimiter {
  requests : gmap string (list Z);
  limit : Z;
  window : Z
}.

(** [NewMemoryRateLimiter] *)
Definition NewMemoryRateLimiter (limit window : Z) : MemoryRateLimiter :=
  mkMemoryRateLimiter ∅ limit window.

Definition withRequests (m : gmap string (list Z)) (r : MemoryRateLimiter) :=
  mkMemoryRateLimiter m (limit r) (window r).

(** [t.After(windowStart)] *)
Definition After (t windowStart : Z) : bool := windowStart <? t.

(** [MemoryRateLimiter.Allow], called at time [now]. *)
Definition Allow (now : Z) (key : string) (r : MemoryRateLimiter) : bool * MemoryRateLimiter :=
  let windowStart := now - window r in
  let validTimes :=
    match requests r !! key with
    | Some times => filter (fun t => After t windowStart = true) times
    | None => []
    end in
  let r := withRequests (<[key := validTimes]> (requests r)) r in
  if Z.of_nat (length validTimes) >=? limit r then (false, r)
  else (true, withRequests (<[key := (validTimes ++ [now])%list]> (requests r)) r).

(** [MemoryRateLimiter.Reset] *)
Definition Reset (key : string) (r : MemoryRateLimiter) : MemoryRateLimiter :=
  withRequests (delete key (requests r)) r.

(** [config.RateLimitRule] and [config.RateLimitConfig] *)
Record RateLimitRule : Type := mkRateLimitRule {
  Requests : Z;
  Window : Z
}.

Record RateLimitConfig : Type := mkRateLimitConfig {
  Enabled : bool;
  GlobalLimit : Z;
  IPLimit : RateLimitRule;
  UserLimit : RateLimitRule;
  APILimit : gmap string RateLimitRule
}.

(** [time.Minute], in nanoseconds *)
Definition Minute : Z := 60 * 1000000000.

(** [RateLimitMiddleware]; a nil [globalLimiter] is [None]. *)
Record RateLimitMiddleware : Type := mkRateLimitMiddleware {
  config : RateLimitConfig;
  limiters : gmap string MemoryRateLimiter;
  globalLimiter : option MemoryRateLimiter
}.

(** [NewRateLimitMiddleware] *)
Definition NewRateLimitMiddleware (cfg : RateLimitConfig) : RateLimitMiddleware :=
  if Enabled cfg then
    let ls : gmap string MemoryRateLimiter := ∅ in
    let ls :=
      if Requests (IPLimit cfg) >? 0
      then <["ip" := NewMemoryRateLimiter (Requests (IPLimit cfg)) (Window (IPLimit cfg))]> ls
      else ls in
    let ls :=
      if Requests (UserLimit cfg) >? 0
      then <["user" := NewMemoryRateLimiter (Requests (UserLimit cfg)) (Window (UserLimit cfg))]> ls
      else ls in
    mkRateLimitMiddleware cfg ls (Some (NewMemoryRateLimiter (GlobalLimit cfg) Minute))
  else mkRateLimitMiddleware cfg ∅ None.

(** The gate of [GlobalRateLimit]: [true] when the request goes on to the
    next handler, [false] when it is answered with 429. *)
Definition GlobalRateLimit (now : Z) (m : RateLimitMiddleware) : bool * RateLimitMiddleware :=
  if negb (Enabled (config m)) then (true, m)
  else
    match globalLimiter m with
    | None => (true, m)
    | Some g =>
        let '(ok, g') := Allow now "global" g in
        (ok, mkRateLimitMiddleware (config m) (limiters m) (Some g'))
    end.

(** [RateLimitMiddleware.ResetRateLimit] *)
Definition ResetRateLimit (key : string) (m : RateLimitMiddleware) : RateLimitMiddleware :=
  let ls :=
    match limiters m !! key with
    | Some limiter => <[key := Reset key limiter]> (limiters m)
    | None => limiters m
    end in
  let g :=
    match globalLimiter m with
    | Some g => Some (Reset "global" g)
    | None => None
    end in
  mkRateLimitMiddleware (config m) ls g.

(** A sequence of [Allow] calls for one key, at the given times. *)
Fixpoint allowAll (key : string) (times : list Z) (r : MemoryRateLimiter)
  : list bool * MemoryRateLimiter :=
  match times with
  | [] => ([], r)
  | now :: times' =>
      let '(ok, r1) := Allow now key r in
      let '(oks, r2) := allowAll key times' r1 in
      (ok :: oks, r2)
  end.

(** The timestamps recorded for a key. *)
Definition history (key : string) (r : MemoryRateLimiter) : list Z :=
  default [] (requests r !! key).

(** ** The other middlewares of [RateLimitMiddleware]

    A limiter of the map [limiters] is a pointer in the source: what
    [Allow] records in it stays in the map.  [allowWith] is that call,
    with the limiter written back under its name. *)
Definition allowWith (now : Z) (name key : string) (limiter : MemoryRateLimiter)
           (m : RateLimitMiddleware) : bool * RateLimitMiddleware :=
  let '(ok, limiter') := Allow now key limiter in
  (ok, mkRateLimitMiddleware (config m) (<[name := limiter']> (limiters m)) (globalLimiter m)).

(** The gate of [IPRateLimit], as that of [GlobalRateLimit]; [clientIP] is
    what [getClientIP] answers for the request. *)
Definition IPRateLimit (now : Z) (clientIP : string) (m : RateLimitMiddleware)
  : bool * RateLimitMiddleware :=
  if negb (Enabled (config m)) then (true, m)
  else
    match limiters m !! "ip" with
    | None => (true, m)
    | Some limiter => allowWith now "ip" ("ip:" ++ clientIP) limiter m
    end.

(** The gate of [UserRateLimit]; [userID] is what
    [auth.GetUserIDFromContext] answers ([None] for its error). *)
Definition UserRateLimit (now : Z) (userID : option string) (clientIP : string)
           (m : RateLimitMiddleware) : bool * RateLimitMiddleware :=
  if negb (Enabled (config m)) then (true, m)
  else
    match limiters m !! "user" with
    | None => (true, m)
    | Some limiter =>
        match userID with
        | None => allowWith now "user" ("user:anonymous:" ++ clientIP) limiter m
        | Some userID => allowWith now "user" ("user:" ++ userID) limiter m
        end
    end.

(** [RateLimitMiddleware.getOrCreateAPILimiter] *)
Definition getOrCreateAPILimiter (key : string) (limit window : Z) (m : RateLimitMiddleware)
  : MemoryRateLimiter * RateLimitMiddleware :=
  match limiters m !! key with
  | Some limiter => (limiter, m)
  | None =>
      let limiter := NewMemoryRateLimiter limit window in
      (limiter,
       mkRateLimitMiddleware (config m) (<[key := limiter]> (limiters m)) (globalLimiter m))
  end.

(** The key [APIRateLimit] counts a request under. *)
Definition apiLimiterKey (method path : string) : string :=
  "api:" ++ method ++ ":" ++ path.

Definition apiRateLimitKey (limiterKey : string) (userID : option string) (clientIP : string)
  : string :=
  match userID with
  | None => limiterKey ++ ":ip:" ++ clientIP
  | Some userID => limiterKey ++ ":user:" ++ userID
  end.

(** The gate of [APIRateLimit]. *)
Definition APIRateLimit (now : Z) (method path : string) (userID : option string)
           (clientIP : string) (m : RateLimitMiddleware) : bool * RateLimitMiddleware :=
  if negb (Enabled (config m)) then (true, m)
  else
    match APILimit (config m) !! path with
    | None => (true, m)
    | Some apiLimit =>
        let limiterKey := apiLimiterKey method path in
        let '(limiter, m) :=
          getOrCreateAPILimiter limiterKey (Requests apiLimit) (Window apiLimit) m in
        let rateLimitKey := apiRateLimitKey limiterKey userID clientIP in
        allowWith now limiterKey rateLimitKey limiter m
    end.

(** A sequence of [Allow] calls on one limiter, each with its time and
    its key. *)
Fixpoint allowEach (calls : list (Z * string)) (r : MemoryRateLimiter)
  : list bool * MemoryRateLimiter :=
  match calls with
  | [] => ([], r)
  | (now, key) :: calls' =>
      let '(ok, r1) := Allow now key r in
      let '(oks, r2) := allowEach calls' r1 in
      (ok :: oks, r2)
  end.

(** The calls of a run that were admitted, by their times. *)
Definition admitted (key : string) (times : list Z) (r : MemoryRateLimiter) : list Z :=
  fst <$> filter (fun p => snd p = true) (zip times (fst (allowAll key times r))).

(** The answers a run of [allowEach] gave to the calls of one key. *)
Definition answersFor (key : string) (calls : list (Z * string)) (r : MemoryRateLimiter)
  : list bool :=
  snd <$> filter (fun p => snd (fst p) = key) (zip calls (fst (allowEach calls r))).

End ratelimit.

(* ===================================================================== *)
(** * Package [config]: defaults and validation of the configuration *)
(* ===================================================================== *)

Module config.

(** [time.Second], [time.Minute], [time.Hour], in nanoseconds *)
Definition Second : Z := 1000000000.
Definition Minute : Z := 60 * Second.
Definition Hour : Z := 60 * Minute.

(** [AppConfig] *)
Record AppConfig : Type := mkAppConfig {
  Name : string;
  Version : string;
  Port : Z;
  Mode : string;
  StartTime : Z;
  UseDynamicRouting : bool;
  ReadTimeout : Z;
  WriteTimeout : Z;
  IdleTimeout : Z
}.

(** [LogConfig] *)
Record LogConfig : Type := mkLogConfig {
  Level : string;
  Format : string;
  Output : string
}.

(** [JWTConfig] *)
Record JWTConfig : Type := mkJWTConfig {
  Secret : string;
  Expiration : Z;
  RefreshExpiration : Z
}.

(** [MonitorConfig] *)
Record MonitorConfig : Type := mkMonitorConfig {
  MonitorEnabled : bool;
  MetricsPath : string;
  PrometheusEnabled : bool
}.

(** [CORSConfig] *)
Record CORSConfig : Type := mkCORSConfig {
  CORSEnabled : bool;
  AllowedOrigins : list string;
  AllowedMethods : list string;
  AllowedHeaders : list string;
  MaxAge : Z
}.

(** [ServiceConfig] *)
Record ServiceConfig : Type := mkServiceConfig {
  Hosts : list string;
  ServicePort : Z;
  HealthCheck : string;
  Headers : gmap string string;
  MaxBodySize : Z
}.

(** [DiscoveryConfig] *)
Record DiscoveryConfig : Type := mkDiscoveryConfig {
  DiscoveryType : string;
  Interval : Z;
  Timeout : Z;
  Services : gmap string ServiceConfig
}.

(** [XSSConfig], [SQLInjectionConfig], [SecurityConfig] *)
Record XSSConfig : Type := mkXSSConfig { XSSEnabled : bool }.
Record SQLInjectionConfig : Type := mkSQLInjectionConfig { SQLInjectionEnabled : bool }.

Record SecurityConfig : Type := mkSecurityConfig {
  XSS : XSSConfig;
  SQLInjection : SQLInjectionConfig
}.

(** [Config]; [RateLimitConfig] and [RateLimitRule] are the records of
    the module [ratelimit]. *)
Record Config : Type := mkConfig {
  App : AppConfig;
  Log : LogConfig;
  JWT : JWTConfig;
  RateLimit : ratelimit.RateLimitConfig;
  Monitor : MonitorConfig;
  CORS : CORSConfig;
  Discovery : DiscoveryConfig;
  Security : SecurityConfig
}.

(** [if x == "" { x = d }], [if x == 0 { x = d }], [if len(x) == 0 { x = d }]
    and [if !x { x = true }] *)
Definition orString (x d : string) : string := if String.eqb x "" then d else x.
Definition orZ (x d : Z) : Z := if x =? 0 then d else x.
Definition orList (x d : list string) : list string :=
  if Nat.eqb (length x) 0 then d else x.
Definition orTrue (x : bool) : bool := if negb x then true else x.

(** [Config.setDefaults] *)
Definition setDefaults (c : Config) : Config :=
  mkConfig
    (mkAppConfig
       (orString (Name (App c)) "expense-api-gateway")
       (orString (Version (App c)) "1.0.0")
       (orZ (Port (App c)) 8080)
       (orString (Mode (App c)) "release")
       (StartTime (App c))
       (UseDynamicRouting (App c))
       (orZ (ReadTimeout (App c)) (30 * Second))
       (orZ (WriteTimeout (App c)) (30 * Second))
       (orZ (IdleTimeout (App c)) (120 * Second)))
    (mkLogConfig
       (orString (Level (Log c)) "info")
       (orString (Format (Log c)) "json")
       (Output (Log c)))
    (mkJWTConfig
       (orString (Secret (JWT c)) "your-secret-key")
       (orZ (Expiration (JWT c)) (24 * Hour))
       (orZ (RefreshExpiration (JWT c)) (7 * 24 * Hour)))
    (ratelimit.mkRateLimitConfig
       (ratelimit.Enabled (RateLimit c))
       (orZ (ratelimit.GlobalLimit (RateLimit c)) 1000)
       (ratelimit.mkRateLimitRule
          (orZ (ratelimit.Requests (ratelimit.IPLimit (RateLimit c))) 100)
          (orZ (ratelimit.Window (ratelimit.IPLimit (RateLimit c))) Minute))
       (ratelimit.mkRateLimitRule
          (orZ (ratelimit.Requests (ratelimit.UserLimit (RateLimit c))) 200)
          (orZ (ratelimit.Window (ratelimit.UserLimit (RateLimit c))) Minute))
       (ratelimit.APILimit (RateLimit c)))
    (mkMonitorConfig
       (MonitorEnabled (Monitor c))
       (orString (MetricsPath (Monitor c)) "/metrics")
       (PrometheusEnabled (Monitor c)))
    (mkCORSConfig
       (CORSEnabled (CORS c))
       (orList (AllowedOrigins (CORS c)) ["*"])
       (orList (AllowedMethods (CORS c)) ["GET"; "POST"; "PUT"; "DELETE"; "OPTIONS"])
       (orList (AllowedHeaders (CORS c)) ["*"])
       (orZ (MaxAge (CORS c)) 86400))
    (mkDiscoveryConfig
       (orString (DiscoveryType (Discovery c)) "static")
       (orZ (Interval (Discovery c)) (30 * Second))
       (orZ (Timeout (Discovery c)) (5 * Second))
       (Services (Discovery c)))
    (mkSecurityConfig
       (mkXSSConfig (orTrue (XSSEnabled (XSS (Security c)))))
       (mkSQLInjectionConfig (orTrue (SQLInjectionEnabled (SQLInjection (Security c)))))).

(** [Config.validate]: [None] for [nil], the text of the error
    otherwise. *)
Definition validate (c : Config) : option string :=
  if (Port (App c) <=? 0) || (Port (App c) >? 65535) then
    Some ("invalid port: " ++ pretty (Port (App c)))
  else if String.eqb (Secret (JWT c)) "" then
    Some "JWT secret is required"
  else if ratelimit.Enabled (RateLimit c) then
    if ratelimit.GlobalLimit (RateLimit c) <=? 0 then
      Some "global rate limit must be positive"
    else if ratelimit.Requests (ratelimit.IPLimit (RateLimit c)) <? 0 then
      Some "IP rate limit requests cannot be negative"
    else if ratelimit.Requests (ratelimit.UserLimit (RateLimit c)) <? 0 then
      Some "user rate limit requests cannot be negative"
    else None
  else None.

Definition withStartTime (t : Z) (c : Config) : Config :=
  mkConfig
    (mkAppConfig (Name (App c)) (Version (App c)) (Port (App c)) (Mode (App c)) t
                 (UseDynamicRouting (App c)) (ReadTimeout (App c)) (WriteTimeout (App c))
                 (IdleTimeout (App c)))
    (Log c) (JWT c) (RateLimit c) (Monitor c) (CORS c) (Discovery c) (Security c).

(** [Load], from the value [yaml.Unmarshal] has filled on: defaults,
    validation, start time.  The answer is the configuration or the text
    of the error. *)
Definition Load (config : Config) (now : Z) : Config + string :=
  let config := setDefaults config in
  match validate config with
  | Some err => inr ("invalid config: " ++ err)
  | None => inl (withStartTime now config)
  end.

(** [Config.GetServiceConfig]: the zero value and [false] for a missing
    key. *)
Definition zeroServiceConfig : ServiceConfig := mkServiceConfig [] 0 "" ∅ 0.

Definition GetServiceConfig (c : Config) (serviceName : string) : ServiceConfig * bool :=
  match Services (Discovery c) !! serviceName with
  | Some config => (config, true)
  | None => (zeroServiceConfig, false)
  end.

(** [Config.IsServiceEnabled] *)
Definition IsServiceEnabled (c : Config) (serviceName : string) : bool :=
  bool_decide (is_Some (Services (Discovery c) !! serviceName)).

End config.

(* ===================================================================== *)
(** * [InMemoryDiscovery.Start]: the instances of the configuration *)
(* ===================================================================== *)

(** [Start] is a method of the registry; it stands here because it reads
    the services of the configuration, whose records come after the
    module [discovery]. *)
Module startup.
Import discovery discovery.monad.

(** The inner loop of [Start], over the hosts of one service.  [clock k]
    is the time of the registration number [k]; the answer is the number
    of the next one.  The error of [Register] is only logged. *)
Fixpoint registerHosts (clock : nat -> Z) (k : nat) (serviceName : string) (port : Z)
         (hosts : list string) : M nat :=
  match hosts with
  | [] => mret k
  | host :: hosts' =>
      serviceInstance ← alloc (bootstrapInstance (clock k) serviceName host port);
      Register (clock k) serviceInstance;;
      registerHosts clock (S k) serviceName port hosts'
  end.

(** The outer loop, over the services.  It ranges over a Go map; the
    services are taken in the order of [map_to_list]. *)
Fixpoint registerServices (clock : nat -> Z) (k : nat)
         (svcs : list (string * config.ServiceConfig)) : M nat :=
  match svcs with
  | [] => mret k
  | (serviceName, serviceConfig) :: svcs' =>
      k' ← registerHosts clock k serviceName (config.ServicePort serviceConfig)
                         (config.Hosts serviceConfig);
      registerServices clock k' svcs'
  end.

(** [InMemoryDiscovery.Start], up to the health-check goroutine it
    starts. *)
Definition Start (clock : nat -> Z) (cfg : config.Config) : M unit :=
  registerServices clock 0 (map_to_list (config.Services (config.Discovery cfg)));;
  mret tt.

(** The registry holds, under the id [Start] gives it, a healthy
    instance of the service at the host and port. *)
Definition booted (d : InMemoryDiscovery) (serviceName : string) (port : Z) (host : string)
           (p : loc) : Prop :=
  stored d serviceName (serviceName ++ "-" ++ host) = Some p
  /\ exists i, heap d !! p = Some i
               /\ ID i = serviceName ++ "-" ++ host
               /\ Name i = serviceName
               /\ Address i = host
               /\ Port i = port
               /\ Health i = HealthStatusHealthy.

End startup.

(* ===================================================================== *)
(** * Package [handler]: the HTTP handlers that use the registry and the proxy *)
(* ===================================================================== *)

Module handler.
Import GoStrings discovery.monad.

(** [Handler], without its configuration, logger and monitor; a nil
    [proxyService] or [rateLimitMiddleware] is [None].  The registry it
    points to is the state the methods run on. *)
Record Handler : Type := mkHandler {
  proxyService : option proxy.ProxyService;
  rateLimitMiddleware : option ratelimit.RateLimitMiddleware;
  maintenanceMode : bool
}.

(** [New], [NewWithProxy], [NewWithRateLimit] *)
Definition New : Handler := mkHandler None None false.

Definition NewWithProxy (proxyService : option proxy.ProxyService) : Handler :=
  mkHandler proxyService None false.

Definition NewWithRateLimit (proxyService : option proxy.ProxyService)
           (rateLimitMiddleware : option ratelimit.RateLimitMiddleware) : Handler :=
  mkHandler proxyService rateLimitMiddleware false.

(** [c.JSON(code, gin.H{"status": status, "message": message})] *)
Record Reply : Type := mkReply {
  code : Z;
  status : string;
  message : string
}.

(** [Handler.GetService]: the 404 reply, or 200 with the instances. *)
Definition GetService (serviceName : string) : discovery.M (Reply + list discovery.loc) :=
  r ← discovery.Discover serviceName;
  match r with
  | inr _ => mret (inl (mkReply 404 "error" "Service not found"))
  | inl instances => mret (inr instances)
  end.

(** [Handler.DeregisterService], for the value of the path parameter
    "id". *)
Definition DeregisterService (instanceID : string) : discovery.M Reply :=
  err ← discovery.Deregister instanceID;
  match err with
  | Some _ => mret (mkReply 500 "error" "Failed to deregister service")
  | None => mret (mkReply 200 "success" "Service deregistered successfully")
  end.

(** [len(path) >= n && path[:n] == prefix] *)
Definition startsWith (n : nat) (path prefix : string) : bool :=
  Nat.leb n (String.length path) && String.eqb (take n path) prefix.

(** The [switch] of [legacyProxyHandler]: the target service and the
    target path, [None] for the [default] case. *)
Definition legacyTarget (path : string) : option (string * string) :=
  if startsWith 6 path "/users" then Some ("user-service", drop 6 path)
  else if startsWith 9 path "/expenses" then Some ("expense-service", drop 9 path)
  else if startsWith 10 path "/approvals" then Some ("approval-service", drop 10 path)
  else if startsWith 8 path "/finance" then Some ("finance-service", drop 8 path)
  else if startsWith 6 path "/files" then Some ("file-service", drop 6 path)
  else if startsWith 3 path "/ai" then Some ("ai-service", drop 3 path)
  else if startsWith 14 path "/notifications" then Some ("notification-service", drop 14 path)
  else None.

(** [Handler.legacyProxyHandler]; [param] is [c.Param("path")] and
    [urlPath] is [c.Request.URL.Path].  Calling [ProxyRequest] through a
    nil [proxyService] is a nil pointer dereference.  Request headers and
    query parameters are left out, as in [ProxyRequest]. *)
Definition legacyProxyHandler (backend : proxy.Backend) (h : Handler)
           (method param urlPath : string)
  : discovery.M (proxy.GinResponse * list proxy.Event) :=
  let path := if String.eqb param "" then urlPath else param in
  match legacyTarget path with
  | None => mret (proxy.GinJSON proxy.StatusNotFound "Service not found", [])
  | Some (targetService, targetPath) =>
      let ev1 := [proxy.EvDiscover targetService] in
      let unavailable : discovery.M (proxy.GinResponse * list proxy.Event) :=
        mret (proxy.GinJSON proxy.StatusServiceUnavailable "Service not available", ev1) in
      r ← discovery.Discover targetService;
      match r with
      | inr _ => unavailable
      | inl [] => unavailable
      | inl (_ :: _) =>
          match proxyService h with
          | None => fun _ => discovery.Panics
          | Some p =>
              '(resp, failed, ev) ← proxy.ProxyRequest backend p method targetPath;
              if (failed : bool) then
                mret (proxy.GinJSON proxy.StatusBadGateway "Proxy request failed",
                      (ev1 ++ ev)%list)
              else
                mret (proxy.GinRelay (proxy.StatusCode resp) (Some (proxy.Body resp)),
                      (ev1 ++ ev)%list)
          end
      end
  end.

(** [Handler.ProxyHandler] *)
Definition ProxyHandler (backend : proxy.Backend) (h : Handler)
           (method param urlPath : string)
  : discovery.M (proxy.GinResponse * list proxy.Event) :=
  match proxyService h with
  | Some p => proxy.ProxyGinRequest backend p method urlPath
  | None => legacyProxyHandler backend h method param urlPath
  end.

(** [Handler.ToggleMaintenanceMode]: the message and the
    "maintenance_mode" member of the reply (status 200), and the handler
    after the call. *)
Definition ToggleMaintenanceMode (h : Handler) : (string * bool) * Handler :=
  let mode := negb (maintenanceMode h) in
  let ps :=
    match proxyService h with
    | Some p => Some (proxy.SetMaintenanceMode mode p)
    | None => None
    end in
  let status := if mode then "enabled" else "disabled" in
  (("Maintenance mode " ++ status, mode), mkHandler ps (rateLimitMiddleware h) mode).

(** [Handler.ResetRateLimit], for the value of the query parameter
    "key"; both replies have the status 200. *)
Definition ResetRateLimit (key : string) (h : Handler) : Reply * Handler :=
  match rateLimitMiddleware h with
  | Some m =>
      (mkReply 200 "success" "Rate limit reset successfully",
       mkHandler (proxyService h) (Some (ratelimit.ResetRateLimit key m)) (maintenanceMode h))
  | None => (mkReply 200 "error" "Rate limiting not enabled", h)
  end.

End handler.

(* ===================================================================== *)
(** * Configurations and instances used as examples *)
(* ===================================================================== *)

Module Scenario.

(** The instances of [TestServiceDiscovery_HealthStatus] and
    [TestServiceDiscovery_Watch]. *)
Definition healthyInstance : discovery.ServiceInstance :=
  discovery.mkServiceInstance "healthy-instance" "test-service" "localhost" 8080
                              [] [] discovery.HealthStatusHealthy 0.

Definition unhealthyInstance : discovery.ServiceInstance :=
  discovery.mkServiceInstance "unhealthy-instance" "test-service" "localhost" 8081
                              [] [] discovery.HealthStatusUnhealthy 0.

Definition testInstance : discovery.ServiceInstance :=
  discovery.mkServiceInstance "test-instance-1" "test-service" "localhost" 8080
                              [] [] discovery.HealthStatusHealthy 0.

(** An instance as a JSON body without a "health" member binds it. *)
Definition noHealthInstance : discovery.ServiceInstance :=
  discovery.mkServiceInstance "order-1" "order-svc" "10.0.0.1" 9000 [] [] "" 0.

(** The scenario of the specification: a route for orders, its service
    and one healthy instance at 10.0.0.1:9000. *)
Definition ordersParamRoute : proxy.RouteConfig :=
  proxy.mkRouteConfig "orders-by-id" "/orders/:id" "order-svc" ["GET"]
                      false [] 0 0 false [] false "".

Definition ordersRoute : proxy.RouteConfig :=
  proxy.mkRouteConfig "orders" "/orders" "order-svc" ["GET"]
                      false [] 0 0 false [] false "".

Definition orderService : proxy.ServiceConfig :=
  proxy.mkServiceConfig ["10.0.0.1"] 9000 "/health" 0 0 [].

Definition ordersParamParser : proxy.RouteParser :=
  proxy.mkRouteParser [ordersParamRoute] {[ "order-svc" := orderService ]} [].

Definition ordersParser : proxy.RouteParser :=
  proxy.mkRouteParser [ordersRoute] {[ "order-svc" := orderService ]} [].

(** The same route, with no entry for its service in the services map. *)
Definition ordersParserNoService : proxy.RouteParser :=
  proxy.mkRouteParser [ordersRoute] ∅ [].

Definition orderInstance : discovery.ServiceInstance :=
  discovery.bootstrapInstance 0 "order-svc" "10.0.0.1" 9000.

(** The registry after [orderInstance] has been registered. *)
Definition orderRegistry : discovery.InMemoryDiscovery :=
  discovery.registered 0 1%positive orderInstance
    (discovery.withHeap {[ 1%positive := orderInstance ]} discovery.New).

(** A backend that answers every request with 200 and the body "ok". *)
Definition okBackend : proxy.Backend :=
  fun _ _ => proxy.UpstreamResponse 200 (Some "ok").

(** The group "users" of the shipped [services.yaml]. *)
Definition usersRoute : proxy.RouteConfig :=
  proxy.mkRouteConfig "" "/:path" "user-service" ["GET"; "POST"; "PUT"; "DELETE"; "PATCH"]
                      true ["user"; "admin"; "manager"] 30000000000 0 false
                      [("Content-Type", "application/json")] true "".

Definition usersGroup : proxy.RouteGroup :=
  proxy.mkRouteGroup "users" "/api/v1/users" ["auth"; "cors"] [usersRoute].

Definition userService : proxy.ServiceConfig :=
  proxy.mkServiceConfig ["user-service"] 8081 "/health" 0 0 [].

Definition usersParser : proxy.RouteParser :=
  proxy.mkRouteParser [] {[ "user-service" := userService ]} [usersGroup].

(** A global route whose pattern is the prefix itself. *)
Definition usersPrefixRoute : proxy.RouteConfig :=
  proxy.mkRouteConfig "users" "/api/v1/users" "user-service" []
                      false [] 0 0 false [] true "".

Definition usersPrefixParser : proxy.RouteParser :=
  proxy.mkRouteParser [usersPrefixRoute] {[ "user-service" := userService ]} [].

(** The prefix as a group, with a wildcard route under it. *)
Definition usersWildcardRoute : proxy.RouteConfig :=
  proxy.mkRouteConfig "users-any" "/*" "user-service" []
                      false [] 0 0 false [] true "".

Definition usersWildcardParser : proxy.RouteParser :=
  proxy.mkRouteParser [] {[ "user-service" := userService ]}
    [proxy.mkRouteGroup "users" "/api/v1/users" [] [usersWildcardRoute]].

(** The order service with one instance that is not healthy. *)
Definition downOrderInstance : discovery.ServiceInstance :=
  discovery.mkServiceInstance "order-svc-10.0.0.1" "order-svc" "10.0.0.1" 9000 [] []
                              discovery.HealthStatusUnhealthy 0.

Definition downOrderRegistry : discovery.InMemoryDiscovery :=
  discovery.registered 0 1%positive downOrderInstance
    (discovery.withHeap {[ 1%positive := downOrderInstance ]} discovery.New).

(** A configuration file that sets [rate_limit.enabled] and nothing
    else. *)
Definition bareFile : config.Config :=
  config.mkConfig
    (config.mkAppConfig "" "" 0 "" 0 false 0 0 0)
    (config.mkLogConfig "" "" "")
    (config.mkJWTConfig "" 0 0)
    (ratelimit.mkRateLimitConfig true 0 (ratelimit.mkRateLimitRule 0 0)
       (ratelimit.mkRateLimitRule 0 0) ∅)
    (config.mkMonitorConfig false "" false)
    (config.mkCORSConfig false [] [] [] 0)
    (config.mkDiscoveryConfig "" 0 0 ∅)
    (config.mkSecurityConfig (config.mkXSSConfig false) (config.mkSQLInjectionConfig false)).

(** The registry that holds one healthy instance of the user service. *)
Definition userInstance : discovery.ServiceInstance :=
  discovery.bootstrapInstance 0 "user-service" "10.0.0.2" 8081.

Definition userRegistry : discovery.InMemoryDiscovery :=
  discovery.registered 0 1%positive userInstance
    (discovery.withHeap {[ 1%positive := userInstance ]} discovery.New).

End Scenario.

(* ===================================================================== *)
(** * Properties of the rate limiter *)
(* ===================================================================== *)

Section RateLimiterFacts.
Import ratelimit.

Variable key : string.

(** What one [Allow] does, read on the history of the key. *)
Lemma Allow_spec (now : Z) (r : MemoryRateLimiter) :
  let valid := filter (fun t => After t (now - window r) = true) (history key r) in
  let full := Z.of_nat (length valid) >=? limit r in
  fst (Allow now key r) = negb full
  /\ history key (snd (Allow now key r)) = (if full then valid else valid ++ [now])%list
  /\ limit (snd (Allow now key r)) = limit r
  /\ window (snd (Allow now key r)) = window r.
Proof.
  unfold Allow, history. cbn zeta.
  destruct (requests r !! key) as [times|] eqn:Hk;
    cbn [default limit window requests withRequests]; unfold id;
    rewrite ?filter_nil; cbn [length];
    destruct (_ >=? _); cbn; rewrite ?lookup_insert_eq; done.
Qed.

(** Other keys are not touched. *)
Lemma Allow_other_key (now : Z) (r : MemoryRateLimiter) (k' : string) :
  k' <> key -> requests (snd (Allow now key r)) !! k' = requests r !! k'.
Proof.
  intros Hne. unfold Allow. cbn zeta.
  destruct (_ >=? _); cbn; rewrite ?lookup_insert_ne; auto.
Qed.

Lemma filter_all_valid (now W t0 : Z) (h : list Z) :
  now < t0 + W ->
  Forall (fun t => t0 <= t) h ->
  filter (fun t => After t (now - W) = true) h = h.
Proof.
  intros Hnow Hh. induction Hh as [|t h Ht _ IH]; [reflexivity|].
  rewrite filter_cons_True; [by rewrite IH|].
  unfold After. apply Z.ltb_lt. lia.
Qed.

(** Inside one window nothing expires: the call is admitted exactly when
    fewer than [limit] timestamps are recorded. *)
Lemma Allow_in_window (now t0 : Z) (r : MemoryRateLimiter) :
  now < t0 + window r ->
  Forall (fun t => t0 <= t) (history key r) ->
  let full := Z.of_nat (length (history key r)) >=? limit r in
  fst (Allow now key r) = negb full
  /\ history key (snd (Allow now key r))
     = (if full then history key r else history key r ++ [now])%list.
Proof.
  intros Hnow Hh.
  destruct (Allow_spec now r) as (H1 & H2 & _).
  rewrite (filter_all_valid now (window r) t0) in H1, H2 by assumption.
  auto.
Qed.

(** A rejected call leaves the history as it was, as long as the history
    is not longer than the limit (which [Allow] maintains). *)
Lemma Allow_rejected_in_window (now t0 : Z) (r : MemoryRateLimiter) :
  now < t0 + window r ->
  Forall (fun t => t0 <= t) (history key r) ->
  fst (Allow now key r) = false ->
  history key (snd (Allow now key r)) = history key r.
Proof.
  intros Hnow Hh Hrej.
  destruct (Allow_in_window now t0 r Hnow Hh) as [H1 H2].
  rewrite H1 in Hrej. apply negb_false_iff in Hrej.
  by rewrite Hrej in H2.
Qed.

(** A run of calls inside one window: the first free slots are taken, the
    calls after them are rejected. *)
Lemma allowAll_in_window (t0 W N : Z) (ts : list Z) :
  forall r : MemoryRateLimiter,
    limit r = N -> window r = W ->
    Forall (fun t => t0 <= t < t0 + W) (history key r) ->
    Forall (fun t => t0 <= t < t0 + W) ts ->
    let free := (Z.to_nat N - length (history key r))%nat in
    fst (allowAll key ts r)
    = (replicate (min free (length ts)) true ++ replicate (length ts - free) false)%list
    /\ history key (snd (allowAll key ts r)) = (history key r ++ take free ts)%list
    /\ limit (snd (allowAll key ts r)) = N
    /\ window (snd (allowAll key ts r)) = W.
Proof.
  induction ts as [|t ts IH]; intros r HN HW Hh Hts free.
  - cbn. rewrite take_nil, Nat.min_0_r, !app_nil_r. done.
  - apply Forall_cons in Hts as [Ht Hts].
    cbn [allowAll].
    destruct (Allow t key r) as [ok r1] eqn:HA.
    assert (Hh0 : Forall (fun x => t0 <= x) (history key r)).
    { eapply Forall_impl; [exact Hh|]. cbn. intros; lia. }
    destruct (Allow_in_window t t0 r) as [H1 H2]; [lia|exact Hh0|].
    destruct (Allow_spec t r) as (_ & _ & HL & HWn).
    rewrite HA in H1, H2, HL, HWn. cbn [fst snd] in H1, H2, HL, HWn.
    assert (Hh1 : Forall (fun x => t0 <= x < t0 + W) (history key r1)).
    { rewrite H2. destruct (_ >=? _); [exact Hh|].
      apply Forall_app. split; [exact Hh|]. by apply Forall_singleton. }
    specialize (IH r1 (eq_trans HL HN) (eq_trans HWn HW) Hh1 Hts).
    destruct (allowAll key ts r1) as [oks r2] eqn:HR.
    cbn [fst snd] in IH |- *.
    destruct IH as (IH1 & IH2 & IH3 & IH4).
    rewrite IH1, IH2, H1, H2. subst free.
    destruct (Z.of_nat (length (history key r)) >=? limit r) eqn:Hfull.
    + apply Z.geb_le in Hfull.
      replace (Z.to_nat N - length (history key r))%nat with O by lia.
      cbn. rewrite Nat.sub_0_r. rewrite take_0, !app_nil_r. auto.
    + rewrite Z.geb_leb in Hfull. apply Z.leb_gt in Hfull.
      rewrite length_app. cbn [length].
      destruct (Z.to_nat N - length (history key r))%nat as [|k] eqn:Hk; [lia|].
      replace (Z.to_nat N - (length (history key r) + 1))%nat with k by lia.
      cbn. rewrite <- app_assoc. cbn. auto.
Qed.

End RateLimiterFacts.

(** C3.  A limiter with maximum [N >= 1] and window [W > 0], a key without
    history, and calls [t0 :: ts] that all lie in [[t0, t0 + W)]: exactly
    the first [N] calls are admitted and the later ones rejected; a
    rejected call of the run leaves the recorded timestamps of the key
    unchanged; and a call made more than [W] after the first admitted one
    is admitted again. *)
Theorem C3_sliding_window_boundary
        (N W : Z) (key : string) (r : ratelimit.MemoryRateLimiter) (t0 : Z) (ts : list Z) :
  1 <= N ->
  0 < W ->
  ratelimit.limit r = N ->
  ratelimit.window r = W ->
  ratelimit.requests r !! key = None ->
  Forall (fun t => t0 <= t < t0 + W) ts ->
  let calls := t0 :: ts in
  let answers := fst (ratelimit.allowAll key calls r) in
  let r' := snd (ratelimit.allowAll key calls r) in
  answers = (replicate (min (Z.to_nat N) (length calls)) true
             ++ replicate (length calls - Z.to_nat N) false)%list
  /\ ratelimit.history key r' = take (Z.to_nat N) calls
  /\ (forall (k : nat) (t : Z),
        calls !! k = Some t ->
        let rk := snd (ratelimit.allowAll key (take k calls) r) in
        fst (ratelimit.Allow t key rk) = false ->
        ratelimit.history key (snd (ratelimit.Allow t key rk)) = ratelimit.history key rk)
  /\ (forall now : Z, t0 + W < now -> fst (ratelimit.Allow now key r') = true).
Proof.
  intros HN HW0 Hl Hw Hnone Hts calls answers r'.
  assert (Hh : ratelimit.history key r = []).
  { unfold ratelimit.history. by rewrite Hnone. }
  assert (Hcalls : Forall (fun t => t0 <= t < t0 + W) calls).
  { apply Forall_cons. split; [lia|exact Hts]. }
  assert (Hrun : forall l, Forall (fun t => t0 <= t < t0 + W) l ->
            fst (ratelimit.allowAll key l r)
            = (replicate (min (Z.to_nat N) (length l)) true
               ++ replicate (length l - Z.to_nat N) false)%list
            /\ ratelimit.history key (snd (ratelimit.allowAll key l r)) = take (Z.to_nat N) l
            /\ ratelimit.limit (snd (ratelimit.allowAll key l r)) = N
            /\ ratelimit.window (snd (ratelimit.allowAll key l r)) = W).
  { intros l Hl'.
    destruct (allowAll_in_window key t0 W N l r Hl Hw) as (A1 & A2 & A3 & A4);
      [by rewrite Hh|exact Hl'|].
    rewrite Hh in A1, A2. cbn [length app] in A1, A2.
    rewrite Nat.sub_0_r in A1, A2. auto. }
  destruct (Hrun calls Hcalls) as (R1 & R2 & R3 & R4).
  split; [exact R1|]. split; [exact R2|]. split.
  - intros k t Hk rk Hrej.
    destruct (Hrun (take k calls)) as (_ & K2 & K3 & K4);
      [by apply Forall_take|].
    assert (Ht : t0 <= t < t0 + W).
    { eapply Forall_forall in Hcalls; [exact Hcalls|]. eapply list_elem_of_lookup_2, Hk. }
    apply (Allow_rejected_in_window key t t0 rk); [fold rk in K4; rewrite K4; lia| |exact Hrej].
    fold rk in K2. rewrite K2. eapply Forall_impl; [apply Forall_take, Forall_take, Hcalls|].
    cbn. intros; lia.
  - intros now Hnow.
    destruct (Allow_spec key now r') as (S1 & _).
    rewrite S1. fold r' in R2, R3, R4. rewrite R2, R3, R4.
    destruct (Z.to_nat N) as [|n] eqn:HNn; [lia|].
    cbn [take calls].
    rewrite filter_cons_False.
    2:{ unfold ratelimit.After. intros Hc. apply Z.ltb_lt in Hc. lia. }
    apply negb_true_iff. rewrite Z.geb_leb. apply Z.leb_gt.
    pose proof (length_filter (fun t => ratelimit.After t (now - W) = true) (take n ts)) as Lf.
    pose proof (length_take_le ts n).
    rewrite length_take in Lf. lia.
Qed.

Lemma C3_sliding_window_boundary_witness :
  fst (ratelimit.allowAll "ip:10.0.0.7" [0; 3; 5] (ratelimit.NewMemoryRateLimiter 2 10))
  = [true; true; false]
  /\ fst (ratelimit.Allow 11 "ip:10.0.0.7"
            (snd (ratelimit.allowAll "ip:10.0.0.7" [0; 3; 5]
                    (ratelimit.NewMemoryRateLimiter 2 10)))) = true.
Proof.
  pose proof (C3_sliding_window_boundary 2 10 "ip:10.0.0.7"
                (ratelimit.NewMemoryRateLimiter 2 10) 0 [3; 5]) as H.
  cbn zeta in H.
  destruct H as (H1 & _ & _ & H4);
    [lia | lia | reflexivity | reflexivity | reflexivity
     | repeat constructor; lia | ].
  split; [exact H1 | apply H4; lia].
Defined.

(** C10.  Whatever the key, [ResetRateLimit] deletes the window of the
    global scope (the key "global" of the global limiter) when a global
    limiter exists, also when the key names no limiter; the next global
    admission check then sees no recorded timestamp and, with a limit of at
    least one, admits. *)
Theorem C10_reset_clears_global_window
        (k : string) (m : ratelimit.RateLimitMiddleware) (g : ratelimit.MemoryRateLimiter) :
  ratelimit.globalLimiter m = Some g ->
  ratelimit.globalLimiter (ratelimit.ResetRateLimit k m) = Some (ratelimit.Reset "global" g)
  /\ ratelimit.requests (ratelimit.Reset "global" g) !! "global" = None
  /\ ratelimit.history "global" (ratelimit.Reset "global" g) = []
  /\ (forall now : Z,
        ratelimit.Enabled (ratelimit.config m) = true ->
        1 <= ratelimit.limit g ->
        fst (ratelimit.GlobalRateLimit now (ratelimit.ResetRateLimit k m)) = true).
Proof.
  intros Hg.
  assert (Hnone : ratelimit.requests (ratelimit.Reset "global" g) !! "global" = None).
  { unfold ratelimit.Reset. cbn. apply lookup_delete_eq. }
  assert (Hhist : ratelimit.history "global" (ratelimit.Reset "global" g) = []).
  { unfold ratelimit.history. by rewrite Hnone. }
  assert (Hgl : ratelimit.globalLimiter (ratelimit.ResetRateLimit k m)
                = Some (ratelimit.Reset "global" g)).
  { unfold ratelimit.ResetRateLimit. cbn. by rewrite Hg. }
  repeat split; try assumption.
  intros now Hen Hlim.
  unfold ratelimit.GlobalRateLimit.
  rewrite Hgl.
  replace (ratelimit.config (ratelimit.ResetRateLimit k m)) with (ratelimit.config m)
    by reflexivity.
  rewrite Hen. cbn [negb].
  destruct (Allow_spec "global" now (ratelimit.Reset "global" g)) as (S1 & _).
  destruct (ratelimit.Allow now "global" (ratelimit.Reset "global" g)) as [ok g'].
  cbn [fst] in *. rewrite S1, Hhist, filter_nil. cbn [length].
  apply negb_true_iff. rewrite Z.geb_leb. apply Z.leb_gt.
  change (ratelimit.limit (ratelimit.Reset "global" g)) with (ratelimit.limit g). lia.
Qed.

Lemma C10_reset_clears_global_window_witness :
  ratelimit.globalLimiter
    (ratelimit.ResetRateLimit "no-such-limiter"
       (snd (ratelimit.GlobalRateLimit 7
               (ratelimit.NewRateLimitMiddleware
                  (ratelimit.mkRateLimitConfig true 1
                     (ratelimit.mkRateLimitRule 0 0) (ratelimit.mkRateLimitRule 0 0) ∅)))))
  = Some (ratelimit.NewMemoryRateLimiter 1 ratelimit.Minute).
Proof.
  pose (m := snd (ratelimit.GlobalRateLimit 7
               (ratelimit.NewRateLimitMiddleware
                  (ratelimit.mkRateLimitConfig true 1
                     (ratelimit.mkRateLimitRule 0 0) (ratelimit.mkRateLimitRule 0 0) ∅)))).
  pose (g := ratelimit.mkMemoryRateLimiter {[ "global" := [7] ]} 1 ratelimit.Minute).
  destruct (C10_reset_clears_global_window "no-such-limiter" m g) as (H & _).
  - vm_compute. reflexivity.
  - fold m. rewrite H. vm_compute. reflexivity.
Defined.

(* ===================================================================== *)
(** * Properties of the service registry *)
(* ===================================================================== *)

Section RegistryFacts.
Import discovery discovery.monad.

Ltac unfold_M :=
  unfold mbind, M_bind, bind, mret, M_ret, ret, get, modify in *.

Lemma withMutex_same (d : InMemoryDiscovery) : withMutex (mutex d) d = d.
Proof. by destruct d. Qed.

(** [Discover] takes and releases the read lock: it returns, the registry
    is as before, and the answer is read off the instance map. *)
Lemma Discover_run (serviceName : string) (d : InMemoryDiscovery) (n : nat) :
  mutex d = Free n ->
  Discover serviceName d
  = Returns
      match services d !! serviceName with
      | None => inr (ErrServiceNotFound serviceName)
      | Some instances =>
          inl (filter (fun p => isHealthy (heap d) p = true) (snd <$> map_to_list instances))
      end
      d.
Proof.
  intros Hm. unfold Discover, RLock, RUnlock, get.
  unfold mbind, M_bind, bind, mret, M_ret, ret. rewrite Hm.
  cbn [services withMutex heap].
  destruct d as [h sv w c m]. cbn in Hm |- *. subst m.
  by destruct (sv !! serviceName).
Qed.

Lemma Discover_blocks (serviceName : string) (d : InMemoryDiscovery) :
  mutex d = Writer -> Discover serviceName d = Blocks.
Proof.
  intros Hm. unfold Discover, RLock, mbind, M_bind, bind. by rewrite Hm.
Qed.

(** Under the write lock, [notifyWatchers] returns only when nobody
    watches the service: otherwise it calls [Discover], which waits for
    the lock its caller holds. *)
Lemma notifyWatchers_locked (serviceName : string) (d : InMemoryDiscovery) :
  mutex d = Writer ->
  notifyWatchers serviceName d
  = match watchers d !! serviceName with
    | Some _ => Blocks
    | None => Returns tt d
    end.
Proof.
  intros Hm. unfold notifyWatchers, get, mbind, M_bind, bind, mret, M_ret, ret.
  destruct (watchers d !! serviceName); [|reflexivity].
  by rewrite Discover_blocks.
Qed.

Lemma Register_run (now : Z) (p : loc) (i : ServiceInstance) (d : InMemoryDiscovery) :
  mutex d = Free 0 ->
  heap d !! p = Some i ->
  Register now p d
  = match watchers d !! Name i with
    | Some _ => Blocks
    | None => Returns None (registered now p i d)
    end.
Proof.
  intros Hm Hp. unfold Register, Lock, Unlock, deref, modify.
  unfold mbind, M_bind, bind, mret, M_ret, ret. rewrite Hm.
  cbn [heap withMutex]. rewrite Hp.
  destruct d as [h sv w c m]. cbn in Hm, Hp |- *. subst m.
  destruct (sv !! Name i) as [insts|] eqn:Hs; cbn.
  - rewrite notifyWatchers_locked by reflexivity. cbn.
    destruct (w !! Name i); [reflexivity|].
    unfold registered. cbn. by rewrite Hs.
  - rewrite notifyWatchers_locked by reflexivity. cbn.
    destruct (w !! Name i); [reflexivity|].
    unfold registered. cbn. rewrite Hs, lookup_insert_eq, insert_insert_eq. reflexivity.
Qed.

Lemma findService_Some (serviceID : string) (svcs : gmap string (gmap string loc))
      (serviceName : string) (instances : gmap string loc) :
  findService serviceID svcs = Some (serviceName, instances) ->
  svcs !! serviceName = Some instances /\ is_Some (instances !! serviceID).
Proof.
  unfold findService. intros H. apply find_some in H as [Hin Hb].
  apply list_elem_of_In, elem_of_map_to_list in Hin.
  split; [exact Hin|]. cbn in Hb. by apply bool_decide_eq_true in Hb.
Qed.

Lemma Deregister_returns (serviceID : string) (d : InMemoryDiscovery)
      (r : option Error) (d' : InMemoryDiscovery) :
  mutex d = Free 0 ->
  Deregister serviceID d = Returns r d' ->
  mutex d' = Free 0 /\ sameNames d d' /\ heap d' = heap d.
Proof.
  intros Hm. unfold Deregister, Lock, Unlock. unfold_M. rewrite Hm.
  cbn [services withMutex].
  destruct (findService serviceID (services d)) as [[serviceName instances]|] eqn:Hf.
  - apply findService_Some in Hf as [Hs _].
    rewrite notifyWatchers_locked by reflexivity.
    cbn [watchers withServices withMutex].
    destruct (watchers d !! serviceName); [discriminate|].
    intros [= <- <-]. cbn. split; [reflexivity|]. split; [|reflexivity].
    intros s. cbn. destruct (decide (s = serviceName)) as [->|Hne].
    + rewrite lookup_insert_eq, Hs. split; eauto.
    + by rewrite lookup_insert_ne.
  - intros [= <- <-]. cbn. split; [reflexivity|]. split; [|reflexivity].
    intros s. reflexivity.
Qed.

Lemma Watch_returns (serviceName : string) (d : InMemoryDiscovery)
      (ch : chanId) (d' : InMemoryDiscovery) :
  mutex d = Free 0 ->
  Watch serviceName d = Returns ch d' ->
  mutex d' = Free 0 /\ services d' = services d /\ heap d' = heap d
  /\ is_Some (watchers d' !! serviceName).
Proof.
  intros Hm. unfold Watch, Lock, Unlock. unfold_M. rewrite Hm.
  intros [= <- <-]. cbn. rewrite lookup_insert_eq. eauto.
Qed.

Lemma watchFirst_returns (ch : chanId) (serviceName : string) (d d' : InMemoryDiscovery) :
  mutex d = Free 0 ->
  watchFirst ch serviceName d = Returns tt d' ->
  mutex d' = Free 0 /\ services d' = services d /\ heap d' = heap d.
Proof.
  intros Hm. unfold watchFirst. unfold_M.
  rewrite (Discover_run serviceName d 0 Hm).
  destruct (services d !! serviceName); [|by intros [= <-]].
  unfold send. destruct (chans d !! ch) as [[|? ?]|]; try discriminate.
  intros [= <-]. by cbn.
Qed.

Lemma checkInstanceHealth_returns (now : Z) (serviceName : string) (p : loc)
      (d d' : InMemoryDiscovery) :
  mutex d = Free 0 ->
  checkInstanceHealth now serviceName p d = Returns tt d' ->
  mutex d' = Free 0 /\ services d' = services d.
Proof.
  intros Hm. unfold checkInstanceHealth, Lock, Unlock, deref. unfold_M. rewrite Hm.
  cbn [heap withMutex].
  destruct (heap d !! p) as [i|]; [|discriminate].
  destruct (negb _).
  - rewrite notifyWatchers_locked by reflexivity.
    cbn [watchers withHeap withMutex].
    destruct (watchers d !! serviceName); [discriminate|].
    intros [= <-]. by cbn.
  - intros [= <-]. by cbn.
Qed.

Lemma alloc_returns (i : ServiceInstance) (d : InMemoryDiscovery) (p : loc)
      (d' : InMemoryDiscovery) :
  alloc i d = Returns p d' ->
  mutex d' = mutex d /\ services d' = services d /\ heap d !! p = None
  /\ heap d' = <[p := i]> (heap d) /\ watchers d' = watchers d.
Proof.
  unfold alloc. intros [= <- <-]. cbn. repeat split.
  apply not_elem_of_dom, is_fresh.
Qed.

(** Every call that returns gives the lock back, and only [Register] adds
    a service name. *)
Lemma reachable_names (d : InMemoryDiscovery) (names : list string) :
  reachable d names ->
  mutex d = Free 0 /\ forall s, is_Some (services d !! s) <-> s ∈ names.
Proof.
  induction 1 as
    [ | d names i p d' _ [IHm IHs] Ha
      | d names now p i r d' _ [IHm IHs] Hp Hr
      | d names serviceID r d' _ [IHm IHs] Hr
      | d names serviceName r d' _ [IHm IHs] Hr
      | d names serviceName ch d' _ [IHm IHs] Hr
      | d names ch serviceName d' _ [IHm IHs] Hr
      | d names now serviceName p d' _ [IHm IHs] Hr ].
  - split; [reflexivity|]. intros s. cbn. rewrite lookup_empty.
    split; [by intros [? ?]|]. by intros ?%elem_of_nil.
  - apply alloc_returns in Ha as (Hm & Hs & _). rewrite Hm, Hs. auto.
  - rewrite (Register_run now p i d IHm Hp) in Hr.
    destruct (watchers d !! Name i); [discriminate|].
    injection Hr as <- <-. split; [reflexivity|].
    intros s. cbn. rewrite elem_of_cons, <- IHs.
    destruct (decide (s = Name i)) as [->|Hne].
    + rewrite lookup_insert_eq. split; eauto.
    + rewrite lookup_insert_ne by congruence. split; [auto|]. by intros [?|?].
  - apply (Deregister_returns _ _ _ _ IHm) in Hr as (Hm & Hs & _).
    split; [exact Hm|]. intros s. by rewrite (Hs s).
  - rewrite (Discover_run serviceName d 0 IHm) in Hr. injection Hr as _ <-. auto.
  - apply (Watch_returns _ _ _ _ IHm) in Hr as (Hm & Hs & _). rewrite Hs. auto.
  - apply (watchFirst_returns _ _ _ _ IHm) in Hr as (Hm & Hs & _). rewrite Hs. auto.
  - apply (checkInstanceHealth_returns _ _ _ _ _ IHm) in Hr as (Hm & Hs). rewrite Hs. auto.
Qed.

End RegistryFacts.

Section DiscoverFacts.
Import discovery.

Lemma isHealthy_true (h : gmap loc ServiceInstance) (p : loc) :
  isHealthy h p = true <->
  exists i, h !! p = Some i /\ Health i = HealthStatusHealthy.
Proof.
  unfold isHealthy. destruct (h !! p) as [i|].
  - rewrite String.eqb_eq. split; [eauto|]. by intros (? & [= <-] & ?).
  - split; [discriminate|]. by intros (? & ? & ?).
Qed.

(** The answer of [Discover] for a known service: the pointers stored
    under the service whose instance is healthy. *)
Lemma elem_of_healthy (h : gmap loc ServiceInstance) (instances : gmap string loc) (p : loc) :
  p ∈ filter (fun p => isHealthy h p = true) (snd <$> map_to_list instances) <->
  exists serviceID i,
    instances !! serviceID = Some p /\ h !! p = Some i /\ Health i = HealthStatusHealthy.
Proof.
  rewrite list_elem_of_filter, list_elem_of_fmap, isHealthy_true. split.
  - intros [(i & Hi & Hh) ([serviceID q] & -> & Hin)].
    apply elem_of_map_to_list in Hin. eauto.
  - intros (serviceID & i & Hs & Hi & Hh). split; [eauto|].
    exists (serviceID, p). split; [reflexivity|]. by apply elem_of_map_to_list.
Qed.

End DiscoverFacts.

(** C4.  On a registry reached from [New]: [Discover] fails, with the
    not-found error, exactly for the names no registration has used;
    for a registered name it returns exactly the stored instances whose
    health is [healthy], and the empty list (not an error) when none is. *)
Theorem C4_discover_returns_healthy_registered
        (d : discovery.InMemoryDiscovery) (names : list string) (s : string) :
  discovery.reachable d names ->
  ((exists e, discovery.Discover s d = discovery.Returns (inr e) d) <-> s ∉ names)
  /\ (s ∉ names ->
      discovery.Discover s d = discovery.Returns (inr (discovery.ErrServiceNotFound s)) d)
  /\ (s ∈ names ->
      exists ps : list discovery.loc,
        discovery.Discover s d = discovery.Returns (inl ps) d
        /\ (forall p, p ∈ ps <->
              exists serviceID i,
                discovery.stored d s serviceID = Some p
                /\ discovery.heap d !! p = Some i
                /\ discovery.Health i = discovery.HealthStatusHealthy)
        /\ ((forall serviceID p i,
               discovery.stored d s serviceID = Some p ->
               discovery.heap d !! p = Some i ->
               discovery.Health i <> discovery.HealthStatusHealthy) ->
            ps = [])).
Proof.
  intros Hreach. apply reachable_names in Hreach as [Hm Hs].
  rewrite (Discover_run s d 0 Hm). specialize (Hs s).
  unfold discovery.stored.
  destruct (discovery.services d !! s) as [instances|] eqn:Hl.
  - assert (Hin : s ∈ names) by (apply Hs; eauto).
    split; [|split].
    + split; [by intros [e [=]]|]. intros Hn. by destruct Hn.
    + intros Hn. by destruct Hn.
    + intros _. eexists. split; [reflexivity|]. split.
      * intros p. apply elem_of_healthy.
      * intros Hnone.
        destruct (filter _ _) as [|p ps] eqn:Hf; [reflexivity|].
        assert (Hp : p ∈ p :: ps) by apply list_elem_of_here.
        rewrite <- Hf in Hp. apply elem_of_healthy in Hp as (sid & i & H1 & H2 & H3).
        by destruct (Hnone sid p i H1 H2).
  - assert (Hnin : s ∉ names).
    { intros Hin. apply Hs in Hin as [? ?]. discriminate. }
    split; [|split].
    + split; [auto|]. intros _. eauto.
    + reflexivity.
    + intros Hin. by destruct Hnin.
Qed.

Import discovery.monad.

Lemma C4_discover_returns_healthy_registered_witness :
  exists d : discovery.InMemoryDiscovery,
    discovery.reachable d ["test-service"; "test-service"]
    /\ (exists ps, discovery.Discover "test-service" d = discovery.Returns (inl ps) d
                   /\ length ps = 1%nat)
    /\ discovery.Discover "order-svc" d
       = discovery.Returns (inr (discovery.ErrServiceNotFound "order-svc")) d.
Proof.
  pose (run :=
    (p1 ← discovery.alloc Scenario.healthyInstance;
     discovery.Register 10 p1;;
     p2 ← discovery.alloc Scenario.unhealthyInstance;
     discovery.Register 11 p2) discovery.New).
  pose (d := match run with discovery.Returns _ d => d | _ => discovery.New end).
  assert (Hreach : discovery.reachable d ["test-service"; "test-service"]).
  { eapply (discovery.reach_Register _ _ 11 2%positive Scenario.unhealthyInstance None);
      [ eapply (discovery.reach_alloc _ _ Scenario.unhealthyInstance 2%positive);
        [ eapply (discovery.reach_Register _ _ 10 1%positive Scenario.healthyInstance None);
          [ eapply (discovery.reach_alloc _ _ Scenario.healthyInstance 1%positive);
            [ apply discovery.reach_New | vm_compute; reflexivity ]
          | vm_compute; reflexivity | vm_compute; reflexivity ]
        | vm_compute; reflexivity ]
      | vm_compute; reflexivity | vm_compute; reflexivity ]. }
  exists d. split; [exact Hreach|].
  destruct (C4_discover_returns_healthy_registered d _ "test-service" Hreach) as (_ & _ & H3).
  destruct (C4_discover_returns_healthy_registered d _ "order-svc" Hreach) as (_ & H2 & _).
  split.
  - destruct H3 as (ps & Hps & _); [set_solver|].
    exists ps. split; [exact Hps|].
    assert (Hc : discovery.Discover "test-service" d
                 = discovery.Returns (inl [1%positive]) d) by (vm_compute; reflexivity).
    rewrite Hc in Hps. by injection Hps as <-.
  - apply H2. intros Hin. repeat (apply elem_of_cons in Hin as [Hin|Hin]; [discriminate|]).
    by apply elem_of_nil in Hin.
Defined.

(** The claim of C7 fails: an instance submitted to the administrative
    register operation with the health value [unhealthy] is stored, and the
    stored instance is unhealthy. *)
Lemma C7_counterexample_unhealthy_stays_unhealthy :
  exists (d' : discovery.InMemoryDiscovery) (p : discovery.loc) (i : discovery.ServiceInstance),
    discovery.RegisterService 100 (Some Scenario.unhealthyInstance) discovery.New
    = discovery.Returns 200 d'
    /\ discovery.stored d' "test-service" "unhealthy-instance" = Some p
    /\ discovery.heap d' !! p = Some i
    /\ discovery.Health i = discovery.HealthStatusUnhealthy
    /\ discovery.Health i <> discovery.HealthStatusHealthy.
Proof.
  eexists _, 1%positive, _.
  split; [vm_compute; reflexivity|].
  split; [vm_compute; reflexivity|].
  split; [vm_compute; reflexivity|].
  split; [reflexivity|discriminate].
Qed.

(** C7, amended.  [Register] does not touch the health of the instance:
    when it returns, the registry holds the submitted pointer under the
    instance's service name and id, and the instance behind it has the
    health value it was submitted with (only its last-seen time is new).
    It returns whenever nobody watches the service.  The same holds for an
    instance submitted through [Handler.RegisterService]; the instances the
    configuration bootstrap builds are submitted as healthy. *)
Theorem C7_register_keeps_submitted_health
        (now : Z) (p : discovery.loc) (i : discovery.ServiceInstance)
        (d : discovery.InMemoryDiscovery) :
  discovery.mutex d = discovery.Free 0 ->
  discovery.heap d !! p = Some i ->
  (forall r d',
      discovery.Register now p d = discovery.Returns r d' ->
      r = None
      /\ discovery.stored d' (discovery.Name i) (discovery.ID i) = Some p
      /\ discovery.heap d' !! p = Some (discovery.setLastSeen now i)
      /\ discovery.Health (discovery.setLastSeen now i) = discovery.Health i)
  /\ (discovery.watchers d !! discovery.Name i = None ->
      exists d', discovery.Register now p d = discovery.Returns None d')
  /\ (forall body st d',
        discovery.RegisterService now (Some body) d = discovery.Returns st d' ->
        st = 200
        /\ exists q,
            discovery.stored d' (discovery.Name body) (discovery.ID body) = Some q
            /\ discovery.Health <$> discovery.heap d' !! q = Some (discovery.Health body))
  /\ (forall serviceName host port,
        discovery.Health (discovery.bootstrapInstance now serviceName host port)
        = discovery.HealthStatusHealthy).
Proof.
  intros Hm Hp.
  assert (Hreg : forall q j dd r d',
             discovery.mutex dd = discovery.Free 0 ->
             discovery.heap dd !! q = Some j ->
             discovery.Register now q dd = discovery.Returns r d' ->
             r = None
             /\ discovery.stored d' (discovery.Name j) (discovery.ID j) = Some q
             /\ discovery.heap d' !! q = Some (discovery.setLastSeen now j)).
  { intros q j dd r d' Hmm Hq Hr.
    rewrite (Register_run now q j dd Hmm Hq) in Hr.
    destruct (discovery.watchers dd !! discovery.Name j); [discriminate|].
    injection Hr as <- <-. split; [reflexivity|].
    unfold discovery.stored, discovery.registered. cbn.
    by rewrite !lookup_insert_eq. }
  split; [|split; [|split]].
  - intros r d' Hr. destruct (Hreg p i d r d' Hm Hp Hr) as (? & ? & ?). auto.
  - intros Hw. rewrite (Register_run now p i d Hm Hp), Hw. eauto.
  - intros body st d'. unfold discovery.RegisterService.
    unfold mbind, discovery.monad.M_bind, discovery.bind.
    destruct (discovery.alloc body d) as [q d1| |] eqn:Ha; try discriminate.
    apply alloc_returns in Ha as (Hm1 & _ & _ & Hh1 & _).
    destruct (discovery.Register now q d1) as [r d2| |] eqn:Hr; try discriminate.
    destruct (Hreg q body d1 r d2) as (-> & Hst & Hhp); [congruence| |exact Hr|].
    { rewrite Hh1. apply lookup_insert_eq. }
    intros [= <- <-]. split; [reflexivity|]. exists q. split; [exact Hst|].
    by rewrite Hhp.
  - reflexivity.
Qed.

Lemma C7_register_keeps_submitted_health_witness :
  exists d' : discovery.InMemoryDiscovery,
    discovery.Register 100 1%positive
      (discovery.withHeap {[ 1%positive := Scenario.noHealthInstance ]} discovery.New)
    = discovery.Returns None d'
    /\ discovery.Health <$> discovery.heap d' !! 1%positive = Some "".
Proof.
  destruct (C7_register_keeps_submitted_health 100 1%positive Scenario.noHealthInstance
              (discovery.withHeap {[ 1%positive := Scenario.noHealthInstance ]} discovery.New))
    as (H1 & H2 & _); [reflexivity | vm_compute; reflexivity |].
  destruct H2 as [d' Hd']; [vm_compute; reflexivity|].
  exists d'. split; [exact Hd'|].
  destruct (H1 _ _ Hd') as (_ & _ & Hh & _).
  exact (f_equal (fmap discovery.Health) Hh).
Defined.

(** C8.  [Register] calls [notifyWatchers] while it holds the write lock,
    and [notifyWatchers] calls [Discover], which asks for the read lock of
    the same mutex: as soon as somebody watches the service, the
    registration never returns. *)
Theorem C8_register_blocks_when_service_is_watched
        (now : Z) (p : discovery.loc) (i : discovery.ServiceInstance)
        (d : discovery.InMemoryDiscovery) (ws : list discovery.chanId) :
  discovery.mutex d = discovery.Free 0 ->
  discovery.heap d !! p = Some i ->
  discovery.watchers d !! discovery.Name i = Some ws ->
  discovery.Register now p d = discovery.Blocks.
Proof.
  intros Hm Hp Hw. by rewrite (Register_run now p i d Hm Hp), Hw.
Qed.

(** The run of [TestServiceDiscovery_Watch]: [Watch], then [Register]. *)
Lemma C8_register_blocks_when_service_is_watched_witness :
  (discovery.Watch "test-service";;
   p ← discovery.alloc Scenario.testInstance;
   discovery.Register 100 p) discovery.New
  = discovery.Blocks.
Proof.
  unfold mbind, discovery.monad.M_bind, discovery.bind.
  destruct (discovery.Watch "test-service" discovery.New) as [ch d1| |] eqn:HW;
    [|reflexivity|discriminate].
  destruct (discovery.alloc Scenario.testInstance d1) as [p d2| |] eqn:HA;
    [|reflexivity|discriminate].
  apply (Watch_returns "test-service" discovery.New ch d1 eq_refl) in HW
    as (Hm1 & _ & _ & [ws Hws]).
  apply alloc_returns in HA as (Hm2 & _ & _ & Hh2 & Hw2).
  apply (C8_register_blocks_when_service_is_watched 100 p Scenario.testInstance d2 ws).
  - congruence.
  - rewrite Hh2. apply lookup_insert_eq.
  - rewrite Hw2. exact Hws.
Defined.

(* ===================================================================== *)
(** * Properties of the route matcher and of the forwarder *)
(* ===================================================================== *)

Lemma find_app_first {A : Type} (f : A -> bool) (l1 l2 : list A) :
  List.find f (l1 ++ l2)
  = match List.find f l1 with
    | Some x => Some x
    | None => List.find f l2
    end.
Proof.
  induction l1 as [|a l1 IH]; [reflexivity|].
  cbn. by destruct (f a).
Qed.

Section MatchRouteFacts.
Import proxy.

Variable svcs : gmap string ServiceConfig.
Variables method path : string.

Lemma scanRoutes_find (rs : list RouteConfig) :
  scanRoutes svcs method path rs
  = resolve svcs <$> List.find (routeMatches method path) rs.
Proof.
  induction rs as [|route rs IH]; [reflexivity|].
  cbn. destruct (routeMatches method path route); [|exact IH].
  unfold resolve. cbn. by destruct (svcs !! Service route).
Qed.

Lemma scanGroups_find (gs : list RouteGroup) :
  scanGroups svcs method path gs
  = resolve svcs <$> List.find (routeMatches method path)
      (flat_map (fun g => if GoStrings.HasPrefix path (Prefix g) then Routes g else []) gs).
Proof.
  induction gs as [|g gs IH]; [reflexivity|].
  cbn. destruct (GoStrings.HasPrefix path (Prefix g)); [|exact IH].
  rewrite scanRoutes_find, IH, find_app_first.
  by destruct (List.find (routeMatches method path) (Routes g)).
Qed.

End MatchRouteFacts.

Section ForwarderFacts.
Import proxy.

(** [MatchRoute] stops at the first candidate route that passes the
    pattern and method test, and answers for that route. *)
Lemma MatchRoute_firstMatch (p : RouteParser) (method path : string) :
  MatchRoute p method path
  = match firstMatch p method path with
    | Some route => resolve (services p) route
    | None => inr (NoRouteFound method path)
    end.
Proof.
  unfold MatchRoute, firstMatch, candidates.
  rewrite scanGroups_find, scanRoutes_find, find_app_first.
  by destruct (List.find _ (flat_map _ _)); [|destruct (List.find _ _)].
Qed.

Lemma MatchRoute_inl (p : RouteParser) (method path : string)
      (route : RouteConfig) (service : ServiceConfig) :
  MatchRoute p method path = inl (route, service) ->
  firstMatch p method path = Some route
  /\ services p !! Service route = Some service
  /\ matchRoutePattern (Pattern route) path = true
  /\ matchMethod (Methods route) method = true.
Proof.
  rewrite MatchRoute_firstMatch.
  destruct (firstMatch p method path) as [r|] eqn:Hf; [|discriminate].
  unfold resolve. destruct (services p !! Service r) as [sv|] eqn:Hs; [|discriminate].
  intros [= <- <-]. split; [reflexivity|]. split; [exact Hs|].
  apply find_some in Hf as [_ Hm]. by apply andb_true_iff in Hm.
Qed.

(** When is no route answered? *)
Lemma MatchRoute_inr (p : RouteParser) (method path : string) :
  (exists e, MatchRoute p method path = inr e) <->
  firstMatch p method path = None
  \/ exists route, firstMatch p method path = Some route
                   /\ services p !! Service route = None.
Proof.
  rewrite MatchRoute_firstMatch.
  destruct (firstMatch p method path) as [r|]; unfold resolve.
  - destruct (services p !! Service r) as [sv|] eqn:Hs.
    + split; [by intros [e [=]]|].
      intros [[=]|(r' & [= <-] & Hn)]. congruence.
    + split; [eauto|]. intros _. eauto.
  - split; [auto|]. intros _. eauto.
Qed.

(** In maintenance mode [ProxyGinRequest] answers at once. *)
Lemma ProxyGinRequest_maintenance (backend : Backend) (p : ProxyService)
      (method path : string) (d : discovery.InMemoryDiscovery) :
  maintenanceMode p = true ->
  ProxyGinRequest backend p method path d
  = discovery.Returns
      (GinJSON StatusServiceUnavailable "Service is under maintenance", []) d.
Proof.
  intros Hm. unfold ProxyGinRequest, isMaintenanceMode. by rewrite Hm.
Qed.

(** A failed [MatchRoute] is answered with 404, whatever the failure. *)
Lemma ProxyGinRequest_no_route (backend : Backend) (p : ProxyService)
      (method path : string) (d : discovery.InMemoryDiscovery) (e : MatchError) :
  maintenanceMode p = false ->
  MatchRoute (routeParser p) method path = inr e ->
  ProxyGinRequest backend p method path d
  = discovery.Returns (GinJSON StatusNotFound "Route not found",
                       [EvMatchRoute method path]) d.
Proof.
  intros Hm He. unfold ProxyGinRequest, isMaintenanceMode. by rewrite Hm, He.
Qed.

(** After a successful [MatchRoute] no answer is a 404 of the gateway. *)
Lemma ProxyGinRequest_matched (backend : Backend) (p : ProxyService)
      (method path : string) (d : discovery.InMemoryDiscovery)
      (route : RouteConfig) (service : ServiceConfig)
      (resp : GinResponse) (ev : list Event) (d' : discovery.InMemoryDiscovery) :
  maintenanceMode p = false ->
  MatchRoute (routeParser p) method path = inl (route, service) ->
  ProxyGinRequest backend p method path d = discovery.Returns (resp, ev) d' ->
  (resp = GinJSON StatusServiceUnavailable "Service not available"
   \/ resp = GinJSON StatusBadGateway "Bad Gateway"
   \/ exists status body, resp = GinRelay status body).
Proof.
  intros Hm Hr. unfold ProxyGinRequest, isMaintenanceMode. rewrite Hm, Hr.
  unfold mbind, discovery.monad.M_bind, discovery.bind, mret, discovery.monad.M_ret,
    discovery.ret.
  destruct (discovery.Discover (Service route) d) as [[[|first rest]|err] d1| |];
    try discriminate; try (intros [= <- <- <-]; auto).
  destruct (discovery.deref first d1) as [inst d2| |]; try discriminate.
  destruct (backend method _) as [|status body]; intros [= <- <- <-]; eauto.
Qed.

End ForwarderFacts.

(** C5.  In maintenance mode [ProxyGinRequest] answers 503 before anything
    else happens: no route is matched, no backend is contacted.
    [ProxyRequest], the other forwarding method of [ProxyService], does not
    read the flag: with the flag set it matches the route, asks the registry
    and sends the request to the backend. *)
Theorem C5_ProxyRequest_ignores_maintenance_mode :
  (forall (backend : proxy.Backend) (p : proxy.ProxyService) (method path : string)
          (d : discovery.InMemoryDiscovery),
      proxy.ProxyGinRequest backend (proxy.SetMaintenanceMode true p) method path d
      = discovery.Returns
          (proxy.GinJSON 503 "Service is under maintenance", []) d)
  /\ proxy.GetMaintenanceMode
       (proxy.SetMaintenanceMode true (proxy.NewProxyService Scenario.ordersParser)) = true
  /\ proxy.ProxyRequest Scenario.okBackend
       (proxy.SetMaintenanceMode true (proxy.NewProxyService Scenario.ordersParser))
       "GET" "/orders" Scenario.orderRegistry
     = discovery.Returns
         (proxy.mkProxyResponse 200 "ok" None, false,
          [proxy.EvMatchRoute "GET" "/orders";
           proxy.EvDiscover "order-svc";
           proxy.EvUpstream "GET" (proxy.mkURL "http" "10.0.0.1:9000" "/orders")])
         Scenario.orderRegistry.
Proof.
  split; [|split].
  - intros. by apply ProxyGinRequest_maintenance.
  - reflexivity.
  - vm_compute. reflexivity.
Qed.

(** The claim of C9 fails: the route [/orders] matches [GET /orders], its
    service is missing from the services map, and the answer is the 404 of
    "Route not found". *)
Lemma C9_counterexample_missing_service_is_404 :
  proxy.firstMatch Scenario.ordersParserNoService "GET" "/orders" = Some Scenario.ordersRoute
  /\ proxy.routeMatches "GET" "/orders" Scenario.ordersRoute = true
  /\ proxy.MatchRoute Scenario.ordersParserNoService "GET" "/orders"
     = inr (proxy.ServiceNotFound "order-svc")
  /\ proxy.ProxyGinRequest Scenario.okBackend
       (proxy.NewProxyService Scenario.ordersParserNoService) "GET" "/orders"
       Scenario.orderRegistry
     = discovery.Returns
         (proxy.GinJSON proxy.StatusNotFound "Route not found",
          [proxy.EvMatchRoute "GET" "/orders"])
         Scenario.orderRegistry.
Proof.
  repeat split; vm_compute; reflexivity.
Qed.

(** C9, amended.  With maintenance mode off, the gateway answers 404
    exactly when [MatchRoute] fails, that is when no candidate route
    passes the pattern and method test or when the first one that passes
    names a service missing from the services map; once [MatchRoute] has
    succeeded, what the gateway answers on its own is 503 or 502, never
    404. *)
Theorem C9_not_found_iff_MatchRoute_fails
        (backend : proxy.Backend) (p : proxy.ProxyService) (method path : string)
        (d : discovery.InMemoryDiscovery) :
  proxy.maintenanceMode p = false ->
  ((exists message ev d',
       proxy.ProxyGinRequest backend p method path d
       = discovery.Returns (proxy.GinJSON proxy.StatusNotFound message, ev) d')
   <-> (proxy.firstMatch (proxy.routeParser p) method path = None
        \/ exists route,
            proxy.firstMatch (proxy.routeParser p) method path = Some route
            /\ proxy.services (proxy.routeParser p) !! proxy.Service route = None))
  /\ (forall route service resp ev d',
        proxy.MatchRoute (proxy.routeParser p) method path = inl (route, service) ->
        proxy.ProxyGinRequest backend p method path d = discovery.Returns (resp, ev) d' ->
        resp = proxy.GinJSON proxy.StatusServiceUnavailable "Service not available"
        \/ resp = proxy.GinJSON proxy.StatusBadGateway "Bad Gateway"
        \/ exists status body, resp = proxy.GinRelay status body).
Proof.
  intros Hm. split.
  - rewrite <- MatchRoute_inr. split.
    + intros (message & ev & d' & Hr).
      destruct (proxy.MatchRoute (proxy.routeParser p) method path) as [[route service]|e] eqn:HM;
        [|eauto].
      destruct (ProxyGinRequest_matched backend p method path d route service _ _ _ Hm HM Hr)
        as [H|[H|(? & ? & H)]]; discriminate.
    + intros [e He]. rewrite (ProxyGinRequest_no_route backend p method path d e Hm He). eauto.
  - intros route service resp ev d' HM Hr.
    exact (ProxyGinRequest_matched backend p method path d route service _ _ _ Hm HM Hr).
Qed.

Lemma C9_not_found_iff_MatchRoute_fails_witness :
  exists message ev d',
    proxy.ProxyGinRequest Scenario.okBackend
      (proxy.NewProxyService Scenario.ordersParserNoService) "GET" "/orders"
      Scenario.orderRegistry
    = discovery.Returns (proxy.GinJSON proxy.StatusNotFound message, ev) d'.
Proof.
  apply (C9_not_found_iff_MatchRoute_fails Scenario.okBackend
           (proxy.NewProxyService Scenario.ordersParserNoService) "GET" "/orders"
           Scenario.orderRegistry eq_refl).
  right. exists Scenario.ordersRoute. split; vm_compute; reflexivity.
Defined.

(* ===================================================================== *)
(** * Properties of the string helpers and of the pattern translation *)
(* ===================================================================== *)

Section StringFacts.
Import GoStrings.

Lemma append_nil_l (s : string) : "" ++ s = s.
Proof. reflexivity. Qed.

Lemma append_cons (c : ascii) (a b : string) : String c a ++ b = String c (a ++ b).
Proof. reflexivity. Qed.

Lemma append_nil_r (s : string) : s ++ "" = s.
Proof. induction s as [|c s IH]; [reflexivity|]. by rewrite append_cons, IH. Qed.

Lemma append_assoc (a b c : string) : (a ++ b) ++ c = a ++ (b ++ c).
Proof. induction a as [|x a IH]; [reflexivity|]. by rewrite !append_cons, IH. Qed.

Lemma length_append (a b : string) :
  String.length (a ++ b) = (String.length a + String.length b)%nat.
Proof.
  induction a as [|x a IH]; [reflexivity|]. rewrite append_cons. cbn. by rewrite IH.
Qed.

Lemma append_inv_tail (a b r : string) : a ++ r = b ++ r -> a = b.
Proof.
  revert b. induction a as [|x a IH]; intros [|y b] H.
  - reflexivity.
  - apply (f_equal String.length) in H. rewrite append_nil_l, length_append in H.
    cbn in H. lia.
  - apply (f_equal String.length) in H. rewrite append_nil_l, length_append in H.
    cbn in H. lia.
  - rewrite !append_cons in H. injection H as -> H. by rewrite (IH b H).
Qed.

Lemma HasPrefix_split (s prefix : string) :
  HasPrefix s prefix = true -> s = prefix ++ drop (String.length prefix) s.
Proof.
  revert s. induction prefix as [|p prefix IH]; intros s H; [reflexivity|].
  destruct s as [|c s]; [discriminate|]. cbn in H.
  apply andb_true_iff in H as [Hc H]. apply Ascii.eqb_eq in Hc as ->.
  rewrite append_cons. cbn. by rewrite <- (IH s H).
Qed.

Lemma HasPrefix_append (prefix rest : string) : HasPrefix (prefix ++ rest) prefix = true.
Proof.
  induction prefix as [|p prefix IH]; [reflexivity|].
  rewrite append_cons. cbn. by rewrite Ascii.eqb_refl, IH.
Qed.

(** [TrimPrefix] leaves the text as it is, or removes the prefix. *)
Lemma TrimPrefix_cases (s prefix : string) :
  TrimPrefix s prefix = s \/ s = prefix ++ TrimPrefix s prefix.
Proof.
  unfold TrimPrefix. destruct (HasPrefix s prefix) eqn:H; [|by left].
  right. by apply HasPrefix_split.
Qed.

(** [HasSuffix] holds of the texts that end with the suffix. *)
Lemma HasSuffix_split (s suffix : string) :
  HasSuffix s suffix = true <-> exists pre, s = pre ++ suffix.
Proof.
  induction s as [|c s IH]; cbn [HasSuffix].
  - rewrite orb_false_r, String.eqb_eq. split.
    + intros <-. by exists "".
    + intros [[|? ?] H]; [exact H|discriminate].
  - rewrite orb_true_iff, String.eqb_eq, IH. split.
    + intros [<-|[pre ->]]; [by exists ""|by exists (String c pre)].
    + intros [[|x pre] H]; [by left|].
      rewrite append_cons in H. injection H as -> ->. right. by exists pre.
Qed.

End StringFacts.

Section LiteralPatterns.
Import GoStrings GoRegexp proxy.

(** A byte that is not special differs from every special byte. *)
Ltac differs H :=
  apply Ascii.eqb_neq; intros ->; vm_compute in H; discriminate H.

Lemma literal_cons (c : ascii) (s : string) :
  literal (String c s) = true <-> special c = false /\ literal s = true.
Proof. cbn [literal]. by rewrite andb_true_iff, negb_true_iff. Qed.

Lemma literal_app (a b : string) : literal (a ++ b) = literal a && literal b.
Proof.
  induction a as [|c a IH]; [reflexivity|].
  rewrite append_cons. cbn [literal]. by rewrite IH, andb_assoc.
Qed.

Lemma QuoteMeta_literal (p : string) : literal p = true -> QuoteMeta p = p.
Proof.
  induction p as [|c p IH]; [reflexivity|].
  intros [Hc Hp]%literal_cons. cbn [QuoteMeta]. by rewrite Hc, IH.
Qed.

Lemma replaceFrom_literal (p : string) :
  literal p = true -> replaceFrom 0 p "\*" ".*" = p.
Proof.
  induction p as [|c p IH]; [reflexivity|].
  intros [Hc Hp]%literal_cons. cbn [replaceFrom HasPrefix].
  assert (Ascii.eqb c "\" = false) as -> by differs Hc.
  cbn [andb]. by rewrite IH.
Qed.

Lemma replaceParams_literal (p : string) :
  literal p = true -> replaceParams false p = p.
Proof.
  induction p as [|c p IH]; [reflexivity|].
  intros [Hc Hp]%literal_cons. cbn [replaceParams andb].
  assert (Ascii.eqb c "\" = false) as -> by differs Hc.
  cbn [andb]. rewrite (IH Hp).
  by destruct p as [|c1 [|c2 [|c3 p]]].
Qed.

Lemma HasSuffix_literal (p : string) : literal p = true -> HasSuffix p "$" = false.
Proof.
  intros Hp. apply not_true_is_false. intros [pre ->]%HasSuffix_split.
  rewrite literal_app in Hp. apply andb_true_iff in Hp as [_ Hp]. discriminate Hp.
Qed.

(** A pattern without special bytes is translated to itself, followed by
    the end-of-text assertion. *)
Lemma patternToRegex_literal (p : string) :
  literal p = true -> patternToRegex p = p ++ "$".
Proof.
  intros Hp. unfold patternToRegex, ReplaceAll.
  rewrite (QuoteMeta_literal p Hp), (replaceFrom_literal p Hp),
    (replaceParams_literal p Hp), (HasSuffix_literal p Hp).
  reflexivity.
Qed.

Lemma unsupported_special (c : ascii) : special c = false -> unsupported c = false.
Proof.
  intros Hc. apply not_true_is_false. unfold unsupported. intros H.
  apply existsb_exists in H as (x & Hin & ->%Ascii.eqb_eq).
  cbn in Hin. repeat (destruct Hin as [<-|Hin]; [discriminate Hc|]). exact Hin.
Qed.

Lemma quantOf_special (c : ascii) : special c = false -> quantOf c = None.
Proof.
  intros Hc. unfold quantOf.
  assert (Ascii.eqb c "*" = false) as -> by differs Hc.
  assert (Ascii.eqb c "+" = false) as -> by differs Hc.
  assert (Ascii.eqb c "?" = false) as -> by differs Hc.
  reflexivity.
Qed.

Lemma parseFrom_literal (p rest : string) (acc : list inst) :
  literal p = true ->
  parseFrom PNormal acc (p ++ rest) = parseFrom PNormal (rev (litSeq p) ++ acc)%list rest.
Proof.
  revert acc. induction p as [|c p IH]; intros acc; [reflexivity|].
  intros [Hc Hp]%literal_cons. rewrite append_cons. cbn [parseFrom].
  assert (Ascii.eqb c "\" = false) as -> by differs Hc.
  assert (Ascii.eqb c "." = false) as -> by differs Hc.
  assert (Ascii.eqb c "[" = false) as -> by differs Hc.
  assert (Ascii.eqb c "$" = false) as -> by differs Hc.
  assert (Ascii.eqb c "^" = false) as -> by differs Hc.
  rewrite (unsupported_special c Hc), (quantOf_special c Hc), (IH _ Hp).
  cbn [litSeq rev]. by rewrite <- app_assoc.
Qed.

Lemma parse_literal (p : string) :
  literal p = true -> parse (p ++ "$") = Some (litSeq p ++ [EndText])%list.
Proof.
  intros Hp. unfold parse. rewrite (parseFrom_literal p "$" [] Hp).
  cbn. by rewrite app_nil_r, rev_involutive.
Qed.

(** The expression of a literal pattern matches at a position exactly
    when the rest of the text is the pattern. *)
Lemma matchHere_literal (p : string) (bot : bool) (s : string) :
  matchHere (litSeq p ++ [EndText])%list bot s = true <-> s = p.
Proof.
  revert bot s. induction p as [|c p IH]; intros bot s; cbn.
  - destruct s; [done|]. split; discriminate.
  - destruct s as [|x s]; [split; discriminate|].
    rewrite andb_true_iff, Ascii.eqb_eq, IH. split; [by intros [-> ->]|by intros [= -> ->]].
Qed.

(** An unanchored search with it finds the texts that end with the
    pattern. *)
Lemma searchFrom_literal (p : string) (bot : bool) (s : string) :
  searchFrom (litSeq p ++ [EndText])%list bot s = true <-> exists pre, s = pre ++ p.
Proof.
  revert bot. induction s as [|x s IH]; intros bot; cbn [searchFrom].
  - rewrite orb_false_r, matchHere_literal. split.
    + intros <-. by exists "".
    + intros [[|? ?] H]; [exact H|discriminate H].
  - rewrite orb_true_iff, matchHere_literal, IH. split.
    + intros [<-|[pre ->]]; [by exists ""|by exists (String x pre)].
    + intros [[|y pre] H]; [by left|].
      rewrite append_cons in H. injection H as -> ->. right. by exists pre.
Qed.

(** The match of a pattern without special bytes is anchored at the end
    of the path, and only there. *)
Lemma matchRoutePattern_literal (pattern path : string) :
  literal pattern = true ->
  matchRoutePattern pattern path = true <-> exists pre, path = pre ++ pattern.
Proof.
  intros Hp. unfold matchRoutePattern, MatchString.
  rewrite (patternToRegex_literal pattern Hp), (parse_literal pattern Hp).
  apply searchFrom_literal.
Qed.

End LiteralPatterns.

Section WildcardPatterns.
Import GoStrings GoRegexp proxy.

Ltac differs H :=
  apply Ascii.eqb_neq; intros ->; vm_compute in H; discriminate H.











End WildcardPatterns.

(** C1.  The route [{pattern: "/orders/:id", methods: ["GET"]}] of the
    specification's scenario is not returned for [GET /orders/77]: the
    pattern is left as it is by [patternToRegex] (the expression that should
    find [/:id] asks for a backslash in front of it, and [QuoteMeta] puts
    none before [/]), so the route matches exactly the paths that end with
    the text [/orders/:id] itself. *)
Theorem C1_param_segment_is_matched_literally :
  proxy.patternToRegex "/orders/:id" = "/orders/:id$"
  /\ (forall path : string,
        proxy.matchRoutePattern "/orders/:id" path = true
        <-> exists pre, path = pre ++ "/orders/:id")
  /\ proxy.matchRoutePattern "/orders/:id" "/orders/77" = false
  /\ proxy.MatchRoute Scenario.ordersParamParser "GET" "/orders/77"
     = inr (proxy.NoRouteFound "GET" "/orders/77")
  /\ proxy.MatchRoute Scenario.ordersParamParser "GET" "/orders/:id"
     = inl (Scenario.ordersParamRoute, Scenario.orderService)
  /\ proxy.ProxyGinRequest Scenario.okBackend
       (proxy.NewProxyService Scenario.ordersParamParser) "GET" "/orders/77"
       Scenario.orderRegistry
     = discovery.Returns
         (proxy.GinJSON 404 "Route not found", [proxy.EvMatchRoute "GET" "/orders/77"])
         Scenario.orderRegistry.
Proof.
  split; [vm_compute; reflexivity|]. split.
  - intros path. by apply matchRoutePattern_literal.
  - repeat split; vm_compute; reflexivity.
Qed.




(** C6.  No route with [strip_prefix] set forwards
    [/api/v1/users/42/profile] as [/42/profile].  [buildTargetURL] removes
    the pattern of the route from the front of the path, so the outbound
    path is [/42/profile] only for the pattern [/api/v1/users]; and a route
    with that pattern is never returned by [MatchRoute] for this path,
    because the pattern is matched against the end of the path. *)
Theorem C6_strip_prefix_never_forwards_the_suffix
        (p : proxy.RouteParser) (method : string)
        (route : proxy.RouteConfig) (service : proxy.ServiceConfig)
        (instance : discovery.ServiceInstance) :
  proxy.MatchRoute p method "/api/v1/users/42/profile" = inl (route, service) ->
  proxy.StripPrefix route = true ->
  proxy.Path (proxy.buildTargetURL instance "/api/v1/users/42/profile" route service)
  <> "/42/profile"
  /\ proxy.Path (proxy.directorURL
                   (proxy.buildTargetURL instance "/api/v1/users/42/profile" route service)
                   "/api/v1/users/42/profile")
     <> "/42/profile".
Proof.
  intros HM Hstrip.
  apply MatchRoute_inl in HM as (_ & _ & Hpat & _).
  split.
  - unfold proxy.buildTargetURL. rewrite Hstrip. cbn [proxy.Path]. intros Heq.
    destruct (TrimPrefix_cases "/api/v1/users/42/profile" (proxy.Pattern route))
      as [H|H]; rewrite Heq in H; [discriminate H|].
    change "/api/v1/users/42/profile" with ("/api/v1/users" ++ "/42/profile") in H.
    apply append_inv_tail in H. rewrite <- H in Hpat.
    vm_compute in Hpat. discriminate Hpat.
  - cbn [proxy.directorURL proxy.Path].
    generalize (proxy.Path
                  (proxy.buildTargetURL instance "/api/v1/users/42/profile" route service)).
    intros t. unfold proxy.singleJoiningSlash.
    change (GoStrings.HasPrefix "/api/v1/users/42/profile" "/") with true.
    destruct (GoStrings.HasSuffix t "/"); cbn [andb negb GoStrings.drop];
      intros Heq; apply (f_equal String.length) in Heq;
      rewrite length_append in Heq; cbn in Heq; lia.
Qed.

(** The configurations one would write for the claim: the group "users" of
    the shipped configuration and a global route with the prefix as its
    pattern are not matched (the request is answered 404); a wildcard route
    under the prefix is matched and forwards the path as it came. *)
Lemma C6_strip_prefix_never_forwards_the_suffix_witness :
  proxy.MatchRoute Scenario.usersParser "GET" "/api/v1/users/42/profile"
  = inr (proxy.NoRouteFound "GET" "/api/v1/users/42/profile")
  /\ proxy.MatchRoute Scenario.usersPrefixParser "GET" "/api/v1/users/42/profile"
     = inr (proxy.NoRouteFound "GET" "/api/v1/users/42/profile")
  /\ proxy.Path (proxy.buildTargetURL Scenario.orderInstance "/api/v1/users/42/profile"
                   Scenario.usersPrefixRoute Scenario.userService) = "/42/profile"
  /\ proxy.Path (proxy.buildTargetURL Scenario.orderInstance "/api/v1/users/42/profile"
                   Scenario.usersWildcardRoute Scenario.userService)
     = "/api/v1/users/42/profile"
  /\ proxy.Path (proxy.buildTargetURL Scenario.orderInstance "/api/v1/users/42/profile"
                   Scenario.usersWildcardRoute Scenario.userService)
     <> "/42/profile".
Proof.
  split; [vm_compute; reflexivity|].
  split; [vm_compute; reflexivity|].
  split; [vm_compute; reflexivity|].
  split; [vm_compute; reflexivity|].
  apply (C6_strip_prefix_never_forwards_the_suffix Scenario.usersWildcardParser "GET"
           Scenario.usersWildcardRoute Scenario.userService Scenario.orderInstance).
  - vm_compute. reflexivity.
  - reflexivity.
Defined.

Section TranslationCompiles.
Import GoStrings GoRegexp proxy.

Ltac differs H :=
  apply Ascii.eqb_neq; intros ->; vm_compute in H; discriminate H.

Lemma special_cases (c : ascii) :
  special c = true -> In c specialBytes.
Proof.
  unfold special. intros H. apply existsb_exists in H as (x & Hin & ->%Ascii.eqb_eq).
  exact Hin.
Qed.

Lemma special_escapable (c : ascii) : special c = true -> escapable c = true.
Proof.
  intros H%special_cases. cbn in H.
  repeat (destruct H as [<-|H]; [reflexivity|]). destruct H.
Qed.

Lemma special_notSlash (c : ascii) : special c = true -> notSlash c = true.
Proof.
  intros H%special_cases. cbn in H.
  repeat (destruct H as [<-|H]; [reflexivity|]). destruct H.
Qed.

Lemma quoted_QuoteMeta (p : string) : quoted (QuoteMeta p).
Proof.
  induction p as [|c p IH]; [constructor|].
  cbn [QuoteMeta]. destruct (special c) eqn:Hc.
  - by apply quoted_escape.
  - by apply quoted_plain.
Qed.

Lemma quoted_not_star (s : string) : quoted s -> HasPrefix s "*" = false.
Proof.
  intros [|c s' Hc _|c s' _ _|s' _]; try reflexivity.
  cbn. assert (Ascii.eqb c "*" = false) as -> by differs Hc. reflexivity.
Qed.

Lemma quoted_replaceFrom (s : string) :
  quoted s -> quoted (replaceFrom 0 s "\*" ".*").
Proof.
  induction 1 as [|c s Hc Hs IH|c s Hc Hs IH|s Hs IH].
  - constructor.
  - cbn [replaceFrom HasPrefix].
    assert (Ascii.eqb c "\" = false) as -> by differs Hc.
    cbn [andb]. by apply quoted_plain.
  - cbn [replaceFrom HasPrefix].
    change (Ascii.eqb "\" "\") with true. cbn [andb].
    destruct (Ascii.eqb c "*") eqn:Hstar.
    + cbn [String.length Nat.sub]. by apply quoted_any.
    + pose proof (quoted_not_star s Hs) as Hn. cbn [HasPrefix] in Hn.
      destruct s as [|x s].
      * rewrite andb_false_r. by apply quoted_escape.
      * cbn [HasPrefix] in Hn |- *. rewrite andb_true_r in Hn |- *.
        rewrite Hn, andb_false_r. by apply quoted_escape.
  - cbn [replaceFrom HasPrefix]. change (Ascii.eqb "." "\") with false.
    change (Ascii.eqb "*" "\") with false. cbn [andb]. by apply quoted_any.
Qed.

(** How [replaceParams] moves over a text. *)
Lemma replaceParams_skip (c : ascii) (s : string) :
  notSlash c = true -> replaceParams true (String c s) = replaceParams true s.
Proof. intros H. cbn [replaceParams]. by rewrite H. Qed.

Lemma replaceParams_keep (b : bool) (c : ascii) (s : string) :
  Ascii.eqb c "\" = false ->
  b && notSlash c = false ->
  replaceParams b (String c s) = String c (replaceParams false s).
Proof.
  intros Hc Hb. cbn [replaceParams]. rewrite Hb, Hc. cbn [andb].
  by destruct s as [|c1 [|c2 [|c3 s]]].
Qed.

Lemma replaceParams_backslash (t : string) :
  (exists c3 rest,
      t = String "/" (String ":" (String c3 rest))
      /\ replaceParams false (String "\" t) = "/[^/]+" ++ replaceParams true (String c3 rest))
  \/ replaceParams false (String "\" t) = String "\" (replaceParams false t).
Proof.
  destruct t as [|c1 [|c2 [|c3 rest]]]; try (by right).
  cbn [replaceParams andb]. change (Ascii.eqb "\" "\") with true. cbn [andb].
  destruct (Ascii.eqb c1 "/") eqn:H1; [|by right].
  destruct (Ascii.eqb c2 ":") eqn:H2; [|by right].
  destruct (notSlash c3) eqn:H3; [|by right].
  apply Ascii.eqb_eq in H1 as ->. apply Ascii.eqb_eq in H2 as ->.
  left. exists c3, rest. split; [reflexivity|].
  cbn [andb]. by rewrite H3.
Qed.

(** How the parser moves over the pieces of the translation. *)
Lemma parseFrom_plain (c : ascii) (t : string) (acc : list inst) :
  special c = false ->
  parseFrom PNormal acc (String c t) = parseFrom PNormal (Piece (Lit c) Once :: acc) t.
Proof.
  intros Hc. exact (parseFrom_literal (String c "") t acc
                      (proj2 (literal_cons c "") (conj Hc eq_refl))).
Qed.

Lemma parseFrom_escape (c : ascii) (t : string) (acc : list inst) :
  escapable c = true ->
  parseFrom PNormal acc (String "\" (String c t))
  = parseFrom PNormal (Piece (Lit c) Once :: acc) t.
Proof. intros Hc. cbn [parseFrom]. change (Ascii.eqb "\" "\") with true. cbn. by rewrite Hc. Qed.

Lemma parseFrom_any (t : string) (acc : list inst) :
  parseFrom PNormal acc (String "." (String "*" t))
  = parseFrom PNormal (Piece AnyCharNotNL Star :: acc) t.
Proof. reflexivity. Qed.

Lemma parseFrom_param (t : string) (acc : list inst) :
  parseFrom PNormal acc ("/[^/]+" ++ t)
  = parseFrom PNormal (Piece (CharClass true ["/"%char]) Plus
                         :: Piece (Lit "/") Once :: acc) t.
Proof. reflexivity. Qed.

Lemma quoted_tail (c : ascii) (t : string) :
  special c = false -> quoted (String c t) -> quoted t.
Proof.
  intros Hc H. inversion H as [|c' s' _ Hs|c' s' _ _|s' _]; subst.
  - exact Hs.
  - discriminate Hc.
  - discriminate Hc.
Qed.

(** Whatever [replaceParams] makes of a quoted text compiles, in front of
    a text that compiles. *)
Lemma replaceParams_compiles (tail : string) :
  (forall acc, is_Some (parseFrom PNormal acc tail)) ->
  forall (n : nat) (s : string),
    (String.length s <= n)%nat ->
    quoted s ->
    forall (b : bool) (acc : list inst),
      is_Some (parseFrom PNormal acc (replaceParams b s ++ tail)).
Proof.
  intros Htail. induction n as [|n IH]; intros s Hlen Hq b acc.
  { destruct s; [|cbn in Hlen; lia]. destruct b; apply Htail. }
  destruct Hq as [|c s Hc Hs|c s Hc Hs|s Hs].
  - destruct b; apply Htail.
  - cbn [String.length] in Hlen.
    assert (Hbs : Ascii.eqb c "\" = false) by differs Hc.
    destruct (b && notSlash c) eqn:Hb.
    + apply andb_true_iff in Hb as [-> Hn].
      rewrite (replaceParams_skip c s Hn). apply IH; [lia|exact Hs].
    + rewrite (replaceParams_keep b c s Hbs Hb), append_cons, (parseFrom_plain c _ _ Hc).
      apply IH; [lia|exact Hs].
  - cbn [String.length] in Hlen.
    pose proof (special_notSlash c Hc) as Hn.
    destruct b.
    + rewrite (replaceParams_skip "\" _ eq_refl), (replaceParams_skip c s Hn).
      apply IH; [lia|exact Hs].
    + assert (Hsl : Ascii.eqb c "/" = false).
      { unfold notSlash in Hn. by apply negb_true_iff in Hn. }
      destruct (replaceParams_backslash (String c s))
        as [(c3 & rest & [= -> _] & _)| ->]; [discriminate Hsl|].
      rewrite append_cons.
      destruct (Ascii.eqb c "\") eqn:Hbs.
      * apply Ascii.eqb_eq in Hbs as ->.
        destruct (replaceParams_backslash s) as [(c3 & rest & -> & ->)| ->].
        -- rewrite append_assoc.
           change (String "\" ("/[^/]+" ++ (replaceParams true (String c3 rest) ++ tail)))
             with ("\/[^/]+" ++ (replaceParams true (String c3 rest) ++ tail)).
           change ("\/[^/]+" ++ (replaceParams true (String c3 rest) ++ tail))
             with (String "\" (String "/" ("[^/]+" ++ (replaceParams true (String c3 rest) ++ tail)))).
           rewrite (parseFrom_escape "/" _ _ eq_refl).
           change (parseFrom PNormal (Piece (Lit "/") Once :: acc)
                     ("[^/]+" ++ (replaceParams true (String c3 rest) ++ tail)))
             with (parseFrom PNormal (Piece (CharClass true ["/"%char]) Plus
                                        :: Piece (Lit "/") Once :: acc)
                     (replaceParams true (String c3 rest) ++ tail)).
           apply IH; [cbn [String.length] in Hlen |- *; lia|].
           apply (quoted_tail ":" _ eq_refl), (quoted_tail "/" _ eq_refl), Hs.
        -- rewrite append_cons, (parseFrom_escape "\" _ _ eq_refl).
           apply IH; [lia|exact Hs].
      * rewrite (replaceParams_keep false c s Hbs eq_refl), append_cons,
          (parseFrom_escape c _ _ (special_escapable c Hc)).
        apply IH; [lia|exact Hs].
  - cbn [String.length] in Hlen. destruct b.
    + rewrite (replaceParams_skip "." _ eq_refl), (replaceParams_skip "*" _ eq_refl).
      apply IH; [lia|exact Hs].
    + rewrite (replaceParams_keep false "." _ eq_refl eq_refl),
        (replaceParams_keep false "*" _ eq_refl eq_refl), !append_cons, parseFrom_any.
      apply IH; [lia|exact Hs].
Qed.

(** The expression [patternToRegex] builds always compiles: the error
    branch of [matchRoutePattern] is never taken. *)
Lemma patternToRegex_compiles (pattern : string) :
  is_Some (parse (patternToRegex pattern)).
Proof.
  unfold patternToRegex, ReplaceAll, parse.
  pose proof (quoted_replaceFrom _ (quoted_QuoteMeta pattern)) as Hq.
  set (q := replaceFrom 0 (QuoteMeta pattern) "\*" ".*") in *.
  destruct (HasSuffix (replaceParams false q) "$"); cbn [negb].
  - rewrite <- (append_nil_r (replaceParams false q)).
    apply (replaceParams_compiles "" (fun acc => ltac:(by eexists)) _ q (le_n _) Hq).
  - apply (replaceParams_compiles "$" (fun acc => ltac:(by eexists)) _ q (le_n _) Hq).
Qed.

Lemma matchRoutePattern_search (pattern path : string) :
  exists r, parse (patternToRegex pattern) = Some r
            /\ matchRoutePattern pattern path = searchFrom r true path.
Proof.
  destruct (patternToRegex_compiles pattern) as [r Hr].
  exists r. split; [exact Hr|]. unfold matchRoutePattern, MatchString. by rewrite Hr.
Qed.

End TranslationCompiles.

(* ===================================================================== *)
(** * Further properties of the rate limiter *)
(* ===================================================================== *)

Section WindowFacts.
Import ratelimit.

Variable key : string.

(** What [admitted] is after one more call. *)
Lemma admitted_cons (t : Z) (ts : list Z) (r : MemoryRateLimiter) :
  admitted key (t :: ts) r
  = if fst (Allow t key r) then t :: admitted key ts (snd (Allow t key r))
    else admitted key ts (snd (Allow t key r)).
Proof.
  unfold admitted. cbn [allowAll].
  destruct (Allow t key r) as [ok r1]. cbn [fst snd].
  destruct (allowAll key ts r1) as [oks r2]. cbn [fst snd zip zip_with].
  destruct ok.
  - by rewrite filter_cons_True.
  - by rewrite filter_cons_False.
Qed.

(** A timestamp that is valid at a later time was valid before. *)
Lemma filter_After_mono (t t' W : Z) (l : list Z) :
  t <= t' ->
  filter (fun x => After x (t' - W) = true) (filter (fun x => After x (t - W) = true) l)
  = filter (fun x => After x (t' - W) = true) l.
Proof.
  intros Ht. induction l as [|x l IH]; [reflexivity|].
  destruct (decide (After x (t - W) = true)) as [Hx|Hx].
  - rewrite (filter_cons_True _ x l Hx).
    destruct (decide (After x (t' - W) = true)) as [Hx'|Hx'].
    + by rewrite !(filter_cons_True _ x _ Hx'), IH.
    + by rewrite !(filter_cons_False _ x _ Hx'), IH.
  - rewrite (filter_cons_False _ x l Hx).
    rewrite (filter_cons_False (fun x => After x (t' - W) = true) x l); [exact IH|].
    unfold After in *. intros Hc. apply Hx. apply Z.ltb_lt. apply Z.ltb_lt in Hc. lia.
Qed.

(** The invariant of a run: what the limiter remembers agrees, for every
    time to come, with the calls admitted so far, and no window holds more
    of these than the limit. *)
Lemma admitted_bounded (W N : Z) (ts : list Z) :
  forall (r : MemoryRateLimiter) (adm : list Z),
    limit r = N -> window r = W ->
    StronglySorted Z.le ts ->
    Forall (fun t => Forall (fun x => x <= t) adm) ts ->
    Forall (fun t => filter (fun x => After x (t - W) = true) (history key r)
                     = filter (fun x => After x (t - W) = true) adm) ts ->
    (forall a, Z.of_nat (length (filter (fun x => a < x <= a + W) adm)) <= Z.max 0 N) ->
    forall a,
      Z.of_nat (length (filter (fun x => a < x <= a + W) (adm ++ admitted key ts r)%list)) <= Z.max 0 N.
Proof.
  induction ts as [|t ts IH]; intros r adm HN HW Hs Hle Hag HP a.
  - unfold admitted. cbn. rewrite app_nil_r. apply HP.
  - rewrite admitted_cons.
    apply StronglySorted_inv in Hs as [Hs Ht]. rewrite Forall_forall in Ht.
    apply Forall_cons in Hle as [Hle0 Hle].
    apply Forall_cons in Hag as [Hag0 Hag].
    destruct (Allow_spec key t r) as (S1 & S2 & S3 & S4).
    rewrite HW, Hag0, HN in S1, S2.
    set (valid := filter (fun x => After x (t - W) = true) adm) in *.
    assert (Hag1 : forall t', t <= t' ->
              filter (fun x => After x (t' - W) = true) valid
              = filter (fun x => After x (t' - W) = true) adm).
    { intros t' Ht'. by apply filter_After_mono. }
    destruct (Z.of_nat (length valid) >=? N) eqn:Hfull; cbn [negb] in S1.
    + rewrite S1. apply IH; try assumption; try congruence.
      rewrite S2. apply Forall_forall. intros t' Hin. by apply Hag1, Ht.
    + rewrite S1. rewrite Z.geb_leb in Hfull. apply Z.leb_gt in Hfull.
      change (adm ++ t :: admitted key ts (snd (Allow t key r)))%list
        with (adm ++ [t] ++ admitted key ts (snd (Allow t key r)))%list.
      rewrite app_assoc. apply IH; try assumption; try congruence.
      * rewrite Forall_forall in Hle. apply Forall_forall. intros t' Hin.
        apply Forall_app. split; [by apply Hle|].
        by apply Forall_singleton, Ht.
      * rewrite S2. apply Forall_forall. intros t' Hin.
        rewrite !filter_app, Hag1; [reflexivity|]. by apply Ht.
      * intros b. rewrite filter_app, length_app.
        destruct (decide (b < t <= b + W)) as [Hin|Hout].
        -- rewrite (filter_cons_True _ t [] Hin). cbn [filter length].
           assert (Hsub : (length (filter (fun x => (b < x <= b + W)%Z) adm) <= length valid)%nat).
           { subst valid. clear -Hin Hle0.
             induction Hle0 as [|x adm Hx _ IHa]; [cbn; lia|].
             destruct (decide (b < x <= b + W)) as [Hbx|Hbx].
             - rewrite (filter_cons_True _ x adm Hbx).
               rewrite (filter_cons_True (fun y => After y (t - W) = true) x adm).
               + cbn [length]. lia.
               + unfold After. apply Z.ltb_lt. lia.
             - rewrite (filter_cons_False _ x adm Hbx).
               destruct (decide (After x (t - W) = true)) as [Hv|Hv].
               + rewrite (filter_cons_True _ x adm Hv). cbn [length]. lia.
               + by rewrite (filter_cons_False _ x adm Hv). }
           rewrite filter_nil. cbn [length]. lia.
        -- rewrite (filter_cons_False _ t [] Hout), filter_nil. cbn [length].
           specialize (HP b). lia.
Qed.

End WindowFacts.

(** X1.  Calls of one key made at non-decreasing times on a limiter that
    holds nothing for the key: whatever the calls, no window of the
    limiter's length (open at its start, closed at its end) holds more
    admitted calls than the limit. *)
Theorem X1_no_window_holds_more_than_the_limit
        (key : string) (r : ratelimit.MemoryRateLimiter) (ts : list Z) (a : Z) :
  ratelimit.requests r !! key = None ->
  StronglySorted Z.le ts ->
  Z.of_nat (length (filter (fun t => a < t <= a + ratelimit.window r)
                           (ratelimit.admitted key ts r)))
  <= Z.max 0 (ratelimit.limit r).
Proof.
  intros Hnone Hs.
  assert (Hh : ratelimit.history key r = []).
  { unfold ratelimit.history. by rewrite Hnone. }
  apply (admitted_bounded key (ratelimit.window r) (ratelimit.limit r) ts r []);
    try done.
  - apply Forall_forall. intros t _. constructor.
  - apply Forall_forall. intros t _. by rewrite Hh.
  - intros b. cbn. lia.
Qed.

Lemma X1_no_window_holds_more_than_the_limit_witness :
  ratelimit.admitted "ip:10.0.0.7" [0; 3; 5; 11; 12] (ratelimit.NewMemoryRateLimiter 2 10)
  = [0; 3; 11]
  /\ Z.of_nat (length (filter (fun t => 2 < t <= 2 + 10)
                 (ratelimit.admitted "ip:10.0.0.7" [0; 3; 5; 11; 12]
                    (ratelimit.NewMemoryRateLimiter 2 10))))
     <= 2.
Proof.
  split; [vm_compute; reflexivity|].
  apply (X1_no_window_holds_more_than_the_limit "ip:10.0.0.7"
           (ratelimit.NewMemoryRateLimiter 2 10) [0; 3; 5; 11; 12] 2).
  - reflexivity.
  - repeat constructor; lia.
Defined.

Section LimiterFrame.
Import ratelimit.

(** The answer of [Allow] for a key depends on what is recorded for the
    key, on the limit and on the window, and on nothing else. *)
Lemma Allow_ext (now : Z) (key : string) (r r' : MemoryRateLimiter) :
  requests r !! key = requests r' !! key ->
  limit r = limit r' ->
  window r = window r' ->
  fst (Allow now key r) = fst (Allow now key r')
  /\ requests (snd (Allow now key r)) !! key = requests (snd (Allow now key r')) !! key
  /\ limit (snd (Allow now key r)) = limit (snd (Allow now key r'))
  /\ window (snd (Allow now key r)) = window (snd (Allow now key r')).
Proof.
  intros Hr Hl Hw. unfold Allow. cbn zeta. rewrite Hr, Hw.
  cbn [limit withRequests]. rewrite Hl.
  destruct (_ >=? _); cbn; rewrite ?lookup_insert_eq; auto.
Qed.

Lemma allowAll_ext (key : string) (ts : list Z) :
  forall r r' : MemoryRateLimiter,
    requests r !! key = requests r' !! key ->
    limit r = limit r' ->
    window r = window r' ->
    fst (allowAll key ts r) = fst (allowAll key ts r').
Proof.
  induction ts as [|t ts IH]; intros r r' Hr Hl Hw; [reflexivity|].
  cbn [allowAll].
  destruct (Allow_ext t key r r' Hr Hl Hw) as (E1 & E2 & E3 & E4).
  destruct (Allow t key r) as [ok r1], (Allow t key r') as [ok' r1'].
  cbn [fst snd] in *. subst ok'.
  specialize (IH r1 r1' E2 E3 E4).
  destruct (allowAll key ts r1), (allowAll key ts r1'). cbn [fst] in *. by rewrite IH.
Qed.

(** A limit of zero or less admits nothing. *)
Lemma Allow_nonpositive_limit (now : Z) (key : string) (r : MemoryRateLimiter) :
  limit r <= 0 -> fst (Allow now key r) = false.
Proof.
  intros Hl. destruct (Allow_spec key now r) as (S1 & _). rewrite S1.
  apply negb_false_iff. rewrite Z.geb_leb. apply Z.leb_le. lia.
Qed.

Lemma allowWith_fst (now : Z) (name key : string) (l : MemoryRateLimiter)
      (m : RateLimitMiddleware) :
  fst (allowWith now name key l m) = fst (Allow now key l).
Proof. unfold allowWith. by destruct (Allow now key l). Qed.

Lemma allowWith_snd (now : Z) (name key : string) (l : MemoryRateLimiter)
      (m : RateLimitMiddleware) :
  snd (allowWith now name key l m)
  = mkRateLimitMiddleware (config m) (<[name := snd (Allow now key l)]> (limiters m))
                          (globalLimiter m).
Proof. unfold allowWith. by destruct (Allow now key l). Qed.

(** What [ResetRateLimit] leaves of a limiter of the map. *)
Lemma ResetRateLimit_limiters (key name : string) (m : RateLimitMiddleware) :
  limiters (ResetRateLimit key m) !! name
  = (fun l => if decide (name = key) then Reset key l else l) <$> limiters m !! name.
Proof.
  unfold ResetRateLimit. cbn.
  destruct (limiters m !! key) as [l|] eqn:Hk.
  - destruct (decide (name = key)) as [->|Hne].
    + by rewrite lookup_insert_eq, Hk.
    + rewrite lookup_insert_ne by congruence. by destruct (limiters m !! name).
  - destruct (decide (name = key)) as [->|Hne].
    + by rewrite Hk.
    + by destruct (limiters m !! name).
Qed.

(** A longer text is another key. *)
Lemma append_longer (s t : string) : t <> "" -> s ++ t <> s.
Proof.
  intros Ht H. apply (f_equal String.length) in H. rewrite length_append in H.
  destruct t; [congruence|]. cbn in H. lia.
Qed.

(** After [ResetRateLimit], a limiter of the map still answers a client
    key as before, the key being longer than the limiter's name. *)
Lemma reset_keeps_client (now : Z) (key name client : string) (l : MemoryRateLimiter) :
  client <> name ->
  fst (Allow now client (if decide (name = key) then Reset key l else l))
  = fst (Allow now client l).
Proof.
  intros Hne. destruct (decide (name = key)) as [<-|_]; [|reflexivity].
  apply Allow_ext; try reflexivity.
  unfold Reset. cbn. by rewrite lookup_delete_ne.
Qed.


End LimiterFrame.

(** X2.  The answers a limiter gives to the calls of one key are those it
    would give if the calls of all other keys had not been made. *)
Theorem X2_keys_do_not_share_a_window
        (key : string) (calls : list (Z * string)) (r : ratelimit.MemoryRateLimiter) :
  ratelimit.answersFor key calls r
  = fst (ratelimit.allowAll key (fst <$> filter (fun c => snd c = key) calls) r).
Proof.
  revert r. induction calls as [|[now k] calls IH]; intros r; [reflexivity|].
  unfold ratelimit.answersFor in *. cbn [ratelimit.allowEach].
  destruct (ratelimit.Allow now k r) as [ok r1] eqn:HA.
  specialize (IH r1).
  destruct (ratelimit.allowEach calls r1) as [oks r2] eqn:HE.
  cbn [fst snd zip zip_with] in IH |- *.
  destruct (decide (k = key)) as [->|Hne].
  - rewrite filter_cons_True by reflexivity.
    rewrite (filter_cons_True (fun c : Z * string => snd c = key) (now, key) calls)
      by reflexivity.
    cbn [fmap list_fmap fst snd ratelimit.allowAll]. rewrite HA.
    fold (@fmap list _ _ _ (@snd (Z * string) bool)). rewrite IH.
    by destruct (ratelimit.allowAll key _ r1).
  - rewrite filter_cons_False by (cbn; congruence).
    rewrite (filter_cons_False (fun c : Z * string => snd c = key) (now, k) calls)
      by (cbn; congruence).
    rewrite IH. apply allowAll_ext.
    + replace r1 with (snd (ratelimit.Allow now k r)) by (by rewrite HA).
      apply Allow_other_key. congruence.
    + destruct (Allow_spec k now r) as (_ & _ & H & _). by rewrite HA in H.
    + destruct (Allow_spec k now r) as (_ & _ & _ & H). by rewrite HA in H.
Qed.

(** X3.  An API rule with a request count of zero or less blocks its
    endpoint: with rate limiting enabled, a request for the path is
    answered 429 whoever sends it, as long as the limiter of the method
    and path, if it exists, has such a limit; and after the request it
    has. *)
Theorem X3_api_rule_without_requests_blocks_the_endpoint
        (now : Z) (method path : string) (userID : option string) (clientIP : string)
        (m : ratelimit.RateLimitMiddleware) (rule : ratelimit.RateLimitRule) :
  ratelimit.Enabled (ratelimit.config m) = true ->
  ratelimit.APILimit (ratelimit.config m) !! path = Some rule ->
  ratelimit.Requests rule <= 0 ->
  (forall l, ratelimit.limiters m !! ratelimit.apiLimiterKey method path = Some l ->
             ratelimit.limit l <= 0) ->
  let m' := snd (ratelimit.APIRateLimit now method path userID clientIP m) in
  fst (ratelimit.APIRateLimit now method path userID clientIP m) = false
  /\ ratelimit.config m' = ratelimit.config m
  /\ exists l', ratelimit.limiters m' !! ratelimit.apiLimiterKey method path = Some l'
                /\ ratelimit.limit l' <= 0.
Proof.
  intros Hen Hrule Hreq Hinv. cbn zeta.
  unfold ratelimit.APIRateLimit. rewrite Hen, Hrule. cbn [negb].
  unfold ratelimit.getOrCreateAPILimiter.
  destruct (ratelimit.limiters m !! ratelimit.apiLimiterKey method path) as [l|] eqn:Hl.
  - rewrite allowWith_fst, allowWith_snd. cbn.
    rewrite (Allow_nonpositive_limit _ _ l (Hinv l eq_refl)).
    split; [reflexivity|]. split; [reflexivity|].
    eexists. rewrite lookup_insert_eq. split; [reflexivity|].
    destruct (Allow_spec (ratelimit.apiRateLimitKey (ratelimit.apiLimiterKey method path)
                            userID clientIP) now l) as (_ & _ & -> & _).
    by apply Hinv.
  - rewrite allowWith_fst, allowWith_snd. cbn.
    rewrite Allow_nonpositive_limit by exact Hreq.
    split; [reflexivity|]. split; [reflexivity|].
    eexists. rewrite lookup_insert_eq. split; [reflexivity|].
    destruct (Allow_spec (ratelimit.apiRateLimitKey (ratelimit.apiLimiterKey method path)
                            userID clientIP) now
                (ratelimit.NewMemoryRateLimiter (ratelimit.Requests rule)
                   (ratelimit.Window rule))) as (_ & _ & -> & _).
    exact Hreq.
Qed.

Lemma X3_api_rule_without_requests_blocks_the_endpoint_witness :
  fst (ratelimit.APIRateLimit 5 "POST" "/api/v1/files/upload" (Some "u-1") "10.0.0.7"
         (ratelimit.NewRateLimitMiddleware
            (ratelimit.mkRateLimitConfig true 1000
               (ratelimit.mkRateLimitRule 100 ratelimit.Minute)
               (ratelimit.mkRateLimitRule 200 ratelimit.Minute)
               {[ "/api/v1/files/upload" := ratelimit.mkRateLimitRule 0 ratelimit.Minute ]})))
  = false.
Proof.
  apply (X3_api_rule_without_requests_blocks_the_endpoint 5 "POST" "/api/v1/files/upload"
           (Some "u-1") "10.0.0.7" _ (ratelimit.mkRateLimitRule 0 ratelimit.Minute)).
  - reflexivity.
  - vm_compute. reflexivity.
  - cbn. lia.
  - intros l Hl. vm_compute in Hl. discriminate Hl.
Defined.



(** X5.  [ResetRateLimit] frees no client: whatever its key, the IP, user
    and API gates answer the next request of every client as they would
    have without the reset.  (It deletes, in the limiter named by the key,
    the entry of that name; the gates count under longer keys.) *)
Theorem X5_reset_frees_no_client
        (key : string) (now : Z) (method path : string) (userID : option string)
        (clientIP : string) (m : ratelimit.RateLimitMiddleware) :
  fst (ratelimit.IPRateLimit now clientIP (ratelimit.ResetRateLimit key m))
  = fst (ratelimit.IPRateLimit now clientIP m)
  /\ fst (ratelimit.UserRateLimit now userID clientIP (ratelimit.ResetRateLimit key m))
     = fst (ratelimit.UserRateLimit now userID clientIP m)
  /\ fst (ratelimit.APIRateLimit now method path userID clientIP
            (ratelimit.ResetRateLimit key m))
     = fst (ratelimit.APIRateLimit now method path userID clientIP m).
Proof.
  assert (Hcfg : ratelimit.config (ratelimit.ResetRateLimit key m) = ratelimit.config m)
    by reflexivity.
  split; [|split].
  - unfold ratelimit.IPRateLimit. rewrite Hcfg, ResetRateLimit_limiters.
    destruct (negb _); [reflexivity|].
    destruct (ratelimit.limiters m !! "ip") as [l|]; [|reflexivity].
    cbn [fmap option_fmap option_map]. rewrite !allowWith_fst.
    apply reset_keeps_client. by apply (append_longer "ip" (":" ++ clientIP)).
  - unfold ratelimit.UserRateLimit. rewrite Hcfg, ResetRateLimit_limiters.
    destruct (negb _); [reflexivity|].
    destruct (ratelimit.limiters m !! "user") as [l|]; [|reflexivity].
    cbn [fmap option_fmap option_map].
    destruct userID as [u|]; rewrite !allowWith_fst; apply reset_keeps_client.
    + by apply (append_longer "user" (":" ++ u)).
    + by apply (append_longer "user" (":anonymous:" ++ clientIP)).
  - unfold ratelimit.APIRateLimit. rewrite Hcfg.
    destruct (negb _); [reflexivity|].
    destruct (ratelimit.APILimit (ratelimit.config m) !! path) as [rule|]; [|reflexivity].
    unfold ratelimit.getOrCreateAPILimiter. rewrite ResetRateLimit_limiters.
    destruct (ratelimit.limiters m !! ratelimit.apiLimiterKey method path) as [l|];
      cbn [fmap option_fmap option_map]; rewrite !allowWith_fst; [|reflexivity].
    apply reset_keeps_client.
    unfold ratelimit.apiRateLimitKey.
    destruct userID as [u|]; by apply append_longer.
Qed.

(* ===================================================================== *)
(** * Properties of the configuration *)
(* ===================================================================== *)

Section DefaultsFacts.
Import config.

Lemma orZ_idem (x d : Z) : orZ (orZ x d) d = orZ x d.
Proof.
  unfold orZ. destruct (Z.eqb_spec x 0) as [->|Hx].
  - by destruct (d =? 0).
  - by destruct (Z.eqb_spec x 0).
Qed.

Lemma orString_idem (x d : string) : orString (orString x d) d = orString x d.
Proof.
  unfold orString. destruct (String.eqb_spec x "") as [->|Hx].
  - by destruct (String.eqb d "").
  - by destruct (String.eqb_spec x "").
Qed.

Lemma orList_idem (x d : list string) : orList (orList x d) d = orList x d.
Proof. unfold orList. destruct x as [|a x]; cbn; [by destruct d|reflexivity]. Qed.

Lemma orTrue_true (x : bool) : orTrue x = true.
Proof. by destruct x. Qed.

Lemma orZ_cases (x d : Z) : (x = 0 /\ orZ x d = d) \/ (x <> 0 /\ orZ x d = x).
Proof. unfold orZ. destruct (Z.eqb_spec x 0); auto. Qed.

Lemma orString_nonempty (x d : string) : d <> "" -> orString x d <> "".
Proof. unfold orString. by destruct (String.eqb_spec x ""). Qed.

Lemma orList_nonempty (x d : list string) : d <> [] -> orList x d <> [].
Proof. unfold orList. by destruct x. Qed.

(** When does [validate] accept? *)
Lemma validate_None (c : Config) :
  validate c = None
  <-> 0 < Port (App c) <= 65535
      /\ Secret (JWT c) <> ""
      /\ (ratelimit.Enabled (RateLimit c) = true ->
          0 < ratelimit.GlobalLimit (RateLimit c)
          /\ 0 <= ratelimit.Requests (ratelimit.IPLimit (RateLimit c))
          /\ 0 <= ratelimit.Requests (ratelimit.UserLimit (RateLimit c))).
Proof.
  unfold validate. rewrite Z.gtb_ltb.
  destruct (Z.leb_spec (Port (App c)) 0) as [Hp|Hp]; cbn [orb].
  { split; [discriminate|]. intros [? _]. lia. }
  destruct (Z.ltb_spec 65535 (Port (App c))) as [Hq|Hq].
  { split; [discriminate|]. intros [? _]. lia. }
  destruct (String.eqb_spec (Secret (JWT c)) "") as [Hs|Hs].
  { split; [discriminate|]. by intros (_ & ? & _). }
  destruct (ratelimit.Enabled (RateLimit c)).
  - destruct (Z.leb_spec (ratelimit.GlobalLimit (RateLimit c)) 0) as [Hg|Hg].
    { split; [discriminate|]. intros (_ & _ & H). specialize (H eq_refl). lia. }
    destruct (Z.ltb_spec (ratelimit.Requests (ratelimit.IPLimit (RateLimit c))) 0) as [Hi|Hi].
    { split; [discriminate|]. intros (_ & _ & H). specialize (H eq_refl). lia. }
    destruct (Z.ltb_spec (ratelimit.Requests (ratelimit.UserLimit (RateLimit c))) 0) as [Hu|Hu].
    { split; [discriminate|]. intros (_ & _ & H). specialize (H eq_refl). lia. }
    split; [|reflexivity]. intros _. repeat split; try assumption; lia.
  - split; [|reflexivity]. intros _. repeat split; try assumption; try lia; discriminate.
Qed.

(** What [validate] answers after [setDefaults]. *)
Lemma validate_setDefaults (c : Config) :
  validate (setDefaults c) = None
  <-> 0 <= Port (App c) <= 65535
      /\ (ratelimit.Enabled (RateLimit c) = true ->
          0 <= ratelimit.GlobalLimit (RateLimit c)
          /\ 0 <= ratelimit.Requests (ratelimit.IPLimit (RateLimit c))
          /\ 0 <= ratelimit.Requests (ratelimit.UserLimit (RateLimit c))).
Proof.
  rewrite validate_None. unfold setDefaults.
  cbn [App Port JWT Secret RateLimit ratelimit.Enabled ratelimit.GlobalLimit
       ratelimit.IPLimit ratelimit.UserLimit ratelimit.Requests].
  pose proof (orString_nonempty (Secret (JWT c)) "your-secret-key") as Hs.
  destruct (orZ_cases (Port (App c)) 8080) as [[Hp ->]|[Hp ->]];
    destruct (orZ_cases (ratelimit.GlobalLimit (RateLimit c)) 1000) as [[Hg ->]|[Hg ->]];
    destruct (orZ_cases (ratelimit.Requests (ratelimit.IPLimit (RateLimit c))) 100)
      as [[Hi ->]|[Hi ->]];
    destruct (orZ_cases (ratelimit.Requests (ratelimit.UserLimit (RateLimit c))) 200)
      as [[Hu ->]|[Hu ->]];
    (split;
     [ intros (H1 & _ & H2); split; [lia|]; intros He; specialize (H2 He); lia
     | intros (H1 & H2); split; [lia|]; split; [by apply Hs|];
       intros He; specialize (H2 He); lia ]).
Qed.

End DefaultsFacts.

(** X6.  [Load] accepts a configuration exactly when its port is in
    0..65535 (0 stands for 8080) and, with rate limiting enabled, none of
    the three request counts is negative; and it never fails for a
    missing JWT secret, which [setDefaults] has replaced before
    [validate] looks at it. *)
Theorem X6_load_accepts (c : config.Config) (now : Z) :
  ((exists cfg, config.Load c now = inl cfg)
   <-> 0 <= config.Port (config.App c) <= 65535
       /\ (ratelimit.Enabled (config.RateLimit c) = true ->
           0 <= ratelimit.GlobalLimit (config.RateLimit c)
           /\ 0 <= ratelimit.Requests (ratelimit.IPLimit (config.RateLimit c))
           /\ 0 <= ratelimit.Requests (ratelimit.UserLimit (config.RateLimit c))))
  /\ config.Load c now <> inr "invalid config: JWT secret is required".
Proof.
  split.
  - rewrite <- validate_setDefaults. unfold config.Load.
    destruct (config.validate (config.setDefaults c)) as [err|].
    + split; [by intros [cfg [=]]|discriminate].
    + split; [reflexivity|]. intros _. eauto.
  - unfold config.Load, config.validate.
    assert (Hs : String.eqb (config.Secret (config.JWT (config.setDefaults c))) "" = false).
    { apply String.eqb_neq. by apply orString_nonempty. }
    rewrite Hs.
    repeat match goal with
           | |- context [if ?b then _ else _] => destruct b
           end; discriminate.
Qed.

(** X7.  [setDefaults] is idempotent: a configuration that has its
    defaults is left as it is. *)
Theorem X7_setDefaults_idempotent (c : config.Config) :
  config.setDefaults (config.setDefaults c) = config.setDefaults c.
Proof.
  unfold config.setDefaults. cbn.
  by rewrite !orZ_idem, !orString_idem, !orList_idem, !orTrue_true.
Qed.

(** X8.  What a loaded configuration guarantees, whatever the file said:
    a port in 1..65535, a JWT secret, the start time, CORS lists with an
    entry, and XSS and SQL injection protection switched on; and with rate
    limiting enabled, request counts of at least one for the global, IP
    and user scopes and IP and user windows other than zero. *)
Theorem X8_loaded_configuration (c cfg : config.Config) (now : Z) :
  config.Load c now = inl cfg ->
  1 <= config.Port (config.App cfg) <= 65535
  /\ config.Secret (config.JWT cfg) <> ""
  /\ config.StartTime (config.App cfg) = now
  /\ config.AllowedOrigins (config.CORS cfg) <> []
  /\ config.AllowedMethods (config.CORS cfg) <> []
  /\ config.AllowedHeaders (config.CORS cfg) <> []
  /\ config.XSSEnabled (config.XSS (config.Security cfg)) = true
  /\ config.SQLInjectionEnabled (config.SQLInjection (config.Security cfg)) = true
  /\ (ratelimit.Enabled (config.RateLimit cfg) = true ->
      1 <= ratelimit.GlobalLimit (config.RateLimit cfg)
      /\ 1 <= ratelimit.Requests (ratelimit.IPLimit (config.RateLimit cfg))
      /\ 1 <= ratelimit.Requests (ratelimit.UserLimit (config.RateLimit cfg))
      /\ ratelimit.Window (ratelimit.IPLimit (config.RateLimit cfg)) <> 0
      /\ ratelimit.Window (ratelimit.UserLimit (config.RateLimit cfg)) <> 0).
Proof.
  unfold config.Load.
  destruct (config.validate (config.setDefaults c)) as [err|] eqn:Hv; [discriminate|].
  intros [= <-].
  apply validate_setDefaults in Hv as (Hp & Hr).
  unfold config.setDefaults, config.withStartTime.
  cbn [config.App config.Port config.JWT config.Secret config.StartTime config.CORS
       config.AllowedOrigins config.AllowedMethods config.AllowedHeaders
       config.Security config.XSS config.XSSEnabled config.SQLInjection
       config.SQLInjectionEnabled config.RateLimit ratelimit.Enabled
       ratelimit.GlobalLimit ratelimit.IPLimit ratelimit.UserLimit
       ratelimit.Requests ratelimit.Window].
  rewrite !orTrue_true.
  split; [destruct (orZ_cases (config.Port (config.App c)) 8080) as [[? ->]|[? ->]]; lia|].
  split; [by apply orString_nonempty|].
  split; [reflexivity|].
  split; [by apply orList_nonempty|].
  split; [by apply orList_nonempty|].
  split; [by apply orList_nonempty|].
  split; [reflexivity|]. split; [reflexivity|].
  intros He. specialize (Hr He).
  destruct (orZ_cases (ratelimit.GlobalLimit (config.RateLimit c)) 1000) as [[? ->]|[? ->]];
    destruct (orZ_cases (ratelimit.Requests (ratelimit.IPLimit (config.RateLimit c))) 100)
      as [[? ->]|[? ->]];
    destruct (orZ_cases (ratelimit.Requests (ratelimit.UserLimit (config.RateLimit c))) 200)
      as [[? ->]|[? ->]];
    destruct (orZ_cases (ratelimit.Window (ratelimit.IPLimit (config.RateLimit c)))
                config.Minute) as [[? ->]|[? ->]];
    destruct (orZ_cases (ratelimit.Window (ratelimit.UserLimit (config.RateLimit c)))
                config.Minute) as [[? ->]|[? ->]];
    repeat split; try lia; try assumption; try discriminate.
Qed.

Lemma X8_loaded_configuration_witness :
  exists cfg : config.Config,
    config.Load Scenario.bareFile 42 = inl cfg
    /\ config.XSSEnabled (config.XSS (config.Security cfg)) = true
    /\ config.StartTime (config.App cfg) = 42.
Proof.
  eexists. split; [vm_compute; reflexivity|].
  match goal with
  | |- context [config.XSS (config.Security ?cfg)] =>
      destruct (X8_loaded_configuration Scenario.bareFile cfg 42)
        as (_ & _ & H3 & _ & _ & _ & H7 & _)
  end; [vm_compute; reflexivity|].
  split; [exact H7|exact H3].
Defined.

(** X9.  From a loaded configuration with rate limiting enabled,
    [NewRateLimitMiddleware] always builds the three limiters (global,
    "ip", "user"), each with a limit of at least one: the branches that
    leave out the IP or the user limiter are never taken, a count of zero
    in the file having been replaced by 100 or 200. *)
Theorem X9_loaded_middleware_has_three_limiters (c cfg : config.Config) (now : Z) :
  config.Load c now = inl cfg ->
  ratelimit.Enabled (config.RateLimit cfg) = true ->
  let m := ratelimit.NewRateLimitMiddleware (config.RateLimit cfg) in
  exists g ipl ul : ratelimit.MemoryRateLimiter,
    ratelimit.globalLimiter m = Some g
    /\ ratelimit.limiters m !! "ip" = Some ipl
    /\ ratelimit.limiters m !! "user" = Some ul
    /\ 1 <= ratelimit.limit g /\ 1 <= ratelimit.limit ipl /\ 1 <= ratelimit.limit ul
    /\ ratelimit.limit ipl
       = (if ratelimit.Requests (ratelimit.IPLimit (config.RateLimit c)) =? 0 then 100
          else ratelimit.Requests (ratelimit.IPLimit (config.RateLimit c)))
    /\ ratelimit.limit ul
       = (if ratelimit.Requests (ratelimit.UserLimit (config.RateLimit c)) =? 0 then 200
          else ratelimit.Requests (ratelimit.UserLimit (config.RateLimit c))).
Proof.
  unfold config.Load.
  destruct (config.validate (config.setDefaults c)) as [err|] eqn:Hv; [discriminate|].
  intros [= <-] He.
  apply validate_setDefaults in Hv as (_ & Hr).
  change (ratelimit.Enabled (config.RateLimit c) = true) in He.
  specialize (Hr He). cbn zeta.
  unfold ratelimit.NewRateLimitMiddleware.
  change (config.RateLimit (config.withStartTime now (config.setDefaults c)))
    with (config.RateLimit (config.setDefaults c)).
  unfold config.setDefaults.
  cbn [config.RateLimit ratelimit.Enabled ratelimit.GlobalLimit ratelimit.IPLimit
       ratelimit.UserLimit ratelimit.Requests ratelimit.Window].
  rewrite He.
  fold (config.orZ (ratelimit.Requests (ratelimit.IPLimit (config.RateLimit c))) 100).
  fold (config.orZ (ratelimit.Requests (ratelimit.UserLimit (config.RateLimit c))) 200).
  set (ip := config.orZ (ratelimit.Requests (ratelimit.IPLimit (config.RateLimit c))) 100).
  set (us := config.orZ (ratelimit.Requests (ratelimit.UserLimit (config.RateLimit c))) 200).
  set (gl := config.orZ (ratelimit.GlobalLimit (config.RateLimit c)) 1000).
  assert (Hip : 1 <= ip).
  { subst ip. destruct (orZ_cases (ratelimit.Requests (ratelimit.IPLimit (config.RateLimit c)))
                          100) as [[? ->]|[? ->]]; lia. }
  assert (Hus : 1 <= us).
  { subst us. destruct (orZ_cases (ratelimit.Requests (ratelimit.UserLimit (config.RateLimit c)))
                          200) as [[? ->]|[? ->]]; lia. }
  assert (Hgl : 1 <= gl).
  { subst gl. destruct (orZ_cases (ratelimit.GlobalLimit (config.RateLimit c)) 1000)
      as [[? ->]|[? ->]]; lia. }
  assert ((ip >? 0) = true) as -> by (rewrite Z.gtb_ltb; apply Z.ltb_lt; lia).
  assert ((us >? 0) = true) as -> by (rewrite Z.gtb_ltb; apply Z.ltb_lt; lia).
  eexists _, _, _. cbn [ratelimit.globalLimiter ratelimit.limiters].
  split; [reflexivity|].
  split; [rewrite lookup_insert_ne by discriminate; apply lookup_insert_eq|].
  split; [apply lookup_insert_eq|].
  cbn [ratelimit.limit ratelimit.NewMemoryRateLimiter]. repeat split; assumption || reflexivity.
Qed.

Lemma X9_loaded_middleware_has_three_limiters_witness :
  exists (cfg : config.Config) (ipl : ratelimit.MemoryRateLimiter),
    config.Load Scenario.bareFile 42 = inl cfg
    /\ ratelimit.limiters (ratelimit.NewRateLimitMiddleware (config.RateLimit cfg)) !! "ip"
       = Some ipl
    /\ ratelimit.limit ipl = 100.
Proof.
  destruct (X9_loaded_middleware_has_three_limiters Scenario.bareFile
              (config.withStartTime 42 (config.setDefaults Scenario.bareFile)) 42)
    as (g & ipl & ul & _ & Hip & _ & _ & _ & _ & Hl & _);
    [vm_compute; reflexivity | reflexivity |].
  exists (config.withStartTime 42 (config.setDefaults Scenario.bareFile)), ipl.
  split; [vm_compute; reflexivity|]. split; [exact Hip|exact Hl].
Defined.

(* ===================================================================== *)
(** * Further properties of the service registry *)
(* ===================================================================== *)

Section DeregisterFacts.
Import discovery discovery.monad.

Ltac unfold_M :=
  unfold mbind, M_bind, bind, mret, M_ret, ret, get, modify in *.

Lemma withMutex_unlock (d : InMemoryDiscovery) (m : RWMutex) :
  mutex d = Free 0 -> withMutex (Free 0) (withMutex m d) = d.
Proof. destruct d as [h sv w c mu]. cbn. by intros ->. Qed.

(** No service holds the id: the loop of [Deregister] finds nothing. *)
Lemma findService_None (serviceID : string) (svcs : gmap string (gmap string loc)) :
  findService serviceID svcs = None
  <-> forall s instances, svcs !! s = Some instances -> instances !! serviceID = None.
Proof.
  unfold findService. split.
  - intros Hf s instances Hs.
    pose proof (find_none _ _ Hf (s, instances)) as Hn. cbn in Hn.
    destruct (instances !! serviceID) eqn:Hi; [|reflexivity].
    rewrite bool_decide_eq_false in Hn. destruct Hn; [|eauto].
    apply list_elem_of_In. by apply elem_of_map_to_list.
  - intros Hall.
    destruct (List.find _ _) as [[s instances]|] eqn:Hf; [|reflexivity].
    apply findService_Some in Hf as [Hs [q Hq]].
    rewrite (Hall s instances Hs) in Hq. discriminate Hq.
Qed.

(** One service holds the id: the loop finds that one. *)
Lemma findService_unique (serviceID : string) (svcs : gmap string (gmap string loc))
      (s : string) (instances : gmap string loc) :
  svcs !! s = Some instances ->
  is_Some (instances !! serviceID) ->
  (forall s' instances', s' <> s -> svcs !! s' = Some instances' ->
                         instances' !! serviceID = None) ->
  findService serviceID svcs = Some (s, instances).
Proof.
  intros Hs Hi Hother.
  destruct (findService serviceID svcs) as [[s' instances']|] eqn:Hf.
  - apply findService_Some in Hf as [Hs' [q Hq]].
    destruct (decide (s' = s)) as [->|Hne]; [congruence|].
    rewrite (Hother s' instances' Hne Hs') in Hq. discriminate Hq.
  - destruct Hi as [q Hq].
    rewrite findService_None in Hf. rewrite (Hf s instances Hs) in Hq. discriminate Hq.
Qed.

(** [Deregister], once the loop has found a service. *)
Lemma Deregister_run (serviceID : string) (d : InMemoryDiscovery)
      (s : string) (instances : gmap string loc) :
  mutex d = Free 0 ->
  findService serviceID (services d) = Some (s, instances) ->
  Deregister serviceID d
  = match watchers d !! s with
    | Some _ => Blocks
    | None => Returns None (withServices (<[s := delete serviceID instances]> (services d)) d)
    end.
Proof.
  intros Hm Hf. unfold Deregister, Lock, Unlock. unfold_M. rewrite Hm.
  cbn [services withMutex]. rewrite Hf.
  rewrite notifyWatchers_locked by reflexivity.
  cbn [watchers withServices withMutex].
  destruct (watchers d !! s); [reflexivity|].
  destruct d as [h sv w c mu]. cbn in Hm |- *. by subst mu.
Qed.

Lemma Deregister_missing (serviceID : string) (d : InMemoryDiscovery) :
  mutex d = Free 0 ->
  findService serviceID (services d) = None ->
  Deregister serviceID d = Returns (Some (ErrInstanceNotFound serviceID)) d.
Proof.
  intros Hm Hf. unfold Deregister, Lock, Unlock. unfold_M. rewrite Hm.
  cbn [services withMutex]. rewrite Hf. by rewrite withMutex_unlock.
Qed.

(** [checkInstanceHealth] on a registry nobody holds the lock of. *)
Lemma checkInstanceHealth_run (now : Z) (serviceName : string) (p : loc)
      (i : ServiceInstance) (d : InMemoryDiscovery) :
  mutex d = Free 0 ->
  heap d !! p = Some i ->
  checkInstanceHealth now serviceName p d
  = if String.eqb (Health i) HealthStatusHealthy
    then Returns tt (withHeap (<[p := setLastSeen now (setHealth HealthStatusHealthy i)]>
                                 (heap d)) d)
    else match watchers d !! serviceName with
         | Some _ => Blocks
         | None =>
             Returns tt (withHeap (<[p := setLastSeen now (setHealth HealthStatusHealthy i)]>
                                     (heap d)) d)
         end.
Proof.
  intros Hm Hp. unfold checkInstanceHealth, simulateHealthCheck, Lock, Unlock, deref.
  unfold_M. rewrite Hm. cbn [heap withMutex]. rewrite Hp.
  cbn [Health setLastSeen setHealth].
  destruct d as [h sv w c mu]. cbn in Hm, Hp |- *. subst mu.
  destruct (String.eqb (Health i) HealthStatusHealthy); cbn [negb].
  - reflexivity.
  - rewrite notifyWatchers_locked by reflexivity. cbn.
    by destruct (w !! serviceName).
Qed.

End DeregisterFacts.

(** X10.  [Deregister] of an instance id that no service holds answers
    with the not-found error and leaves the registry as it was, lock
    included; [Handler.DeregisterService] turns this into the status 500.
    The error is answered in no other case. *)
Theorem X10_deregister_unknown_id (serviceID : string) (d : discovery.InMemoryDiscovery) :
  discovery.mutex d = discovery.Free 0 ->
  ((forall s, discovery.stored d s serviceID = None) ->
   discovery.Deregister serviceID d
   = discovery.Returns (Some (discovery.ErrInstanceNotFound serviceID)) d
   /\ handler.DeregisterService serviceID d
      = discovery.Returns (handler.mkReply 500 "error" "Failed to deregister service") d)
  /\ (forall e d',
        discovery.Deregister serviceID d = discovery.Returns (Some e) d' ->
        forall s, discovery.stored d s serviceID = None).
Proof.
  intros Hm. split.
  - intros Hnone.
    assert (Hf : discovery.findService serviceID (discovery.services d) = None).
    { apply findService_None. intros s instances Hs.
      specialize (Hnone s). unfold discovery.stored in Hnone. by rewrite Hs in Hnone. }
    pose proof (Deregister_missing serviceID d Hm Hf) as HD.
    split; [exact HD|].
    unfold handler.DeregisterService, mbind, discovery.monad.M_bind, discovery.bind.
    by rewrite HD.
  - intros e d' HD s.
    destruct (discovery.findService serviceID (discovery.services d))
      as [[s0 instances]|] eqn:Hf.
    + rewrite (Deregister_run serviceID d s0 instances Hm Hf) in HD.
      destruct (discovery.watchers d !! s0); discriminate HD.
    + rewrite findService_None in Hf. unfold discovery.stored.
      destruct (discovery.services d !! s) as [instances|] eqn:Hs; [|reflexivity].
      by apply (Hf s).
Qed.

Lemma X10_deregister_unknown_id_witness :
  handler.DeregisterService "" Scenario.orderRegistry
  = discovery.Returns (handler.mkReply 500 "error" "Failed to deregister service")
                      Scenario.orderRegistry.
Proof.
  destruct (X10_deregister_unknown_id "" Scenario.orderRegistry eq_refl) as [H _].
  apply H. intros s. unfold discovery.stored.
  destruct (decide (s = "order-svc")) as [->|Hne]; [vm_compute; reflexivity|].
  unfold Scenario.orderRegistry, discovery.registered. cbn [discovery.services].
  rewrite lookup_insert_ne by (cbn; congruence). reflexivity.
Defined.

(** X11.  Registering an instance and deregistering its id again, when
    no other service holds the id and nobody watches the service: both
    calls succeed, the id is gone, every other entry is as before, and the
    service name stays known, so that [Discover] and [GetService] answer
    with a list (the empty one if the service was unknown before) and no
    longer with "service not found". *)
Theorem X11_register_then_deregister
        (now : Z) (p : discovery.loc) (i : discovery.ServiceInstance)
        (d : discovery.InMemoryDiscovery) :
  discovery.mutex d = discovery.Free 0 ->
  discovery.heap d !! p = Some i ->
  discovery.watchers d !! discovery.Name i = None ->
  (forall s, s <> discovery.Name i -> discovery.stored d s (discovery.ID i) = None) ->
  exists d1 d2 : discovery.InMemoryDiscovery,
    discovery.Register now p d = discovery.Returns None d1
    /\ discovery.Deregister (discovery.ID i) d1 = discovery.Returns None d2
    /\ discovery.stored d2 (discovery.Name i) (discovery.ID i) = None
    /\ (forall s serviceID,
          (s, serviceID) <> (discovery.Name i, discovery.ID i) ->
          discovery.stored d2 s serviceID = discovery.stored d s serviceID)
    /\ is_Some (discovery.services d2 !! discovery.Name i)
    /\ exists ps : list discovery.loc,
        discovery.Discover (discovery.Name i) d2 = discovery.Returns (inl ps) d2
        /\ handler.GetService (discovery.Name i) d2 = discovery.Returns (inr ps) d2
        /\ (discovery.services d !! discovery.Name i = None -> ps = []).
Proof.
  intros Hm Hp Hw Hother.
  pose proof (Register_run now p i d Hm Hp) as HR. rewrite Hw in HR.
  set (d1 := discovery.registered now p i d) in *.
  set (insts0 := default ∅ (discovery.services d !! discovery.Name i)).
  assert (Hs1 : discovery.services d1 !! discovery.Name i
                = Some (<[discovery.ID i := p]> insts0)).
  { unfold d1, discovery.registered. cbn. apply lookup_insert_eq. }
  assert (Hf : discovery.findService (discovery.ID i) (discovery.services d1)
               = Some (discovery.Name i, <[discovery.ID i := p]> insts0)).
  { apply findService_unique; [exact Hs1|by rewrite lookup_insert_eq|].
    intros s' instances' Hne Hs'. unfold d1, discovery.registered in Hs'. cbn in Hs'.
    rewrite lookup_insert_ne in Hs' by congruence.
    specialize (Hother s' Hne). unfold discovery.stored in Hother. by rewrite Hs' in Hother. }
  pose proof (Deregister_run (discovery.ID i) d1 _ _ eq_refl Hf) as HD.
  change (discovery.watchers d1) with (discovery.watchers d) in HD. rewrite Hw in HD.
  set (d2 := discovery.withServices _ d1) in HD.
  assert (Hs2 : discovery.services d2 !! discovery.Name i
                = Some (delete (discovery.ID i) (<[discovery.ID i := p]> insts0))).
  { unfold d2. cbn. apply lookup_insert_eq. }
  exists d1, d2. split; [exact HR|]. split; [exact HD|].
  split; [|split; [|split]].
  - unfold discovery.stored. rewrite Hs2. apply lookup_delete_eq.
  - intros s serviceID Hne. unfold discovery.stored.
    destruct (decide (s = discovery.Name i)) as [->|Hs].
    + rewrite Hs2.
      assert (serviceID <> discovery.ID i) by congruence.
      rewrite lookup_delete_ne, lookup_insert_ne by congruence.
      unfold insts0. by destruct (discovery.services d !! discovery.Name i).
    + unfold d2, d1, discovery.registered. cbn.
      by rewrite !lookup_insert_ne by congruence.
  - rewrite Hs2. eauto.
  - pose proof (Discover_run (discovery.Name i) d2 0 eq_refl) as HDisc.
    rewrite Hs2 in HDisc. eexists. split; [exact HDisc|]. split.
    + unfold handler.GetService, mbind, discovery.monad.M_bind, discovery.bind.
      by rewrite HDisc.
    + intros Hnone. unfold insts0. rewrite Hnone. cbn [default].
      rewrite delete_insert_eq, delete_empty, map_to_list_empty. reflexivity.
Qed.

Lemma X11_register_then_deregister_witness :
  exists d2 : discovery.InMemoryDiscovery,
    (discovery.Register 7 1%positive;; discovery.Deregister "test-instance-1")
      (discovery.withHeap {[ 1%positive := Scenario.testInstance ]} discovery.New)
    = discovery.Returns None d2
    /\ discovery.Discover "test-service" d2 = discovery.Returns (inl []) d2.
Proof.
  destruct (X11_register_then_deregister 7 1%positive Scenario.testInstance
              (discovery.withHeap {[ 1%positive := Scenario.testInstance ]} discovery.New))
    as (d1 & d2 & HR & HD & _ & _ & _ & ps & HDisc & _ & Hps);
    [reflexivity | vm_compute; reflexivity | reflexivity | intros s _; reflexivity |].
  exists d2. split.
  - unfold mbind, discovery.monad.M_bind, discovery.bind. rewrite HR. exact HD.
  - rewrite Hps in HDisc by reflexivity. exact HDisc.
Defined.

(** X12.  [Deregister] waits for ever, as [Register] does, when the
    service it finds the id under is watched: it calls [notifyWatchers]
    with the write lock held. *)
Theorem X12_deregister_blocks_when_service_is_watched
        (serviceID : string) (d : discovery.InMemoryDiscovery) (s : string)
        (p : discovery.loc) :
  discovery.mutex d = discovery.Free 0 ->
  discovery.stored d s serviceID = Some p ->
  (forall s', is_Some (discovery.stored d s' serviceID) ->
              is_Some (discovery.watchers d !! s')) ->
  discovery.Deregister serviceID d = discovery.Blocks.
Proof.
  intros Hm Hst Hw.
  destruct (discovery.findService serviceID (discovery.services d))
    as [[s0 instances]|] eqn:Hf.
  - rewrite (Deregister_run serviceID d s0 instances Hm Hf).
    apply findService_Some in Hf as [Hs0 Hi0].
    destruct (Hw s0) as [ws ->]; [|reflexivity].
    unfold discovery.stored. by rewrite Hs0.
  - rewrite findService_None in Hf. unfold discovery.stored in Hst.
    destruct (discovery.services d !! s) as [instances|] eqn:Hs; [|discriminate Hst].
    rewrite (Hf s instances Hs) in Hst. discriminate Hst.
Qed.

Lemma X12_deregister_blocks_when_service_is_watched_witness :
  (discovery.Register 7 1%positive;;
   discovery.Watch "test-service";;
   discovery.Deregister "test-instance-1")
    (discovery.withHeap {[ 1%positive := Scenario.testInstance ]} discovery.New)
  = discovery.Blocks.
Proof.
  pose (d1 := discovery.registered 7 1%positive Scenario.testInstance
                (discovery.withHeap {[ 1%positive := Scenario.testInstance ]}
                   discovery.New)).
  assert (HR : discovery.Register 7 1%positive
                 (discovery.withHeap {[ 1%positive := Scenario.testInstance ]}
                    discovery.New) = discovery.Returns None d1)
    by (vm_compute; reflexivity).
  unfold mbind, discovery.monad.M_bind, discovery.bind. rewrite HR.
  destruct (discovery.Watch "test-service" d1) as [ch d2| |] eqn:HW;
    [|reflexivity|vm_compute in HW; discriminate HW].
  apply (Watch_returns "test-service" d1 ch d2 eq_refl) in HW as (Hm2 & Hs2 & _ & Hw2).
  apply (X12_deregister_blocks_when_service_is_watched "test-instance-1" d2 "test-service"
           1%positive Hm2).
  - unfold discovery.stored. rewrite Hs2. vm_compute. reflexivity.
  - intros s'. unfold discovery.stored. rewrite Hs2.
    destruct (decide (s' = "test-service")) as [->|Hne]; [by intros _|].
    unfold d1, discovery.registered. cbn [discovery.services].
    rewrite lookup_insert_ne by (cbn; congruence). cbn. by intros [? ?].
Defined.

(** X13.  The health probe cannot fail, so [checkInstanceHealth] marks
    the instance healthy, whatever its health was, and stamps it with the
    time of the check; from then on [Discover] lists it under every
    service that holds it.  The call returns when the instance was healthy
    already or nobody watches the service; an instance that was not
    healthy, under a watched service, makes it wait for ever. *)
Theorem X13_health_check_marks_the_instance_healthy
        (now : Z) (serviceName : string) (p : discovery.loc)
        (i : discovery.ServiceInstance) (d : discovery.InMemoryDiscovery) :
  discovery.mutex d = discovery.Free 0 ->
  discovery.heap d !! p = Some i ->
  (discovery.watchers d !! serviceName = None
   \/ discovery.Health i = discovery.HealthStatusHealthy ->
   exists d' : discovery.InMemoryDiscovery,
     discovery.checkInstanceHealth now serviceName p d = discovery.Returns tt d'
     /\ discovery.heap d' !! p
        = Some (discovery.setLastSeen now
                  (discovery.setHealth discovery.HealthStatusHealthy i))
     /\ (forall q, q <> p -> discovery.heap d' !! q = discovery.heap d !! q)
     /\ discovery.services d' = discovery.services d
     /\ (forall s serviceID,
           discovery.stored d s serviceID = Some p ->
           exists ps, discovery.Discover s d' = discovery.Returns (inl ps) d' /\ p ∈ ps))
  /\ (discovery.Health i <> discovery.HealthStatusHealthy ->
      is_Some (discovery.watchers d !! serviceName) ->
      discovery.checkInstanceHealth now serviceName p d = discovery.Blocks).
Proof.
  intros Hm Hp.
  pose proof (checkInstanceHealth_run now serviceName p i d Hm Hp) as HC.
  split.
  - intros Hcase.
    set (d' := discovery.withHeap
                 (<[p := discovery.setLastSeen now
                           (discovery.setHealth discovery.HealthStatusHealthy i)]>
                    (discovery.heap d)) d) in *.
    assert (HR : discovery.checkInstanceHealth now serviceName p d = discovery.Returns tt d').
    { rewrite HC. destruct Hcase as [Hw|Hh].
      - rewrite Hw. by destruct (String.eqb _ _).
      - by rewrite Hh. }
    exists d'. split; [exact HR|]. split; [apply lookup_insert_eq|].
    split; [by intros q Hq; apply lookup_insert_ne|]. split; [reflexivity|].
    intros s serviceID Hst.
    assert (Hm' : discovery.mutex d' = discovery.Free 0) by exact Hm.
    rewrite (Discover_run s d' 0 Hm').
    unfold discovery.stored in Hst. change (discovery.services d') with (discovery.services d).
    destruct (discovery.services d !! s) as [instances|]; [|discriminate Hst].
    eexists. split; [reflexivity|].
    apply elem_of_healthy.
    exists serviceID, (discovery.setLastSeen now
                         (discovery.setHealth discovery.HealthStatusHealthy i)).
    split; [exact Hst|]. split; [apply lookup_insert_eq|reflexivity].
  - intros Hh [ws Hw]. rewrite HC, Hw.
    apply String.eqb_neq in Hh. by rewrite Hh.
Qed.

Lemma X13_health_check_marks_the_instance_healthy_witness :
  exists d' : discovery.InMemoryDiscovery,
    (discovery.Register 7 1%positive;;
     discovery.checkInstanceHealth 9 "test-service" 1%positive)
      (discovery.withHeap {[ 1%positive := Scenario.unhealthyInstance ]} discovery.New)
    = discovery.Returns tt d'
    /\ discovery.Discover "test-service" d' = discovery.Returns (inl [1%positive]) d'.
Proof.
  pose (d1 := discovery.registered 7 1%positive Scenario.unhealthyInstance
                (discovery.withHeap {[ 1%positive := Scenario.unhealthyInstance ]}
                   discovery.New)).
  destruct (X13_health_check_marks_the_instance_healthy 9 "test-service" 1%positive
              (discovery.setLastSeen 7 Scenario.unhealthyInstance) d1)
    as [H _]; [reflexivity | vm_compute; reflexivity |].
  destruct H as (d' & HR & _ & _ & _ & _); [by left|].
  exists d'. split.
  - unfold mbind, discovery.monad.M_bind, discovery.bind.
    assert (H1 : discovery.Register 7 1%positive
                   (discovery.withHeap {[ 1%positive := Scenario.unhealthyInstance ]}
                      discovery.New) = discovery.Returns None d1)
      by (vm_compute; reflexivity).
    rewrite H1. exact HR.
  - assert (Hd' : discovery.checkInstanceHealth 9 "test-service" 1%positive d1
                  = discovery.Returns tt
                      (discovery.withHeap
                         (<[1%positive := discovery.setLastSeen 9
                              (discovery.setHealth discovery.HealthStatusHealthy
                                 (discovery.setLastSeen 7 Scenario.unhealthyInstance))]>
                            (discovery.heap d1)) d1))
      by (vm_compute; reflexivity).
    rewrite Hd' in HR. injection HR as <-. vm_compute. reflexivity.
Defined.

(** X14.  No change of the registry is ever sent to a watcher: whenever
    [Register], [Deregister] or [checkInstanceHealth] returns, the buffer
    of every channel is as it was before the call. *)
Theorem X14_no_change_reaches_a_watcher (d : discovery.InMemoryDiscovery) :
  (forall now p r d',
      discovery.Register now p d = discovery.Returns r d' ->
      discovery.chans d' = discovery.chans d)
  /\ (forall serviceID r d',
        discovery.Deregister serviceID d = discovery.Returns r d' ->
        discovery.chans d' = discovery.chans d)
  /\ (forall now serviceName p d',
        discovery.checkInstanceHealth now serviceName p d = discovery.Returns tt d' ->
        discovery.chans d' = discovery.chans d).
Proof.
  assert (Hcases : discovery.mutex d = discovery.Free 0
                    \/ discovery.Lock d = discovery.Blocks).
  { unfold discovery.Lock. destruct (discovery.mutex d) as [[|n]|]; auto. }
  destruct Hcases as [Hm|HL].
  - split; [|split].
    + intros now p r d' HR.
      destruct (discovery.heap d !! p) as [i|] eqn:Hp.
      * rewrite (Register_run now p i d Hm Hp) in HR.
        destruct (discovery.watchers d !! discovery.Name i); [discriminate HR|].
        by injection HR as _ <-.
      * unfold discovery.Register, discovery.Lock, discovery.deref, mbind,
          discovery.monad.M_bind, discovery.bind in HR.
        rewrite Hm in HR. cbn [discovery.heap discovery.withMutex] in HR.
        rewrite Hp in HR. discriminate HR.
    + intros serviceID r d' HD.
      destruct (discovery.findService serviceID (discovery.services d))
        as [[s instances]|] eqn:Hf.
      * rewrite (Deregister_run serviceID d s instances Hm Hf) in HD.
        destruct (discovery.watchers d !! s); [discriminate HD|].
        by injection HD as _ <-.
      * rewrite (Deregister_missing serviceID d Hm Hf) in HD. by injection HD as _ <-.
    + intros now serviceName p d' HC.
      destruct (discovery.heap d !! p) as [i|] eqn:Hp.
      * rewrite (checkInstanceHealth_run now serviceName p i d Hm Hp) in HC.
        destruct (String.eqb _ _); [by injection HC as <-|].
        destruct (discovery.watchers d !! serviceName); [discriminate HC|].
        by injection HC as <-.
      * unfold discovery.checkInstanceHealth, discovery.Lock, discovery.deref, mbind,
          discovery.monad.M_bind, discovery.bind in HC.
        rewrite Hm in HC. cbn [discovery.heap discovery.withMutex] in HC.
        rewrite Hp in HC. discriminate HC.
  - split; [|split].
    + intros now p r d'.
      unfold discovery.Register, mbind, discovery.monad.M_bind, discovery.bind.
      by rewrite HL.
    + intros serviceID r d'.
      unfold discovery.Deregister, mbind, discovery.monad.M_bind, discovery.bind.
      by rewrite HL.
    + intros now serviceName p d'.
      unfold discovery.checkInstanceHealth, mbind, discovery.monad.M_bind, discovery.bind.
      by rewrite HL.
Qed.

Lemma X14_no_change_reaches_a_watcher_witness :
  exists (r : option discovery.Error) (d' : discovery.InMemoryDiscovery),
    discovery.Register 7 1%positive
      (discovery.withHeap {[ 1%positive := Scenario.testInstance ]} discovery.New)
    = discovery.Returns r d'
    /\ discovery.chans d' = ∅.
Proof.
  eexists _, _. split; [vm_compute; reflexivity|].
  apply (proj1 (X14_no_change_reaches_a_watcher
                  (discovery.withHeap {[ 1%positive := Scenario.testInstance ]}
                     discovery.New)) 7 1%positive None).
  vm_compute. reflexivity.
Defined.

(** X15.  [Watch] makes a new channel with an empty buffer and appends it
    to the watchers of the service; the goroutine it starts then puts one
    value into the buffer, the instances [Discover] answers at that
    moment, and nothing at all when [Discover] fails because the service
    is not known. *)
Theorem X15_watch_delivers_the_first_snapshot
        (serviceName : string) (d : discovery.InMemoryDiscovery) :
  discovery.mutex d = discovery.Free 0 ->
  exists (ch : discovery.chanId) (d1 d2 : discovery.InMemoryDiscovery),
    discovery.Watch serviceName d = discovery.Returns ch d1
    /\ discovery.chans d !! ch = None
    /\ discovery.chans d1 !! ch = Some []
    /\ discovery.watchers d1 !! serviceName
       = Some (default [] (discovery.watchers d !! serviceName) ++ [ch])%list
    /\ discovery.watchFirst ch serviceName d1 = discovery.Returns tt d2
    /\ exists r, discovery.Discover serviceName d = discovery.Returns r d
                 /\ discovery.chans d2 !! ch
                    = Some match r with inl instances => [instances] | inr _ => [] end.
Proof.
  intros Hm.
  set (ch := fresh (dom (discovery.chans d))).
  set (d1 := discovery.mkInMemoryDiscovery (discovery.heap d) (discovery.services d)
               (<[serviceName := (default [] (discovery.watchers d !! serviceName)
                                  ++ [ch])%list]> (discovery.watchers d))
               (<[ch := []]> (discovery.chans d)) (discovery.Free 0)).
  assert (HW : discovery.Watch serviceName d = discovery.Returns ch d1).
  { unfold discovery.Watch, discovery.Lock, discovery.Unlock, mbind,
      discovery.monad.M_bind, discovery.bind, mret, discovery.monad.M_ret, discovery.ret,
      discovery.get, discovery.modify.
    rewrite Hm. reflexivity. }
  pose proof (Discover_run serviceName d 0 Hm) as HD.
  pose proof (Discover_run serviceName d1 0 eq_refl) as HD1.
  change (discovery.services d1) with (discovery.services d) in HD1.
  change (discovery.heap d1) with (discovery.heap d) in HD1.
  exists ch, d1.
  destruct (discovery.services d !! serviceName) as [instances|] eqn:Hs.
  - eexists. split; [exact HW|].
    split; [apply not_elem_of_dom, is_fresh|].
    split; [apply lookup_insert_eq|].
    split; [apply lookup_insert_eq|].
    split.
    + unfold discovery.watchFirst, mbind, discovery.monad.M_bind, discovery.bind.
      rewrite HD1. unfold discovery.send. cbn [discovery.chans d1].
      rewrite lookup_insert_eq. reflexivity.
    + eexists. split; [exact HD|]. cbn. apply lookup_insert_eq.
  - exists d1. split; [exact HW|].
    split; [apply not_elem_of_dom, is_fresh|].
    split; [apply lookup_insert_eq|].
    split; [apply lookup_insert_eq|].
    split.
    + unfold discovery.watchFirst, mbind, discovery.monad.M_bind, discovery.bind.
      by rewrite HD1.
    + eexists. split; [exact HD|]. cbn. apply lookup_insert_eq.
Qed.

Lemma X15_watch_delivers_the_first_snapshot_witness :
  exists (ch : discovery.chanId) (d2 : discovery.InMemoryDiscovery),
    (ch ← discovery.Watch "order-svc"; discovery.watchFirst ch "order-svc";; mret ch)
      Scenario.orderRegistry
    = discovery.Returns ch d2
    /\ discovery.chans d2 !! ch = Some [[1%positive]].
Proof.
  destruct (X15_watch_delivers_the_first_snapshot "order-svc" Scenario.orderRegistry eq_refl)
    as (ch & d1 & d2 & HW & _ & _ & _ & HF & r & HD & Hc).
  exists ch, d2. split.
  - unfold mbind, discovery.monad.M_bind, discovery.bind, mret, discovery.monad.M_ret,
      discovery.ret.
    by rewrite HW, HF.
  - assert (Hr : discovery.Discover "order-svc" Scenario.orderRegistry
                 = discovery.Returns (inl [1%positive]) Scenario.orderRegistry)
      by (vm_compute; reflexivity).
    rewrite Hr in HD. injection HD as <-. exact Hc.
Defined.

Section StartFacts.
Import discovery discovery.monad startup.

Variable clock : nat -> Z.

Ltac unfold_M :=
  unfold mbind, M_bind, bind, mret, M_ret, ret in *.

Lemma append_inv_head (a b c : string) : a ++ b = a ++ c -> b = c.
Proof.
  induction a as [|x a IH]; [done|]. rewrite !append_cons. intros [= H]. by apply IH.
Qed.

(** The id [Start] gives an instance tells the host, the service being
    known. *)
Lemma bootstrap_id_inj (s host host' : string) :
  s ++ "-" ++ host = s ++ "-" ++ host' -> host = host'.
Proof. intros H. apply append_inv_head in H. by apply (append_inv_head "-") in H. Qed.

(** One turn of the inner loop. *)
Lemma registerHost_run (t : Z) (s : string) (port : Z) (host : string)
      (d : InMemoryDiscovery) :
  mutex d = Free 0 ->
  watchers d = ∅ ->
  exists (p : loc) (d1 : InMemoryDiscovery),
    alloc (bootstrapInstance t s host port) d
    = Returns p (withHeap (<[p := bootstrapInstance t s host port]> (heap d)) d)
    /\ Register t p (withHeap (<[p := bootstrapInstance t s host port]> (heap d)) d)
       = Returns None d1
    /\ mutex d1 = Free 0
    /\ watchers d1 = ∅
    /\ (forall s' serviceID,
          (s', serviceID) <> (s, s ++ "-" ++ host) ->
          stored d1 s' serviceID = stored d s' serviceID)
    /\ booted d1 s port host p
    /\ (forall q i, heap d !! q = Some i -> heap d1 !! q = Some i)
    /\ (forall s', s' <> s -> services d1 !! s' = services d !! s').
Proof.
  intros Hm Hw.
  set (inst := bootstrapInstance t s host port).
  set (p := fresh (dom (heap d))).
  assert (Hfresh : heap d !! p = None) by apply not_elem_of_dom, is_fresh.
  set (d0 := withHeap (<[p := inst]> (heap d)) d).
  assert (HR : Register t p d0 = Returns None (registered t p inst d0)).
  { rewrite (Register_run t p inst d0 Hm); [|apply lookup_insert_eq].
    change (watchers d0) with (watchers d). by rewrite Hw, lookup_empty. }
  exists p, (registered t p inst d0).
  split; [reflexivity|]. split; [exact HR|]. split; [reflexivity|]. split; [exact Hw|].
  split; [|split; [|split]].
  - intros s' serviceID Hne. unfold stored, registered. cbn.
    change (Name inst) with s. change (ID inst) with (s ++ "-" ++ host).
    destruct (decide (s' = s)) as [->|Hs].
    + rewrite lookup_insert_eq.
      rewrite lookup_insert_ne by congruence.
      by destruct (services d !! s).
    + by rewrite lookup_insert_ne.
  - split.
    + unfold stored, registered. cbn. change (Name inst) with s.
      change (ID inst) with (s ++ "-" ++ host). by rewrite !lookup_insert_eq.
    + exists (setLastSeen t inst). split; [|by repeat split].
      unfold registered. cbn. apply lookup_insert_eq.
  - intros q i Hq. unfold registered. cbn.
    assert (q <> p) by congruence.
    by rewrite !lookup_insert_ne.
  - intros s' Hs. unfold registered. cbn. change (Name inst) with s.
    by rewrite lookup_insert_ne.
Qed.

(** The inner loop: every host of the list is registered, nothing else
    is touched. *)
Lemma registerHosts_run (s : string) (port : Z) (hosts : list string) :
  forall (k : nat) (d : InMemoryDiscovery),
    mutex d = Free 0 ->
    watchers d = ∅ ->
    exists (k' : nat) (d' : InMemoryDiscovery),
      registerHosts clock k s port hosts d = Returns k' d'
      /\ mutex d' = Free 0
      /\ watchers d' = ∅
      /\ (forall s' serviceID,
            (s' <> s \/ forall host, host ∈ hosts -> serviceID <> s ++ "-" ++ host) ->
            stored d' s' serviceID = stored d s' serviceID)
      /\ (forall s' serviceID p,
            stored d' s' serviceID = Some p ->
            stored d s' serviceID = Some p
            \/ (s' = s /\ exists host, host ∈ hosts /\ serviceID = s ++ "-" ++ host))
      /\ (forall host, host ∈ hosts -> exists p, booted d' s port host p)
      /\ (forall q i, heap d !! q = Some i -> heap d' !! q = Some i)
      /\ (forall s', s' <> s \/ hosts = [] -> services d' !! s' = services d !! s').
Proof.
  induction hosts as [|host hosts IH]; intros k d Hm Hw.
  - exists k, d. cbn. repeat split; auto. intros host Hin. by apply elem_of_nil in Hin.
  - destruct (registerHost_run (clock k) s port host d Hm Hw)
      as (p & d1 & Ha & HR & Hm1 & Hw1 & Hframe1 & Hboot1 & Hheap1 & Hsv1).
    destruct (IH (S k) d1 Hm1 Hw1)
      as (k' & d' & Hrun & Hm' & Hw' & Hframe & Honly & Hboot & Hheap & Hsv).
    exists k', d'. split.
    { cbn [registerHosts]. unfold_M. rewrite Ha, HR. exact Hrun. }
    split; [exact Hm'|]. split; [exact Hw'|]. split; [|split; [|split; [|split]]].
    + intros s' serviceID Hout.
      rewrite Hframe.
      * apply Hframe1. destruct Hout as [Hs|Hid]; [congruence|].
        intros [= -> ->]. apply (Hid host); [apply list_elem_of_here|reflexivity].
      * destruct Hout as [Hs|Hid]; [by left|]. right. intros h Hh.
        apply Hid. by apply list_elem_of_further.
    + intros s' serviceID q Hst.
      destruct (Honly s' serviceID q Hst) as [Hold|(-> & h & Hh & ->)].
      * destruct (decide ((s', serviceID) = (s, s ++ "-" ++ host))) as [[= -> ->]|Hne].
        -- right. split; [reflexivity|]. exists host. split; [apply list_elem_of_here|done].
        -- left. by rewrite <- (Hframe1 s' serviceID Hne).
      * right. split; [reflexivity|]. exists h. split; [by apply list_elem_of_further|done].
    + intros h Hh. apply elem_of_cons in Hh as [->|Hh]; [|by apply Hboot].
      destruct (decide (host ∈ hosts)) as [Hin|Hnin]; [by apply Hboot|].
      exists p. destruct Hboot1 as (Hst & i & Hi & Hrest).
      split.
      * rewrite Hframe; [exact Hst|]. right. intros h Hh Heq.
        apply bootstrap_id_inj in Heq. by subst h.
      * exists i. split; [by apply Hheap|exact Hrest].
    + intros q i Hq. by apply Hheap, Hheap1.
    + intros s' [Hs|[=]]. rewrite Hsv by (by left). by apply Hsv1.
Qed.

(** The outer loop, over services with different names. *)
Lemma registerServices_run (svcs : list (string * config.ServiceConfig)) :
  NoDup (fst <$> svcs) ->
  forall (k : nat) (d : InMemoryDiscovery),
    mutex d = Free 0 ->
    watchers d = ∅ ->
    exists (k' : nat) (d' : InMemoryDiscovery),
      registerServices clock k svcs d = Returns k' d'
      /\ mutex d' = Free 0
      /\ (forall s serviceID p,
            stored d' s serviceID = Some p ->
            stored d s serviceID = Some p
            \/ exists sc host, (s, sc) ∈ svcs /\ host ∈ config.Hosts sc
                               /\ serviceID = s ++ "-" ++ host)
      /\ (forall s,
            (forall sc, (s, sc) ∈ svcs -> config.Hosts sc = []) ->
            services d' !! s = services d !! s)
      /\ (forall s sc host,
            (s, sc) ∈ svcs -> host ∈ config.Hosts sc ->
            exists p, booted d' s (config.ServicePort sc) host p)
      /\ (forall q i, heap d !! q = Some i -> heap d' !! q = Some i).
Proof.
  induction svcs as [|[s sc] svcs IH]; intros Hnd k d Hm Hw.
  - exists k, d. cbn. repeat split; auto.
    intros s sc host Hin. by apply elem_of_nil in Hin.
  - cbn in Hnd. apply NoDup_cons in Hnd as [Hs Hnd].
    destruct (registerHosts_run s (config.ServicePort sc) (config.Hosts sc) k d Hm Hw)
      as (k1 & d1 & Hrun1 & Hm1 & Hw1 & Hframe1 & Honly1 & Hboot1 & Hheap1 & Hsv1).
    destruct (IH Hnd k1 d1 Hm1 Hw1)
      as (k' & d' & Hrun & Hm' & Honly & Hframe & Hboot & Hheap).
    exists k', d'. split.
    { cbn [registerServices]. unfold_M. rewrite Hrun1. exact Hrun. }
    split; [exact Hm'|]. split; [|split; [|split]].
    + intros s' serviceID q Hst.
      destruct (Honly s' serviceID q Hst) as [Hold|(sc' & h & Hin & Hh & ->)].
      * destruct (Honly1 s' serviceID q Hold) as [Hold1|(-> & h & Hh & ->)]; [by left|].
        right. exists sc, h. split; [apply list_elem_of_here|done].
      * right. exists sc', h. split; [by apply list_elem_of_further|done].
    + intros s' Hout.
      rewrite Hframe.
      * apply Hsv1. destruct (decide (s' = s)) as [->|Hne]; [right|by left].
        apply (Hout sc), list_elem_of_here.
      * intros sc' Hin. apply (Hout sc'). by apply list_elem_of_further.
    + intros s' sc' h Hin Hh.
      apply elem_of_cons in Hin as [[= -> ->]|Hin]; [|by apply (Hboot s' sc')].
      destruct (Hboot1 h Hh) as (p & Hst & i & Hi & Hrest).
      exists p. split.
      * unfold stored in *. rewrite Hframe; [exact Hst|]. intros sc' Hin. destruct Hs.
        apply list_elem_of_fmap. by exists (s, sc').
      * exists i. split; [by apply Hheap|exact Hrest].
    + intros q i Hq. by apply Hheap, Hheap1.
Qed.

End StartFacts.

(** X16.  [Start] on a new registry returns and registers the hosts of
    the configuration, and nothing else: every host of a configured
    service is held as a healthy instance, under the id made of the
    service name and the host, with the port of the service; every id the
    registry holds is one of these; [Discover] answers for a service with
    hosts with exactly these instances, and with "service not found" for a
    service that is not configured or has no host. *)
Theorem X16_start_registers_the_configured_hosts
        (clock : nat -> Z) (cfg : config.Config) :
  let configured := config.Services (config.Discovery cfg) in
  exists d' : discovery.InMemoryDiscovery,
    startup.Start clock cfg discovery.New = discovery.Returns tt d'
    /\ (forall s sc host,
          configured !! s = Some sc -> host ∈ config.Hosts sc ->
          exists p, startup.booted d' s (config.ServicePort sc) host p)
    /\ (forall s serviceID p,
          discovery.stored d' s serviceID = Some p ->
          exists sc host, configured !! s = Some sc /\ host ∈ config.Hosts sc
                          /\ serviceID = s ++ "-" ++ host)
    /\ (forall s sc,
          configured !! s = Some sc -> config.Hosts sc <> [] ->
          exists ps, discovery.Discover s d' = discovery.Returns (inl ps) d'
                     /\ forall p, p ∈ ps
                                  <-> exists host, host ∈ config.Hosts sc
                                        /\ startup.booted d' s (config.ServicePort sc) host p)
    /\ (forall s,
          (forall sc, configured !! s = Some sc -> config.Hosts sc = []) ->
          discovery.Discover s d'
          = discovery.Returns (inr (discovery.ErrServiceNotFound s)) d').
Proof.
  cbn zeta. set (configured := config.Services (config.Discovery cfg)).
  destruct (registerServices_run clock (map_to_list configured)
              (NoDup_fst_map_to_list configured) 0 discovery.New eq_refl eq_refl)
    as (k' & d' & Hrun & Hm' & Honly & Hframe & Hboot & _).
  assert (Hall : forall s sc host, configured !! s = Some sc -> host ∈ config.Hosts sc ->
                   exists p, startup.booted d' s (config.ServicePort sc) host p).
  { intros s sc host Hs Hh. apply Hboot; [|exact Hh]. by apply elem_of_map_to_list. }
  assert (Hconf : forall s serviceID p, discovery.stored d' s serviceID = Some p ->
                    exists sc host, configured !! s = Some sc /\ host ∈ config.Hosts sc
                                    /\ serviceID = s ++ "-" ++ host).
  { intros s serviceID p Hst.
    destruct (Honly s serviceID p Hst) as [Hold|(sc & host & Hin & Hh & ->)].
    - unfold discovery.stored, discovery.New in Hold. cbn [discovery.services] in Hold.
      rewrite lookup_empty in Hold. discriminate Hold.
    - exists sc, host. split; [by apply elem_of_map_to_list|done]. }
  exists d'. split.
  { unfold startup.Start, mbind, discovery.monad.M_bind, discovery.bind, mret,
      discovery.monad.M_ret, discovery.ret. fold configured. by rewrite Hrun. }
  split; [exact Hall|]. split; [exact Hconf|]. split.
  - intros s sc Hs Hne.
    rewrite (Discover_run s d' 0 Hm').
    destruct (config.Hosts sc) as [|host0 hosts0] eqn:Hhosts; [done|].
    destruct (Hall s sc host0 Hs) as (p0 & Hst0 & _); [rewrite Hhosts; apply list_elem_of_here|].
    unfold discovery.stored in Hst0.
    destruct (discovery.services d' !! s) as [instances|] eqn:Hsv; [|discriminate Hst0].
    eexists. split; [reflexivity|]. intros p. rewrite elem_of_healthy. split.
    + intros (serviceID & i & Hi1 & Hi2 & Hi3).
      assert (Hst : discovery.stored d' s serviceID = Some p).
      { unfold discovery.stored. by rewrite Hsv. }
      destruct (Hconf s serviceID p Hst) as (sc' & host & Hs' & Hh & ->).
      rewrite Hs in Hs'. injection Hs' as <-.
      exists host. split; [by rewrite <- Hhosts|].
      destruct (Hall s sc host Hs Hh) as (p' & Hst' & Hrest).
      rewrite Hst in Hst'. injection Hst' as <-. by split.
    + intros (host & Hh & Hst & i & Hi & _ & _ & _ & _ & Hhealth).
      unfold discovery.stored in Hst. rewrite Hsv in Hst. eauto.
  - intros s Hnone.
    rewrite (Discover_run s d' 0 Hm'), Hframe; [reflexivity|].
    intros sc Hin. apply Hnone. by apply elem_of_map_to_list.
Qed.

(** X17.  Registering under a service name and id that the registry
    already holds replaces the instance: the registry then holds the new
    pointer under the id, the other ids of the service are as before, and
    [Discover] no longer lists the old instance (unless the service holds
    it under another id as well). *)
Theorem X17_register_replaces_the_instance_of_an_id
        (now : Z) (p : discovery.loc) (i : discovery.ServiceInstance)
        (d : discovery.InMemoryDiscovery) (old : discovery.loc) :
  discovery.mutex d = discovery.Free 0 ->
  discovery.heap d !! p = Some i ->
  discovery.watchers d !! discovery.Name i = None ->
  discovery.stored d (discovery.Name i) (discovery.ID i) = Some old ->
  old <> p ->
  (forall serviceID, serviceID <> discovery.ID i ->
                     discovery.stored d (discovery.Name i) serviceID <> Some old) ->
  exists (d' : discovery.InMemoryDiscovery) (ps : list discovery.loc),
    discovery.Register now p d = discovery.Returns None d'
    /\ discovery.stored d' (discovery.Name i) (discovery.ID i) = Some p
    /\ (forall s serviceID,
          (s, serviceID) <> (discovery.Name i, discovery.ID i) ->
          discovery.stored d' s serviceID = discovery.stored d s serviceID)
    /\ discovery.Discover (discovery.Name i) d' = discovery.Returns (inl ps) d'
    /\ (old ∉ ps)
    /\ (discovery.Health i = discovery.HealthStatusHealthy <-> p ∈ ps).
Proof.
  intros Hm Hp Hw Hold Hne Honly.
  pose proof (Register_run now p i d Hm Hp) as HR. rewrite Hw in HR.
  set (d' := discovery.registered now p i d) in *.
  unfold discovery.stored in Hold.
  destruct (discovery.services d !! discovery.Name i) as [instances|] eqn:Hs;
    [|discriminate Hold].
  assert (Hs' : discovery.services d' !! discovery.Name i
                = Some (<[discovery.ID i := p]> instances)).
  { unfold d', discovery.registered. cbn. by rewrite lookup_insert_eq, Hs. }
  pose proof (Discover_run (discovery.Name i) d' 0 eq_refl) as HD. rewrite Hs' in HD.
  eexists d', _. split; [exact HR|]. split; [|split; [|split; [exact HD|split]]].
  - unfold discovery.stored. rewrite Hs'. apply lookup_insert_eq.
  - intros s serviceID Hdiff. unfold discovery.stored.
    destruct (decide (s = discovery.Name i)) as [->|Hsn].
    + rewrite Hs', Hs. apply lookup_insert_ne. congruence.
    + unfold d', discovery.registered. cbn. by rewrite lookup_insert_ne.
  - rewrite elem_of_healthy. intros (serviceID & j & Hst & _).
    destruct (decide (serviceID = discovery.ID i)) as [->|Hid].
    + rewrite lookup_insert_eq in Hst. congruence.
    + rewrite lookup_insert_ne in Hst by congruence.
      apply (Honly serviceID Hid). unfold discovery.stored. by rewrite Hs.
  - rewrite elem_of_healthy.
    assert (Hhp : discovery.heap d' !! p = Some (discovery.setLastSeen now i)).
    { unfold d', discovery.registered. cbn. apply lookup_insert_eq. }
    split.
    + intros Hh. exists (discovery.ID i), (discovery.setLastSeen now i).
      split; [apply lookup_insert_eq|]. split; [exact Hhp|exact Hh].
    + intros (serviceID & j & _ & Hj & Hh). rewrite Hhp in Hj. by injection Hj as <-.
Qed.

Lemma X17_register_replaces_the_instance_of_an_id_witness :
  exists d' : discovery.InMemoryDiscovery,
    (discovery.Register 1 1%positive;; discovery.Register 2 2%positive)
      (discovery.withHeap
         {[ 1%positive := Scenario.healthyInstance;
            2%positive := discovery.setHealth discovery.HealthStatusUnhealthy
                            Scenario.healthyInstance ]}
         discovery.New)
    = discovery.Returns None d'
    /\ discovery.Discover "test-service" d' = discovery.Returns (inl []) d'.
Proof.
  pose (d0 := discovery.withHeap
                {[ 1%positive := Scenario.healthyInstance;
                   2%positive := discovery.setHealth discovery.HealthStatusUnhealthy
                                   Scenario.healthyInstance ]}
                discovery.New).
  pose (d1 := discovery.registered 1 1%positive Scenario.healthyInstance d0).
  assert (H1 : discovery.Register 1 1%positive d0 = discovery.Returns None d1)
    by (vm_compute; reflexivity).
  destruct (X17_register_replaces_the_instance_of_an_id 2 2%positive
              (discovery.setHealth discovery.HealthStatusUnhealthy Scenario.healthyInstance)
              d1 1%positive)
    as (d' & ps & HR & _ & _ & HD & Hold & Hnew).
  - reflexivity.
  - vm_compute. reflexivity.
  - reflexivity.
  - vm_compute. reflexivity.
  - discriminate.
  - intros serviceID Hid Hst. unfold discovery.stored, d1, discovery.registered in Hst.
    cbn [discovery.services discovery.Name discovery.setHealth Scenario.healthyInstance
         discovery.ID] in Hst.
    rewrite lookup_insert_eq in Hst.
    rewrite lookup_insert_ne in Hst by (cbn in Hid; congruence).
    cbn in Hst. rewrite lookup_empty in Hst. discriminate Hst.
  - exists d'. split.
    + unfold mbind, discovery.monad.M_bind, discovery.bind. fold d0. rewrite H1. exact HR.
    + assert (HD' : discovery.Discover "test-service" d'
                    = discovery.Returns (inl ps) d') by exact HD.
      rewrite HD'. f_equal. f_equal.
      assert (Hc : discovery.Register 2 2%positive d1
                   = discovery.Returns None
                       (discovery.registered 2 2%positive
                          (discovery.setHealth discovery.HealthStatusUnhealthy
                             Scenario.healthyInstance) d1))
        by (vm_compute; reflexivity).
      rewrite Hc in HR. injection HR as <-.
      assert (Hd : discovery.Discover "test-service"
                     (discovery.registered 2 2%positive
                        (discovery.setHealth discovery.HealthStatusUnhealthy
                           Scenario.healthyInstance) d1)
                   = discovery.Returns (inl [])
                       (discovery.registered 2 2%positive
                          (discovery.setHealth discovery.HealthStatusUnhealthy
                             Scenario.healthyInstance) d1))
        by (vm_compute; reflexivity).
      rewrite Hd in HD'. by injection HD' as <-.
Defined.

(* ===================================================================== *)
(** * Further properties of the route matcher and of the forwarder *)
(* ===================================================================== *)

Section FirstMatchFacts.

Context {A : Type} (f : A -> bool).

(** [List.find] stops at the first element that passes the test. *)
Lemma find_Some_split (l : list A) (x : A) :
  List.find f l = Some x ->
  exists before after,
    l = (before ++ x :: after)%list /\ f x = true /\ Forall (fun y => f y = false) before.
Proof.
  induction l as [|a l IH]; [discriminate|]. cbn.
  destruct (f a) eqn:Ha.
  - intros [= ->]. exists [], l. by repeat split.
  - intros (before & after & -> & Hx & Hb)%IH.
    exists (a :: before), after. repeat split; [exact Hx|]. by constructor.
Qed.

Lemma find_is_Some (l : list A) (x : A) :
  x ∈ l -> f x = true -> is_Some (List.find f l).
Proof.
  intros Hin Hx. destruct (List.find f l) eqn:Hf; [eauto|].
  apply list_elem_of_In in Hin. pose proof (find_none _ _ Hf x Hin). congruence.
Qed.

End FirstMatchFacts.

(** X18.  The first match wins: when [MatchRoute] returns a route, the
    route is one of the candidates for the path (the routes of the groups
    whose prefix the path has, in the order of the file, then the global
    routes), it passes the pattern and the method test, every candidate
    before it fails one of them, and the service returned is the one the
    services map holds under the route's service name. *)
Theorem X18_match_route_returns_the_first_match
        (p : proxy.RouteParser) (method path : string)
        (route : proxy.RouteConfig) (service : proxy.ServiceConfig) :
  proxy.MatchRoute p method path = inl (route, service) ->
  (exists before after,
      proxy.candidates p path = (before ++ route :: after)%list
      /\ Forall (fun r => proxy.matchRoutePattern (proxy.Pattern r) path
                          && proxy.matchMethod (proxy.Methods r) method = false) before)
  /\ proxy.matchRoutePattern (proxy.Pattern route) path = true
  /\ proxy.matchMethod (proxy.Methods route) method = true
  /\ proxy.services p !! proxy.Service route = Some service
  /\ (route ∈ proxy.routes p
      \/ exists g, g ∈ proxy.groups p
                   /\ GoStrings.HasPrefix path (proxy.Prefix g) = true
                   /\ route ∈ proxy.Routes g).
Proof.
  intros HM. apply MatchRoute_inl in HM as (Hf & Hs & Hp & Hm).
  unfold proxy.firstMatch in Hf.
  pose proof (find_Some_split _ _ _ Hf) as (before & after & Hc & _ & Hb).
  split; [by exists before, after|]. split; [exact Hp|]. split; [exact Hm|].
  split; [exact Hs|].
  assert (Hin : route ∈ proxy.candidates p path).
  { rewrite Hc. apply elem_of_app. right. apply list_elem_of_here. }
  unfold proxy.candidates in Hin. apply elem_of_app in Hin as [Hin|Hin]; [right|by left].
  apply list_elem_of_In, in_flat_map in Hin as (g & Hg & Hr).
  exists g. split; [by apply list_elem_of_In|].
  destruct (GoStrings.HasPrefix path (proxy.Prefix g)); [|destruct Hr].
  split; [reflexivity|]. by apply list_elem_of_In.
Qed.

Lemma X18_match_route_returns_the_first_match_witness :
  proxy.MatchRoute Scenario.usersWildcardParser "GET" "/api/v1/users/42/profile"
  = inl (Scenario.usersWildcardRoute, Scenario.userService)
  /\ proxy.matchRoutePattern "/*" "/api/v1/users/42/profile" = true.
Proof.
  assert (H : proxy.MatchRoute Scenario.usersWildcardParser "GET" "/api/v1/users/42/profile"
              = inl (Scenario.usersWildcardRoute, Scenario.userService))
    by (vm_compute; reflexivity).
  split; [exact H|].
  exact (proj1 (proj2 (X18_match_route_returns_the_first_match _ _ _ _ _ H))).
Defined.

(** X19.  Group routes come first: as soon as a route of a group whose
    prefix the path has passes the pattern and the method test, the global
    routes play no part in the answer of [MatchRoute], and the answer is
    not "no route found" (it is "service not found" when the first such
    route names a service the services map does not hold, even if a later
    route would do). *)
Theorem X19_group_routes_shadow_global_routes
        (p : proxy.RouteParser) (method path : string)
        (g : proxy.RouteGroup) (route : proxy.RouteConfig) (rs : list proxy.RouteConfig) :
  g ∈ proxy.groups p ->
  GoStrings.HasPrefix path (proxy.Prefix g) = true ->
  route ∈ proxy.Routes g ->
  proxy.routeMatches method path route = true ->
  proxy.MatchRoute p method path
  = proxy.MatchRoute (proxy.mkRouteParser rs (proxy.services p) (proxy.groups p)) method path
  /\ proxy.MatchRoute p method path <> inr (proxy.NoRouteFound method path).
Proof.
  intros Hg Hpre Hr Hm.
  assert (Hfind : is_Some (List.find (proxy.routeMatches method path)
                    (flat_map (fun g => if GoStrings.HasPrefix path (proxy.Prefix g)
                                        then proxy.Routes g else []) (proxy.groups p)))).
  { apply (find_is_Some _ _ route); [|exact Hm].
    apply list_elem_of_In, in_flat_map. exists g. split; [by apply list_elem_of_In|].
    rewrite Hpre. by apply list_elem_of_In. }
  destruct Hfind as [r0 Hr0].
  rewrite !MatchRoute_firstMatch. unfold proxy.firstMatch, proxy.candidates.
  cbn [proxy.groups proxy.routes proxy.services].
  rewrite !find_app_first, Hr0. split; [reflexivity|].
  unfold proxy.resolve. by destruct (proxy.services p !! proxy.Service r0).
Qed.

Lemma X19_group_routes_shadow_global_routes_witness :
  proxy.MatchRoute
    (proxy.mkRouteParser [Scenario.usersPrefixRoute] ∅
       [proxy.mkRouteGroup "users" "/api/v1/users" [] [Scenario.usersWildcardRoute]])
    "GET" "/api/v1/users"
  = inr (proxy.ServiceNotFound "user-service").
Proof.
  destruct (X19_group_routes_shadow_global_routes
              (proxy.mkRouteParser [Scenario.usersPrefixRoute] ∅
                 [proxy.mkRouteGroup "users" "/api/v1/users" [] [Scenario.usersWildcardRoute]])
              "GET" "/api/v1/users"
              (proxy.mkRouteGroup "users" "/api/v1/users" [] [Scenario.usersWildcardRoute])
              Scenario.usersWildcardRoute [])
    as [H _].
  - apply list_elem_of_here.
  - reflexivity.
  - apply list_elem_of_here.
  - vm_compute. reflexivity.
  - rewrite H. vm_compute. reflexivity.
Defined.


Section DollarPatterns.
Import GoStrings GoRegexp proxy.





End DollarPatterns.



Section UpstreamFacts.
Import proxy.

(** The joined path ends with the second path. *)
Lemma singleJoiningSlash_suffix (a b : string) : exists pre, singleJoiningSlash a b = pre ++ b.
Proof.
  unfold singleJoiningSlash.
  destruct (GoStrings.HasSuffix a "/") eqn:Ha, (GoStrings.HasPrefix b "/") eqn:Hb;
    cbn [andb negb].
  - apply HasSuffix_split in Ha as [a' ->]. exists a'.
    apply HasPrefix_split in Hb. cbn [String.length] in Hb.
    rewrite append_assoc. by rewrite <- Hb.
  - by exists a.
  - by exists a.
  - exists (a ++ "/"). by rewrite append_assoc.
Qed.

(** The first instance [Discover] answers with is a healthy instance the
    registry holds under the service. *)
Lemma Discover_first (serviceName : string) (d d' : discovery.InMemoryDiscovery)
      (first : discovery.loc) (rest : list discovery.loc) :
  discovery.Discover serviceName d = discovery.Returns (inl (first :: rest)) d' ->
  d' = d
  /\ exists serviceID i,
      discovery.stored d serviceName serviceID = Some first
      /\ discovery.heap d !! first = Some i
      /\ discovery.Health i = discovery.HealthStatusHealthy.
Proof.
  intros HD.
  destruct (discovery.mutex d) as [n|] eqn:Hm.
  - rewrite (Discover_run serviceName d n Hm) in HD.
    injection HD as HD <-. split; [reflexivity|].
    unfold discovery.stored.
    destruct (discovery.services d !! serviceName) as [instances|]; [|discriminate HD].
    injection HD as HD.
    apply (elem_of_healthy (discovery.heap d) instances first).
    rewrite HD. apply list_elem_of_here.
  - rewrite (Discover_blocks serviceName d Hm) in HD. discriminate HD.
Qed.

End UpstreamFacts.

Section ForwardedRequests.
Import proxy.

Ltac unfold_M :=
  unfold mbind, discovery.monad.M_bind, discovery.bind, mret, discovery.monad.M_ret,
    discovery.ret in *.

(** The upstream request of [ProxyGinRequest], when there is one. *)
Lemma ProxyGinRequest_upstream (backend : Backend) (p : ProxyService) (method path : string)
      (d d' : discovery.InMemoryDiscovery) (resp : GinResponse) (ev : list Event)
      (m' : string) (u : URL) :
  ProxyGinRequest backend p method path d = discovery.Returns (resp, ev) d' ->
  (m', u) ∈ upstreams ev ->
  maintenanceMode p = false
  /\ exists route service first rest i,
      MatchRoute (routeParser p) method path = inl (route, service)
      /\ discovery.Discover (Service route) d = discovery.Returns (inl (first :: rest)) d
      /\ discovery.heap d !! first = Some i
      /\ m' = method
      /\ u = directorURL (buildTargetURL i path route service) path.
Proof.
  unfold ProxyGinRequest, isMaintenanceMode.
  destruct (maintenanceMode p).
  { intros [= <- <- <-] Hin. cbn in Hin. by apply elem_of_nil in Hin. }
  destruct (MatchRoute (routeParser p) method path) as [[route service]|e] eqn:HM.
  2:{ intros [= <- <- <-] Hin. cbn in Hin. by apply elem_of_nil in Hin. }
  unfold_M.
  destruct (discovery.Discover (Service route) d) as [[[|first rest]|err] d1| |] eqn:HD;
    try discriminate;
    try (intros [= <- <- <-] Hin; cbn in Hin; by apply elem_of_nil in Hin).
  apply Discover_first in HD as HD'. destruct HD' as (-> & serviceID & i & _ & Hi & _).
  unfold discovery.deref. rewrite Hi.
  intros Hret Hin. split; [reflexivity|].
  exists route, service, first, rest, i.
  split; [reflexivity|]. split; [exact HD|]. split; [exact Hi|].
  destruct (backend method _) as [|st body]; injection Hret as <- <- <-;
    cbn in Hin; apply list_elem_of_singleton in Hin; by injection Hin as -> ->.
Qed.

(** The upstream request of [ProxyRequest], when there is one. *)
Lemma ProxyRequest_upstream (backend : Backend) (p : ProxyService) (method path : string)
      (d d' : discovery.InMemoryDiscovery) (resp : ProxyResponse) (failed : bool)
      (ev : list Event) (m' : string) (u : URL) :
  ProxyRequest backend p method path d = discovery.Returns (resp, failed, ev) d' ->
  (m', u) ∈ upstreams ev ->
  exists route service first rest i,
    MatchRoute (routeParser p) method path = inl (route, service)
    /\ discovery.Discover (Service route) d = discovery.Returns (inl (first :: rest)) d
    /\ discovery.heap d !! first = Some i
    /\ m' = method
    /\ u = buildTargetURL i path route service.
Proof.
  unfold ProxyRequest.
  destruct (MatchRoute (routeParser p) method path) as [[route service]|e] eqn:HM.
  2:{ intros [= <- <- <- <-] Hin. cbn in Hin. by apply elem_of_nil in Hin. }
  unfold_M.
  destruct (discovery.Discover (Service route) d) as [[[|first rest]|err] d1| |] eqn:HD;
    try discriminate;
    try (intros [= <- <- <- <-] Hin; cbn in Hin; by apply elem_of_nil in Hin).
  apply Discover_first in HD as HD'. destruct HD' as (-> & serviceID & i & _ & Hi & _).
  unfold discovery.deref. rewrite Hi.
  intros Hret Hin.
  exists route, service, first, rest, i.
  split; [reflexivity|]. split; [exact HD|]. split; [exact Hi|].
  destruct (backend method _) as [|st [body|]]; injection Hret as <- <- <- <-;
    cbn in Hin; apply list_elem_of_singleton in Hin; by injection Hin as -> ->.
Qed.

End ForwardedRequests.

(** X22.  A nil error of [ProxyRequest] does not mean that the request
    was forwarded.  For a matched route whose service the registry knows
    but has no healthy instance of, the answer is the status 503 with a
    nil error (a service the registry does not know gives the same status
    with the error of [Discover]); so a response that comes with a nil
    error is either that 503, with no request sent, or the answer of the
    backend. *)
Theorem X22_ProxyRequest_nil_error_is_no_success
        (backend : proxy.Backend) (p : proxy.ProxyService) (method path : string)
        (d : discovery.InMemoryDiscovery)
        (route : proxy.RouteConfig) (service : proxy.ServiceConfig) :
  proxy.MatchRoute (proxy.routeParser p) method path = inl (route, service) ->
  let unavailable :=
    proxy.mkProxyResponse 503 ""
      (Some ("service not available: " ++ proxy.Service route)) in
  let ev := [proxy.EvMatchRoute method path; proxy.EvDiscover (proxy.Service route)] in
  (discovery.Discover (proxy.Service route) d = discovery.Returns (inl []) d ->
   proxy.ProxyRequest backend p method path d = discovery.Returns (unavailable, false, ev) d)
  /\ (forall e,
        discovery.Discover (proxy.Service route) d = discovery.Returns (inr e) d ->
        proxy.ProxyRequest backend p method path d
        = discovery.Returns (unavailable, true, ev) d)
  /\ (forall resp ev' d',
        proxy.ProxyRequest backend p method path d = discovery.Returns (resp, false, ev') d' ->
        (resp = unavailable /\ proxy.upstreams ev' = [])
        \/ (proxy.Error resp = None
            /\ exists u, proxy.upstreams ev' = [(method, u)]
                         /\ backend method u
                            = proxy.UpstreamResponse (proxy.StatusCode resp)
                                                     (Some (proxy.Body resp)))).
Proof.
  intros HM unavailable ev. unfold proxy.ProxyRequest. rewrite HM.
  unfold mbind, discovery.monad.M_bind, discovery.bind, mret, discovery.monad.M_ret,
    discovery.ret.
  split; [|split].
  - by intros ->.
  - by intros e ->.
  - intros resp ev' d'.
    destruct (discovery.Discover (proxy.Service route) d) as [[[|first rest]|err] d1| |];
      try discriminate.
    + intros [= <- <- <-]. by left.
    + unfold discovery.deref. destruct (discovery.heap d1 !! first) as [i|]; [|discriminate].
      destruct (backend method _) as [|st [body|]] eqn:Hb; try discriminate.
      intros [= <- <- <-]. right. split; [reflexivity|].
      eexists. split; [reflexivity|]. exact Hb.
Qed.

Lemma X22_ProxyRequest_nil_error_is_no_success_witness :
  proxy.ProxyRequest Scenario.okBackend (proxy.NewProxyService Scenario.ordersParser)
    "GET" "/orders" Scenario.downOrderRegistry
  = discovery.Returns
      (proxy.mkProxyResponse 503 "" (Some "service not available: order-svc"), false,
       [proxy.EvMatchRoute "GET" "/orders"; proxy.EvDiscover "order-svc"])
      Scenario.downOrderRegistry.
Proof.
  destruct (X22_ProxyRequest_nil_error_is_no_success Scenario.okBackend
              (proxy.NewProxyService Scenario.ordersParser) "GET" "/orders"
              Scenario.downOrderRegistry Scenario.ordersRoute Scenario.orderService)
    as [H _]; [vm_compute; reflexivity|].
  apply H. vm_compute. reflexivity.
Defined.

(** X23.  [GetServiceHealth] never answers "not healthy" without an
    error: on a registry whose lock no writer holds it returns, and its
    answer is [true] with a nil error, exactly when the registry holds a
    healthy instance of the service, or [false] with an error. *)
Theorem X23_GetServiceHealth_is_true_or_an_error
        (serviceName : string) (d : discovery.InMemoryDiscovery) (n : nat) :
  discovery.mutex d = discovery.Free n ->
  exists r : bool * option proxy.HealthError,
    proxy.GetServiceHealth serviceName d = discovery.Returns r d
    /\ (r = (true, None) \/ exists e, r = (false, Some e))
    /\ (r = (true, None)
        <-> exists serviceID p i,
              discovery.stored d serviceName serviceID = Some p
              /\ discovery.heap d !! p = Some i
              /\ discovery.Health i = discovery.HealthStatusHealthy).
Proof.
  intros Hm. unfold proxy.GetServiceHealth.
  unfold mbind, discovery.monad.M_bind, discovery.bind, mret, discovery.monad.M_ret,
    discovery.ret.
  rewrite (Discover_run serviceName d n Hm). unfold discovery.stored.
  destruct (discovery.services d !! serviceName) as [instances|] eqn:Hs.
  - destruct (filter _ _) as [|first rest] eqn:Hf.
    + eexists. split; [reflexivity|]. split; [right; eauto|].
      split; [discriminate|]. intros (serviceID & p & i & H1 & H2 & H3).
      assert (Hin : p ∈ filter (fun p => discovery.isHealthy (discovery.heap d) p = true)
                      (snd <$> map_to_list instances)).
      { apply elem_of_healthy. eauto. }
      rewrite Hf in Hin. by apply elem_of_nil in Hin.
    + assert (Hin : first ∈ filter (fun p => discovery.isHealthy (discovery.heap d) p = true)
                      (snd <$> map_to_list instances)).
      { rewrite Hf. apply list_elem_of_here. }
      apply elem_of_healthy in Hin as (serviceID & i & H1 & H2 & H3).
      unfold discovery.deref. rewrite H2, H3. cbn.
      eexists. split; [reflexivity|]. split; [by left|].
      split; [intros _; by exists serviceID, first, i|by intros _].
  - eexists. split; [reflexivity|]. split; [right; eauto|].
    split; [discriminate|]. by intros (? & ? & ? & [=] & _).
Qed.

Lemma X23_GetServiceHealth_is_true_or_an_error_witness :
  proxy.GetServiceHealth "order-svc" Scenario.downOrderRegistry
  = discovery.Returns (false, Some (proxy.NoInstancesFound "order-svc"))
                      Scenario.downOrderRegistry
  /\ proxy.GetServiceHealth "order-svc" Scenario.orderRegistry
     = discovery.Returns (true, None) Scenario.orderRegistry.
Proof.
  split; [vm_compute; reflexivity|].
  destruct (X23_GetServiceHealth_is_true_or_an_error "order-svc" Scenario.orderRegistry 0
              eq_refl) as (r & Hr & _ & Hiff).
  rewrite Hr. f_equal. apply Hiff.
  exists "order-svc-10.0.0.1", 1%positive, (discovery.setLastSeen 0 Scenario.orderInstance).
  repeat split; vm_compute; reflexivity.
Defined.

(** X24.  Whatever the two forwarders send, they send to a healthy
    instance the registry holds under the service of the matched route:
    the method is the method of the request, the scheme is http and the
    host is the address and port of that instance (the hosts and the port
    of the service in the route file play no part). *)
Theorem X24_requests_go_to_a_healthy_instance
        (backend : proxy.Backend) (p : proxy.ProxyService) (method path : string)
        (d : discovery.InMemoryDiscovery) :
  let sent (m' : string) (u : proxy.URL) :=
    m' = method
    /\ proxy.Scheme u = "http"
    /\ exists route service serviceID q i,
        proxy.MatchRoute (proxy.routeParser p) method path = inl (route, service)
        /\ discovery.stored d (proxy.Service route) serviceID = Some q
        /\ discovery.heap d !! q = Some i
        /\ discovery.Health i = discovery.HealthStatusHealthy
        /\ proxy.Host u = proxy.hostPort (discovery.Address i) (discovery.Port i) in
  (forall resp ev d' m' u,
      proxy.ProxyGinRequest backend p method path d = discovery.Returns (resp, ev) d' ->
      (m', u) ∈ proxy.upstreams ev -> sent m' u)
  /\ (forall resp failed ev d' m' u,
        proxy.ProxyRequest backend p method path d = discovery.Returns (resp, failed, ev) d' ->
        (m', u) ∈ proxy.upstreams ev -> sent m' u).
Proof.
  cbn zeta. split.
  - intros resp ev d' m' u HR Hin.
    destruct (ProxyGinRequest_upstream _ _ _ _ _ _ _ _ _ _ HR Hin)
      as (_ & route & service & first & rest & i & HM & HD & Hi & -> & ->).
    apply Discover_first in HD as (_ & serviceID & i' & Hst & Hi' & Hh).
    rewrite Hi in Hi'. injection Hi' as <-.
    split; [reflexivity|]. split; [reflexivity|].
    exists route, service, serviceID, first, i. by repeat split.
  - intros resp failed ev d' m' u HR Hin.
    destruct (ProxyRequest_upstream _ _ _ _ _ _ _ _ _ _ _ HR Hin)
      as (route & service & first & rest & i & HM & HD & Hi & -> & ->).
    apply Discover_first in HD as (_ & serviceID & i' & Hst & Hi' & Hh).
    rewrite Hi in Hi'. injection Hi' as <-.
    split; [reflexivity|]. split; [reflexivity|].
    exists route, service, serviceID, first, i. by repeat split.
Qed.

Lemma X24_requests_go_to_a_healthy_instance_witness :
  exists (u : proxy.URL) (q : discovery.loc) (i : discovery.ServiceInstance),
    proxy.ProxyGinRequest Scenario.okBackend (proxy.NewProxyService Scenario.ordersParser)
      "GET" "/orders" Scenario.orderRegistry
    = discovery.Returns
        (proxy.GinRelay 200 (Some "ok"),
         [proxy.EvMatchRoute "GET" "/orders"; proxy.EvDiscover "order-svc";
          proxy.EvUpstream "GET" u])
        Scenario.orderRegistry
    /\ discovery.heap Scenario.orderRegistry !! q = Some i
    /\ discovery.Health i = discovery.HealthStatusHealthy
    /\ proxy.Host u = proxy.hostPort (discovery.Address i) (discovery.Port i).
Proof.
  assert (HR : proxy.ProxyGinRequest Scenario.okBackend
                 (proxy.NewProxyService Scenario.ordersParser) "GET" "/orders"
                 Scenario.orderRegistry
               = discovery.Returns
                   (proxy.GinRelay 200 (Some "ok"),
                    [proxy.EvMatchRoute "GET" "/orders"; proxy.EvDiscover "order-svc";
                     proxy.EvUpstream "GET"
                       (proxy.mkURL "http" "10.0.0.1:9000" "/orders/orders")])
                   Scenario.orderRegistry) by (vm_compute; reflexivity).
  destruct (X24_requests_go_to_a_healthy_instance Scenario.okBackend
              (proxy.NewProxyService Scenario.ordersParser) "GET" "/orders"
              Scenario.orderRegistry) as [H _].
  destruct (H _ _ _ "GET" _ HR (list_elem_of_here _ _))
    as (_ & _ & route & service & serviceID & q & i & _ & _ & Hi & Hh & Hu).
  exists (proxy.mkURL "http" "10.0.0.1:9000" "/orders/orders"), q, i.
  by repeat split.
Defined.

(** X25.  [ProxyGinRequest] never shortens a path.  The reverse proxy
    joins the path of the target URL, which [buildTargetURL] has already
    made from the path of the request, with the path of the request: the
    upstream path always ends with the complete path of the request,
    whatever [strip_prefix] and [rewrite_path] say, and for a route with
    neither it is the path joined with itself. *)
Theorem X25_ProxyGinRequest_sends_the_path_joined_to_the_target
        (backend : proxy.Backend) (p : proxy.ProxyService) (method path : string)
        (d d' : discovery.InMemoryDiscovery) (resp : proxy.GinResponse)
        (ev : list proxy.Event) (m' : string) (u : proxy.URL) :
  proxy.ProxyGinRequest backend p method path d = discovery.Returns (resp, ev) d' ->
  (m', u) ∈ proxy.upstreams ev ->
  exists route service i,
    proxy.MatchRoute (proxy.routeParser p) method path = inl (route, service)
    /\ proxy.Path u
       = proxy.singleJoiningSlash (proxy.Path (proxy.buildTargetURL i path route service)) path
    /\ (exists pre, proxy.Path u = pre ++ path)
    /\ (proxy.StripPrefix route = false -> proxy.RewritePath route = "" ->
        proxy.Path u = proxy.singleJoiningSlash path path).
Proof.
  intros HR Hin.
  destruct (ProxyGinRequest_upstream _ _ _ _ _ _ _ _ _ _ HR Hin)
    as (_ & route & service & first & rest & i & HM & _ & _ & _ & ->).
  exists route, service, i. split; [exact HM|]. split; [reflexivity|].
  split; [apply singleJoiningSlash_suffix|].
  intros Hs Hr. cbn [proxy.directorURL proxy.Path proxy.buildTargetURL].
  by rewrite Hs, Hr.
Qed.

Lemma X25_ProxyGinRequest_sends_the_path_joined_to_the_target_witness :
  exists (u : proxy.URL) (pre : string),
    proxy.ProxyGinRequest Scenario.okBackend (proxy.NewProxyService Scenario.ordersParser)
      "GET" "/orders" Scenario.orderRegistry
    = discovery.Returns
        (proxy.GinRelay 200 (Some "ok"),
         [proxy.EvMatchRoute "GET" "/orders"; proxy.EvDiscover "order-svc";
          proxy.EvUpstream "GET" u])
        Scenario.orderRegistry
    /\ proxy.Path u = "/orders/orders"
    /\ proxy.Path u = pre ++ "/orders".
Proof.
  assert (HR : proxy.ProxyGinRequest Scenario.okBackend
                 (proxy.NewProxyService Scenario.ordersParser) "GET" "/orders"
                 Scenario.orderRegistry
               = discovery.Returns
                   (proxy.GinRelay 200 (Some "ok"),
                    [proxy.EvMatchRoute "GET" "/orders"; proxy.EvDiscover "order-svc";
                     proxy.EvUpstream "GET"
                       (proxy.mkURL "http" "10.0.0.1:9000" "/orders/orders")])
                   Scenario.orderRegistry) by (vm_compute; reflexivity).
  destruct (X25_ProxyGinRequest_sends_the_path_joined_to_the_target _ _ _ _ _ _ _ _ "GET" _ HR
              (list_elem_of_here _ _))
    as (route & service & i & _ & _ & [pre Hpre] & _).
  exists (proxy.mkURL "http" "10.0.0.1:9000" "/orders/orders"), pre.
  split; [exact HR|]. split; [reflexivity|exact Hpre].
Defined.

(* ===================================================================== *)
(** * Properties of the handlers *)
(* ===================================================================== *)

Section LegacyFacts.
Import GoStrings handler.

(** The test of the [switch] is [strings.HasPrefix]. *)
Lemma startsWith_HasPrefix (prefix : string) :
  forall (n : nat) (path : string),
    String.length prefix = n -> startsWith n path prefix = HasPrefix path prefix.
Proof.
  unfold startsWith. induction prefix as [|c prefix IH]; intros n path Hn.
  - cbn in Hn. subst n. by destruct path.
  - cbn in Hn. subst n. destruct path as [|x path]; [reflexivity|].
    cbn [String.length Nat.leb take HasPrefix String.eqb].
    rewrite <- (IH (String.length prefix) path eq_refl).
    destruct (Ascii.eqb x c); [reflexivity|]. by rewrite andb_false_r.
Qed.

Lemma drop_append (pre rest : string) : drop (String.length pre) (pre ++ rest) = rest.
Proof. induction pre as [|c pre IH]; [reflexivity|]. rewrite append_cons. exact IH. Qed.

(** The prefixes of the [switch] and the service of each. *)
Lemma legacyTarget_HasPrefix (path : string) :
  legacyTarget path
  = if HasPrefix path "/users" then Some ("user-service", drop 6 path)
    else if HasPrefix path "/expenses" then Some ("expense-service", drop 9 path)
    else if HasPrefix path "/approvals" then Some ("approval-service", drop 10 path)
    else if HasPrefix path "/finance" then Some ("finance-service", drop 8 path)
    else if HasPrefix path "/files" then Some ("file-service", drop 6 path)
    else if HasPrefix path "/ai" then Some ("ai-service", drop 3 path)
    else if HasPrefix path "/notifications" then Some ("notification-service", drop 14 path)
    else None.
Proof. unfold legacyTarget. by rewrite !startsWith_HasPrefix. Qed.

End LegacyFacts.

(** X26.  The table of [legacyProxyHandler]: a path is sent to the
    service of the prefix it starts with, cut right after the prefix, also
    in the middle of a segment; a path that starts with none of the seven
    prefixes has no target. *)
Theorem X26_legacy_targets (path service rest : string) :
  handler.legacyTarget path = Some (service, rest)
  <-> exists prefix,
        (prefix, service) ∈ [("/users", "user-service"); ("/expenses", "expense-service");
                             ("/approvals", "approval-service");
                             ("/finance", "finance-service"); ("/files", "file-service");
                             ("/ai", "ai-service");
                             ("/notifications", "notification-service")]
        /\ path = prefix ++ rest.
Proof.
  rewrite legacyTarget_HasPrefix. split.
  - repeat match goal with
           | |- context [GoStrings.HasPrefix path ?pre] =>
               let H := fresh "H" in
               destruct (GoStrings.HasPrefix path pre) eqn:H;
               [ intros [= <- <-]; exists pre; split;
                 [ set_solver | exact (HasPrefix_split path pre H) ]
               | ]
           end.
    discriminate.
  - intros (prefix & Hin & ->).
    repeat (apply elem_of_cons in Hin as [[= -> ->]|Hin]; [vm_compute; reflexivity|]).
    by apply elem_of_nil in Hin.
Qed.

(** X27.  A handler without a proxy service (the one the static router
    builds) forwards nothing.  [ProxyHandler] then answers 404 for a path
    outside the table, 503 when the registry has no healthy instance of the
    target service, and in the remaining case, a healthy instance being
    there, it runs into the nil pointer: no request is ever sent and the
    registry is left as it was. *)
Theorem X27_without_proxy_service_nothing_is_forwarded
        (backend : proxy.Backend) (h : handler.Handler) (method param urlPath : string)
        (d : discovery.InMemoryDiscovery) (n : nat) :
  handler.proxyService h = None ->
  discovery.mutex d = discovery.Free n ->
  let path := if String.eqb param "" then urlPath else param in
  (forall resp ev d',
      handler.ProxyHandler backend h method param urlPath d = discovery.Returns (resp, ev) d' ->
      d' = d /\ proxy.upstreams ev = []
      /\ (resp = proxy.GinJSON 404 "Service not found" /\ handler.legacyTarget path = None
          \/ resp = proxy.GinJSON 503 "Service not available"))
  /\ (handler.ProxyHandler backend h method param urlPath d = discovery.Panics
      <-> exists service rest serviceID q i,
            handler.legacyTarget path = Some (service, rest)
            /\ discovery.stored d service serviceID = Some q
            /\ discovery.heap d !! q = Some i
            /\ discovery.Health i = discovery.HealthStatusHealthy)
  /\ handler.ProxyHandler backend h method param urlPath d <> discovery.Blocks.
Proof.
  intros Hnil Hm path.
  unfold handler.ProxyHandler, handler.legacyProxyHandler. rewrite Hnil. fold path.
  unfold mbind, discovery.monad.M_bind, discovery.bind, mret, discovery.monad.M_ret,
    discovery.ret.
  destruct (handler.legacyTarget path) as [[service rest]|] eqn:Ht.
  - rewrite (Discover_run service d n Hm). unfold discovery.stored.
    destruct (discovery.services d !! service) as [instances|] eqn:Hs.
    + destruct (filter _ _) as [|first others] eqn:Hf.
      * split; [|split; [|discriminate]].
        -- intros resp ev d' [= <- <- <-]. auto.
        -- split; [discriminate|].
           intros (service' & rest' & serviceID & q & i & [= <- <-] & H1 & H2 & H3).
           rewrite Hs in H1.
           assert (Hin : q ∈ filter (fun p => discovery.isHealthy (discovery.heap d) p = true)
                           (snd <$> map_to_list instances)).
           { apply elem_of_healthy. eauto. }
           rewrite Hf in Hin. by apply elem_of_nil in Hin.
      * split; [|split; [|discriminate]].
        -- intros resp ev d'. discriminate.
        -- split; [|reflexivity]. intros _.
           assert (Hin : first ∈ filter
                           (fun p => discovery.isHealthy (discovery.heap d) p = true)
                           (snd <$> map_to_list instances)).
           { rewrite Hf. apply list_elem_of_here. }
           apply elem_of_healthy in Hin as (serviceID & i & H1 & H2 & H3).
           exists service, rest, serviceID, first, i. rewrite Hs. by repeat split.
    + split; [|split; [|discriminate]].
      * intros resp ev d' [= <- <- <-]. auto.
      * split; [discriminate|].
        intros (service' & rest' & serviceID & q & i & [= <- <-] & H1 & _).
        rewrite Hs in H1. discriminate H1.
  - split; [|split; [|discriminate]].
    + intros resp ev d' [= <- <- <-]. auto.
    + split; [discriminate|]. by intros (? & ? & ? & ? & ? & [=] & _).
Qed.

Lemma X27_without_proxy_service_nothing_is_forwarded_witness :
  handler.ProxyHandler Scenario.okBackend handler.New "GET" "/users/42" "/api/v1/proxy/users/42"
    Scenario.userRegistry
  = discovery.Panics.
Proof.
  apply (X27_without_proxy_service_nothing_is_forwarded Scenario.okBackend handler.New
           "GET" "/users/42" "/api/v1/proxy/users/42" Scenario.userRegistry 0
           eq_refl eq_refl).
  exists "user-service", "/42", "user-service-10.0.0.2", 1%positive,
    (discovery.setLastSeen 0 Scenario.userInstance).
  repeat split; vm_compute; reflexivity.
Defined.

(** X28.  [ToggleMaintenanceMode] keeps the flag of the proxy service
    equal to the flag of the handler: after the call both hold the negation
    of the handler's flag; when the new value is [true], [ProxyHandler]
    answers every request with the 503 of the maintenance mode, without
    matching a route or asking the registry; and a second call puts a
    handler whose two flags agreed back as it was. *)
Theorem X28_toggle_keeps_the_two_flags_equal
        (h : handler.Handler) (p : proxy.ProxyService) :
  handler.proxyService h = Some p ->
  let h1 := snd (handler.ToggleMaintenanceMode h) in
  handler.maintenanceMode h1 = negb (handler.maintenanceMode h)
  /\ handler.proxyService h1
     = Some (proxy.SetMaintenanceMode (negb (handler.maintenanceMode h)) p)
  /\ fst (handler.ToggleMaintenanceMode h)
     = ("Maintenance mode " ++ (if handler.maintenanceMode h then "disabled" else "enabled"),
        negb (handler.maintenanceMode h))
  /\ (handler.maintenanceMode h = false ->
      forall backend method param urlPath d,
        handler.ProxyHandler backend h1 method param urlPath d
        = discovery.Returns
            (proxy.GinJSON 503 "Service is under maintenance", []) d)
  /\ (proxy.maintenanceMode p = handler.maintenanceMode h ->
      snd (handler.ToggleMaintenanceMode h1) = h).
Proof.
  intros Hp. unfold handler.ToggleMaintenanceMode. rewrite Hp. cbn.
  split; [reflexivity|]. split; [reflexivity|].
  split; [by destruct (handler.maintenanceMode h)|]. split.
  - intros Hoff backend method param urlPath d.
    unfold handler.ProxyHandler. cbn. rewrite Hoff.
    by apply ProxyGinRequest_maintenance.
  - intros Hsync. rewrite negb_involutive.
    destruct h as [ps rl mm]. cbn in *. subst ps. f_equal.
    destruct p as [rp pm]. cbn in *. by subst pm.
Qed.

Lemma X28_toggle_keeps_the_two_flags_equal_witness :
  handler.ProxyHandler Scenario.okBackend
    (snd (handler.ToggleMaintenanceMode
            (handler.NewWithProxy (Some (proxy.NewProxyService Scenario.ordersParser)))))
    "GET" "" "/orders" Scenario.orderRegistry
  = discovery.Returns (proxy.GinJSON 503 "Service is under maintenance", [])
                      Scenario.orderRegistry.
Proof.
  destruct (X28_toggle_keeps_the_two_flags_equal
              (handler.NewWithProxy (Some (proxy.NewProxyService Scenario.ordersParser)))
              (proxy.NewProxyService Scenario.ordersParser) eq_refl)
    as (_ & _ & _ & H & _).
  by apply H.
Defined.
